(** * EVA core: the reinforcement-learning engine

    A shallow embedding of [ofo-core/cpp/src/reinforcement_learning.cpp]
    (classes [QNetwork] and [ReinforcementLearningEngine]) and the
    properties of it that the specification states; then the utility
    functions of that file, [ofo-core/cpp/src/policy_engine.cpp] (class
    [CPPPolicyEngine]) and the evolution cycle of
    [ofo-core/cpp/src/main.cpp] (class [EVACPPCore]), with further
    properties read off the code.

    Modelling conventions.
    - [double] is modelled by the exact rationals [Q]: the order, the
      clamping and the products of the source are kept, rounding, NaN and
      the infinities are not.  Where a NaN or an infinity decides what
      the code does, in [setExplorationRate], the values of binary64 are
      modelled as they are ([spec_float]); properties that rounding or
      overflow would decide are stated where they do not.
    - [size_t] is modelled by [N] with the wrap-around at 2^64 written
      out ([add_sz], [mul_sz]).
    - [std::vector] is a [list]; [operator[]] out of range, dereferencing
      an end iterator or a null [unique_ptr], and a remainder by zero are
      undefined behaviour, outcome [UB].
    - A thrown [std::invalid_argument] is the outcome [Raise].
    - Every public method of the engine takes the engine-wide mutex for
      its whole body, so a method is one atomic state transformer.
    - The pseudo random generator [rng_] is an oracle: a tape of raw
      draws and a cursor.  A distribution object maps a raw draw into its
      range, so every value of the range is a possible result and no
      other value is; probabilities are not modelled.
    - Console output is not modelled. *)

From Stdlib Require Import QArith ZArith NArith Lia Lqa.
From Stdlib Require Import SpecFloat.
From stdpp Require Import base option list strings pretty gmap.

(** ** Machine numbers *)

Abbreviation double := Q.

Definition SIZE_MODULUS : N := 2 ^ 64.

Definition add_sz (a b : N) : N := ((a + b) mod SIZE_MODULUS)%N.
Definition mul_sz (a b : N) : N := ((a * b) mod SIZE_MODULUS)%N.
(** [a - b] on [size_t]: wraps below zero. *)
Definition sub_sz (a b : N) : N :=
  (((a + SIZE_MODULUS) - b mod SIZE_MODULUS) mod SIZE_MODULUS)%N.

(** [a < b] on doubles. *)
Definition Qltb (a b : Q) : bool :=
  (Qnum a * Z.pos (Qden b) <? Qnum b * Z.pos (Qden a))%Z.

(** [static_cast<double>(n)] for a [size_t]. *)
Definition double_of_size (n : N) : Q := inject_Z (Z.of_N n).

(** ** Outcomes of a computation that reads only *)

Inductive exn : Type :=
| invalid_argument (what : string).

Inductive result (A : Type) : Type :=
| Value (a : A)
| Raise (x : exn)
| UB.
Arguments Value {A} a.
Arguments Raise {A} x.
Arguments UB {A}.

#[global] Instance result_ret : MRet result := fun A a => Value a.
#[global] Instance result_bind : MBind result := fun A B f m =>
  match m with
  | Value a => f a
  | Raise x => Raise x
  | UB => UB
  end.

(** [static_cast<size_t>(x)]: truncation toward zero, undefined when
    the truncated value is not a [size_t]. *)
Definition size_of_double (x : Q) : result N :=
  let t := Z.quot (Qnum x) (Z.pos (Qden x)) in
  if ((0 <=? t) && (t <? Z.of_N SIZE_MODULUS))%Z then Value (Z.to_N t) else UB.

(** ** Vectors *)

Definition size {A} (v : list A) : N := N.of_nat (length v).

(** [v[i]] *)
Definition at_ {A} (v : list A) (i : N) : result A :=
  match v !! N.to_nat i with
  | Some x => Value x
  | None => UB
  end.

(** The indices [0, 1, ..., n-1] of a counting [for] loop. *)
Definition range (n : N) : list N := N.of_nat <$> seq 0 (N.to_nat n).

(** A loop that threads an accumulator through the elements of [l]. *)
Fixpoint foldM {M : Type -> Type} `{MBind M, MRet M} {A B : Type}
    (f : A -> B -> M A) (a : A) (l : list B) : M A :=
  match l with
  | [] => mret a
  | b :: l' => a' ← f a b; foldM f a' l'
  end.

(** [std::max_element]: the position of the first greatest element, the
    end position [size v] on an empty vector. *)
Fixpoint max_element_from (largest : N) (largest_val : Q) (first : N)
    (rest : list Q) : N :=
  match rest with
  | [] => largest
  | x :: rest' =>
      if Qltb largest_val x
      then max_element_from first x (first + 1)%N rest'
      else max_element_from largest largest_val (first + 1)%N rest'
  end.

Definition max_element (v : list Q) : N :=
  match v with
  | [] => 0%N
  | x :: rest => max_element_from 0%N x 1%N rest
  end.

(** ** QNetwork *)

Record QNetwork : Type := mkQNetwork {
  weights_ : list (list double);
  biases_ : list double;
  input_size_ : N;
  hidden_size_ : N;
  output_size_ : N;
  learning_rate_ : double
}.

(** The constructor.  [dist] and [dist2] give the successive samples of
    the two normal distributions the weights are drawn from. *)
Definition newQNetwork (input_size hidden_size output_size : N)
    (learning_rate : double) (dist dist2 : N -> double) : QNetwork :=
  {| weights_ := [ dist <$> range (mul_sz input_size hidden_size);
                   dist2 <$> range (mul_sz hidden_size output_size) ];
     biases_ := replicate (N.to_nat (add_sz hidden_size output_size)) 0%Q;
     input_size_ := input_size;
     hidden_size_ := hidden_size;
     output_size_ := output_size;
     learning_rate_ := learning_rate |}.

(** [std::max(0.0, x)] *)
Definition relu (x : double) : double := if Qltb 0 x then x else 0%Q.

Definition forward (net : QNetwork) (input : list double)
  : result (list double) :=
  if negb (size input =? input_size_ net)%N
  then Raise (invalid_argument "Input size mismatch")
  else
    (* Input to hidden layer *)
    hidden ← mapM (fun h =>
      acc ← foldM (fun acc i =>
               x ← at_ input i;
               w0 ← at_ (weights_ net) 0;
               w ← at_ w0 (add_sz (mul_sz i (hidden_size_ net)) h);
               mret (acc + x * w)%Q) 0%Q (range (input_size_ net));
      b ← at_ (biases_ net) h;
      mret (relu (acc + b)%Q)) (range (hidden_size_ net));
    (* Hidden to output layer *)
    mapM (fun o =>
      acc ← foldM (fun acc h =>
               x ← at_ hidden h;
               w1 ← at_ (weights_ net) 1;
               w ← at_ w1 (add_sz (mul_sz h (output_size_ net)) o);
               mret (acc + x * w)%Q) 0%Q (range (hidden_size_ net));
      b ← at_ (biases_ net) (add_sz (hidden_size_ net) o);
      mret (acc + b)%Q) (range (output_size_ net)).

Definition predict (net : QNetwork) (state : list double)
  : result (list double) :=
  forward net state.

(** [backward] changes [weights_[1]] only; it fails before it writes. *)
Definition backward (net : QNetwork) (input target : list double)
  : result QNetwork :=
  prediction ← forward net input;
  (* Output layer gradients *)
  output_gradients ← mapM (fun i =>
      p ← at_ prediction i;
      t ← at_ target i;
      mret (2.0 * (p - t) / double_of_size (output_size_ net))%Q)
    (range (output_size_ net));
  (* Update weights *)
  w1 ← at_ (weights_ net) 1;
  w1' ← mapM (fun i =>
      w ← at_ w1 i;
      (if (output_size_ net =? 0)%N then UB else mret tt);;
      g ← at_ output_gradients (i mod output_size_ net)%N;
      mret (w - learning_rate_ net * g)%Q)
    (range (size w1));
  mret {| weights_ := <[1%nat := w1']> (weights_ net);
          biases_ := biases_ net;
          input_size_ := input_size_ net;
          hidden_size_ := hidden_size_ net;
          output_size_ := output_size_ net;
          learning_rate_ := learning_rate_ net |}.

Definition train (net : QNetwork) (state target : list double)
  : result QNetwork :=
  prediction ← forward net state;
  (* Calculate loss (MSE); the value is not used *)
  loss ← foldM (fun loss i =>
      t ← at_ target i;
      p ← at_ prediction i;
      let error := (t - p)%Q in
      mret (loss + error * error)%Q) 0%Q (range (size prediction));
  let loss := (loss / double_of_size (size prediction))%Q in
  backward net state target.


(** ** State, Action, Experience *)

(** The field [reward] of [State] is named [state_reward] here: a record
    field name is global, and [Experience] has a [reward] too. *)
Record State : Type := mkState {
  features : list double;
  state_id : string;
  state_reward : double;
  terminal : bool
}.

Definition newState (feat : list double) (id : string) : State :=
  {| features := feat; state_id := id; state_reward := 0; terminal := false |}.

Record Action : Type := mkAction {
  action_id : string;
  parameters : list double;
  expected_reward : double
}.

Definition newAction (id : string) (params : list double) : Action :=
  {| action_id := id; parameters := params; expected_reward := 0 |}.

(** [timestamp] counts the ticks of the system clock. *)
Record Experience : Type := mkExperience {
  state : State;
  action : Action;
  reward : double;
  next_state : State;
  done : bool;
  timestamp : Z
}.

(** ** The random number engine and the distributions *)

Record mt19937 : Type := mkRng {
  tape : nat -> N;
  cursor : nat
}.

Definition draw (g : mt19937) : N * mt19937 :=
  (tape g (cursor g), {| tape := tape g; cursor := S (cursor g) |}).

(** [std::uniform_int_distribution<int>(a, b)(g)] *)
Definition uniform_int (a b : Z) (g : mt19937) : Z * mt19937 :=
  let '(r, g') := draw g in ((a + Z.of_N r mod (b - a + 1))%Z, g').

(** [std::uniform_int_distribution<size_t>(a, b)(g)] *)
Definition uniform_size (a b : N) (g : mt19937) : N * mt19937 :=
  let '(r, g') := draw g in ((a + r mod (b - a + 1))%N, g').

(** [std::uniform_real_distribution<double>(0.0, 1.0)(g)]: a value of
    the half-open interval [0, 1). *)
Definition uniform_real01 (g : mt19937) : Q * mt19937 :=
  let '(r, g') := draw g in
  (Z.of_N (r mod 2 ^ 53) # Pos.pow 2 53, g').

(** ** ReinforcementLearningEngine *)

(** The engine's own [learning_rate_] is named [engine_learning_rate_]:
    [QNetwork] has a field of the same name. *)
Record ReinforcementLearningEngine : Type := mkEngine {
  q_network_ : option QNetwork;
  target_network_ : option QNetwork;
  replay_buffer_ : list Experience;
  buffer_capacity_ : N;
  batch_size_ : N;
  epsilon_ : double;
  epsilon_decay_ : double;
  epsilon_min_ : double;
  gamma_ : double;
  engine_learning_rate_ : double;
  update_frequency_ : N;
  steps_since_update_ : N;
  total_steps_ : N;
  total_episodes_ : N;
  rng_ : mt19937
}.

Definition set_q_network_ (v : option QNetwork) (e : ReinforcementLearningEngine) :=
  mkEngine v (target_network_ e) (replay_buffer_ e) (buffer_capacity_ e)
    (batch_size_ e) (epsilon_ e) (epsilon_decay_ e) (epsilon_min_ e) (gamma_ e)
    (engine_learning_rate_ e) (update_frequency_ e) (steps_since_update_ e)
    (total_steps_ e) (total_episodes_ e) (rng_ e).

Definition set_target_network_ (v : option QNetwork) (e : ReinforcementLearningEngine) :=
  mkEngine (q_network_ e) v (replay_buffer_ e) (buffer_capacity_ e)
    (batch_size_ e) (epsilon_ e) (epsilon_decay_ e) (epsilon_min_ e) (gamma_ e)
    (engine_learning_rate_ e) (update_frequency_ e) (steps_since_update_ e)
    (total_steps_ e) (total_episodes_ e) (rng_ e).

Definition set_replay_buffer_ (v : list Experience) (e : ReinforcementLearningEngine) :=
  mkEngine (q_network_ e) (target_network_ e) v (buffer_capacity_ e)
    (batch_size_ e) (epsilon_ e) (epsilon_decay_ e) (epsilon_min_ e) (gamma_ e)
    (engine_learning_rate_ e) (update_frequency_ e) (steps_since_update_ e)
    (total_steps_ e) (total_episodes_ e) (rng_ e).

Definition set_epsilon_ (v : double) (e : ReinforcementLearningEngine) :=
  mkEngine (q_network_ e) (target_network_ e) (replay_buffer_ e)
    (buffer_capacity_ e) (batch_size_ e) v (epsilon_decay_ e) (epsilon_min_ e)
    (gamma_ e) (engine_learning_rate_ e) (update_frequency_ e)
    (steps_since_update_ e) (total_steps_ e) (total_episodes_ e) (rng_ e).

Definition set_steps_since_update_ (v : N) (e : ReinforcementLearningEngine) :=
  mkEngine (q_network_ e) (target_network_ e) (replay_buffer_ e)
    (buffer_capacity_ e) (batch_size_ e) (epsilon_ e) (epsilon_decay_ e)
    (epsilon_min_ e) (gamma_ e) (engine_learning_rate_ e) (update_frequency_ e)
    v (total_steps_ e) (total_episodes_ e) (rng_ e).

Definition set_total_steps_ (v : N) (e : ReinforcementLearningEngine) :=
  mkEngine (q_network_ e) (target_network_ e) (replay_buffer_ e)
    (buffer_capacity_ e) (batch_size_ e) (epsilon_ e) (epsilon_decay_ e)
    (epsilon_min_ e) (gamma_ e) (engine_learning_rate_ e) (update_frequency_ e)
    (steps_since_update_ e) v (total_episodes_ e) (rng_ e).

Definition set_total_episodes_ (v : N) (e : ReinforcementLearningEngine) :=
  mkEngine (q_network_ e) (target_network_ e) (replay_buffer_ e)
    (buffer_capacity_ e) (batch_size_ e) (epsilon_ e) (epsilon_decay_ e)
    (epsilon_min_ e) (gamma_ e) (engine_learning_rate_ e) (update_frequency_ e)
    (steps_since_update_ e) (total_steps_ e) v (rng_ e).

Definition set_rng_ (v : mt19937) (e : ReinforcementLearningEngine) :=
  mkEngine (q_network_ e) (target_network_ e) (replay_buffer_ e)
    (buffer_capacity_ e) (batch_size_ e) (epsilon_ e) (epsilon_decay_ e)
    (epsilon_min_ e) (gamma_ e) (engine_learning_rate_ e) (update_frequency_ e)
    (steps_since_update_ e) (total_steps_ e) (total_episodes_ e) v.

(** *** Outcomes of a method of the engine

    A method returns, or throws and leaves the engine as it was when the
    exception left it, or has undefined behaviour. *)

Inductive outcome (A : Type) : Type :=
| Returns (e : ReinforcementLearningEngine) (a : A)
| Throws (e : ReinforcementLearningEngine) (x : exn)
| Undefined.
Arguments Returns {A} e a.
Arguments Throws {A} e x.
Arguments Undefined {A}.

Definition M (A : Type) : Type := ReinforcementLearningEngine -> outcome A.

#[global] Instance M_ret : MRet M := fun A a e => Returns e a.
#[global] Instance M_bind : MBind M := fun A B k m e =>
  match m e with
  | Returns e' a => k a e'
  | Throws e' x => Throws e' x
  | Undefined => Undefined
  end.

Definition get : M ReinforcementLearningEngine := fun e => Returns e e.
Definition modify (f : ReinforcementLearningEngine -> ReinforcementLearningEngine)
  : M unit := fun e => Returns (f e) tt.

(** A computation that only reads, run inside a method. *)
Definition lift {A} (r : result A) : M A := fun e =>
  match r with
  | Value a => Returns e a
  | Raise x => Throws e x
  | UB => Undefined
  end.

(** [*p] for a [unique_ptr]. *)
Definition deref {A} (p : option A) : M A :=
  match p with
  | Some a => mret a
  | None => fun _ => Undefined
  end.

(** [dist(rng_)] *)
Definition random {A} (dist : mt19937 -> A * mt19937) : M A := fun e =>
  let '(a, g) := dist (rng_ e) in Returns (set_rng_ g e) a.

(** *** Construction

    [Entropy] is what the constructors take from [std::random_device]:
    the samples of the normal distributions of both networks and the
    raw draws [rng_] will produce. *)
Record Entropy : Type := mkEntropy {
  q_dist : N -> double;
  q_dist2 : N -> double;
  target_dist : N -> double;
  target_dist2 : N -> double;
  seed : nat -> N
}.

Definition newReinforcementLearningEngine (state_size action_size hidden_size : N)
    (learning_rate : double) (rd : Entropy) : ReinforcementLearningEngine :=
  {| q_network_ := Some (newQNetwork state_size hidden_size action_size
                           learning_rate (q_dist rd) (q_dist2 rd));
     target_network_ := Some (newQNetwork state_size hidden_size action_size
                                learning_rate (target_dist rd) (target_dist2 rd));
     replay_buffer_ := [];
     buffer_capacity_ := 10000;
     batch_size_ := 32;
     epsilon_ := 1;
     epsilon_decay_ := 0.995;
     epsilon_min_ := 0.01;
     gamma_ := 0.99;
     engine_learning_rate_ := learning_rate;
     update_frequency_ := 100;
     steps_since_update_ := 0;
     total_steps_ := 0;
     total_episodes_ := 0;
     rng_ := {| tape := seed rd; cursor := 0 |} |}.

(** *** Core functionality *)

Definition initialize : M bool :=
  e ← get;
  if negb (bool_decide (is_Some (q_network_ e)))
     || negb (bool_decide (is_Some (target_network_ e)))
  then mret false
  else
    (* Clear replay buffer *)
    modify (set_replay_buffer_ []);;
    (* Reset counters *)
    modify (set_total_steps_ 0);;
    modify (set_total_episodes_ 0);;
    modify (set_steps_since_update_ 0);;
    mret true.

Definition selectRandomAction : M Action :=
  action_idx ← random (uniform_int 0 3); (* 4 possible actions *)
  let params := [inject_Z action_idx] in
  mret (newAction ("action_" +:+ pretty action_idx) params).

Definition selectBestAction (state : State) : M Action :=
  e ← get;
  q ← deref (q_network_ e);
  q_values ← lift (predict q (features state));
  (* Find action with highest Q-value *)
  let max_it := max_element q_values in
  let best_action_idx := max_it in
  let params := [double_of_size best_action_idx] in
  let action := newAction ("action_" +:+ pretty best_action_idx) params in
  best ← lift (at_ q_values max_it);
  mret {| action_id := action_id action;
          parameters := parameters action;
          expected_reward := best |}.

Definition getAction (state : State) : M Action :=
  modify (fun e => set_total_steps_ (add_sz (total_steps_ e) 1) e);;
  (* Epsilon-greedy action selection *)
  u ← random uniform_real01;
  e ← get;
  if Qltb u (epsilon_ e) then selectRandomAction else selectBestAction state.

(** [now] is the reading of the system clock. *)
Definition storeExperience (state : State) (action : Action) (reward : double)
    (next_state : State) (done : bool) (now : Z) : M unit :=
  let experience :=
    {| state := state; action := action; reward := reward;
       next_state := next_state; done := done; timestamp := now |} in
  (* Add to replay buffer *)
  e ← get;
  (if (buffer_capacity_ e <=? size (replay_buffer_ e))%N
   then (* Remove oldest: erase(begin()) *)
     match replay_buffer_ e with
     | [] => fun _ => Undefined
     | _ :: rest => modify (set_replay_buffer_ rest)
     end
   else mret tt);;
  modify (fun e => set_replay_buffer_ (replay_buffer_ e ++ [experience]) e).

Definition sampleBatch : M (list N) :=
  e ← get;
  let dist := uniform_size 0 (sub_sz (size (replay_buffer_ e)) 1) in
  mapM (fun _ => random dist) (range (batch_size_ e)).

(** The body of the loop of [trainOnBatch], for one sampled index. *)
Definition trainOnBatch_body (idx : N) : M unit :=
  e ← get;
  experience ← lift (at_ (replay_buffer_ e) idx);
  (* Calculate target Q-value *)
  q ← deref (q_network_ e);
  current_q_values ← lift (predict q (features (state experience)));
  tn ← deref (target_network_ e);
  next_q_values ← lift (predict tn (features (next_state experience)));
  target_q ←
    (if done experience then mret (reward experience)
     else
       max_next_q ← lift (at_ next_q_values (max_element next_q_values));
       mret (reward experience + gamma_ e * max_next_q)%Q);
  (* Update Q-value for the taken action *)
  p0 ← lift (at_ (parameters (action experience)) 0);
  action_idx ← lift (size_of_double p0);
  let current_q_values :=
    if (action_idx <? size current_q_values)%N
    then <[N.to_nat action_idx := target_q]> current_q_values
    else current_q_values in
  (* Train network *)
  q' ← lift (train q (features (state experience)) current_q_values);
  modify (set_q_network_ (Some q')).

Definition trainOnBatch : M unit :=
  batch_indices ← sampleBatch;
  foldM (fun _ idx => trainOnBatch_body idx) tt batch_indices.

(** The source only prints a message here. *)
Definition updateTargetNetwork : M unit := mret tt.

Definition learn : M unit :=
  e ← get;
  if (size (replay_buffer_ e) <? batch_size_ e)%N
  then mret tt (* Not enough experiences to learn *)
  else
    trainOnBatch;;
    (* Update target network periodically *)
    modify (fun e => set_steps_since_update_ (add_sz (steps_since_update_ e) 1) e);;
    e ← get;
    (if (update_frequency_ e <=? steps_since_update_ e)%N
     then updateTargetNetwork;; modify (set_steps_since_update_ 0)
     else mret tt);;
    (* Decay exploration rate *)
    e ← get;
    if Qltb (epsilon_min_ e) (epsilon_ e)
    then modify (set_epsilon_ (epsilon_ e * epsilon_decay_ e)%Q)
    else mret tt.

(** *** Training control and monitoring *)

Definition startEpisode : M unit :=
  modify (fun e => set_total_episodes_ (add_sz (total_episodes_ e) 1) e).

Definition endEpisode (total_reward : double) : M unit := mret tt.

(** [std::clamp(v, lo, hi)] *)
Definition clamp (v lo hi : double) : double :=
  if Qltb v lo then lo else if Qltb hi v then hi else v.

Definition setExplorationRate (epsilon : double) : M unit :=
  modify (set_epsilon_ (clamp epsilon 0 1)).

Definition getAverageReward : M double :=
  e ← get;
  match replay_buffer_ e with
  | [] => mret 0%Q
  | _ =>
      let total_reward :=
        foldl (fun total experience => (total + reward experience)%Q) 0%Q
          (replay_buffer_ e) in
      mret (total_reward / double_of_size (size (replay_buffer_ e)))%Q
  end.

Definition getTotalSteps : M N := e ← get; mret (total_steps_ e).
Definition getTotalEpisodes : M N := e ← get; mret (total_episodes_ e).
Definition getCurrentExplorationRate : M double := e ← get; mret (epsilon_ e).

(** *** Safety and control, lifecycle *)

Definition emergencyStop : M unit :=
  (* Clear replay buffer for safety *)
  modify (set_replay_buffer_ []);;
  (* Reset exploration to maximum (safest state) *)
  modify (set_epsilon_ 1).

Definition resetLearning : M unit :=
  modify (set_replay_buffer_ []);;
  modify (set_total_steps_ 0);;
  modify (set_total_episodes_ 0);;
  modify (set_steps_since_update_ 0);;
  modify (set_epsilon_ 1). (* Reset exploration *)

Definition shutdown : M unit :=
  (* Clear resources *)
  modify (set_replay_buffer_ []);;
  modify (set_q_network_ None);;
  modify (set_target_network_ None).

(** ** Runs of the engine

    The public methods that the source defines, as calls.
    [pauseLearning], [resumeLearning], [saveModel] and [loadModel] are
    declared in the header and defined nowhere. *)

Inductive Call : Type :=
| CallInitialize
| CallGetAction (state : State)
| CallStoreExperience (state : State) (action : Action) (reward : double)
    (next_state : State) (done : bool) (now : Z)
| CallLearn
| CallStartEpisode
| CallEndEpisode (total_reward : double)
| CallSetExplorationRate (epsilon : double)
| CallGetAverageReward
| CallGetTotalSteps
| CallGetTotalEpisodes
| CallGetCurrentExplorationRate
| CallEmergencyStop
| CallResetLearning
| CallShutdown.

Definition ignore {A} (m : M A) : M unit := m;; mret tt.

Definition call (c : Call) : M unit :=
  match c with
  | CallInitialize => ignore initialize
  | CallGetAction s => ignore (getAction s)
  | CallStoreExperience s a r s' d now => storeExperience s a r s' d now
  | CallLearn => learn
  | CallStartEpisode => startEpisode
  | CallEndEpisode r => endEpisode r
  | CallSetExplorationRate x => setExplorationRate x
  | CallGetAverageReward => ignore getAverageReward
  | CallGetTotalSteps => ignore getTotalSteps
  | CallGetTotalEpisodes => ignore getTotalEpisodes
  | CallGetCurrentExplorationRate => ignore getCurrentExplorationRate
  | CallEmergencyStop => emergencyStop
  | CallResetLearning => resetLearning
  | CallShutdown => shutdown
  end.

(** The engine a call leaves behind, when it leaves one. *)
Definition engine_after {A} (o : outcome A) : option ReinforcementLearningEngine :=
  match o with
  | Returns e _ => Some e
  | Throws e _ => Some e
  | Undefined => None
  end.

(** The engines a caller can hold: a constructed one, and the one a
    call leaves, whether it returned or threw. *)
Inductive reachable : ReinforcementLearningEngine -> Prop :=
| reachable_new state_size action_size hidden_size learning_rate rd :
    reachable (newReinforcementLearningEngine state_size action_size
                 hidden_size learning_rate rd)
| reachable_call e c e' :
    reachable e -> engine_after (call c e) = Some e' -> reachable e'.

(** [n] calls in a row, stopping at the first that does not return. *)
Definition repeatM (n : nat) (m : M unit) : M unit :=
  foldM (fun _ _ => m) tt (seq 0 n).

Definition calls (cs : list Call) : M unit :=
  foldM (fun _ c => call c) tt cs.

(** ** Well-formed networks

    What the constructor establishes when the products of the sizes fit
    a [size_t], and what training keeps. *)
Definition wf_network (net : QNetwork) : bool :=
  match weights_ net with
  | [w0; w1] =>
      (input_size_ net * hidden_size_ net <? SIZE_MODULUS)%N
      && (hidden_size_ net * output_size_ net <? SIZE_MODULUS)%N
      && (hidden_size_ net + output_size_ net <? SIZE_MODULUS)%N
      && (size w0 =? input_size_ net * hidden_size_ net)%N
      && (size w1 =? hidden_size_ net * output_size_ net)%N
      && (size (biases_ net) =? hidden_size_ net + output_size_ net)%N
  | _ => false
  end.

(** What training never writes: everything but [weights_[1]]. *)
Definition frozen (net : QNetwork)
  : option (list double) * list double * N * N * N * double :=
  (weights_ net !! 0%nat, biases_ net, input_size_ net, hidden_size_ net,
   output_size_ net, learning_rate_ net).

(** ** Footprints

    [stays R m]: whenever [m] leaves an engine behind, returning or
    throwing, that engine is [R]-related to the one [m] started from. *)
Definition stays {A} (R : relation ReinforcementLearningEngine) (m : M A) : Prop :=
  forall e,
    match engine_after (m e) with
    | Some e' => R e e'
    | None => True
    end.

(** Only [q_network_] and [rng_] differ. *)
Definition trained_only (e e' : ReinforcementLearningEngine) : Prop :=
  e' = set_rng_ (rng_ e') (set_q_network_ (q_network_ e') e).

(** Only [total_steps_] and [rng_] differ. *)
Definition stepped_only (e e' : ReinforcementLearningEngine) : Prop :=
  e' = set_rng_ (rng_ e') (set_total_steps_ (total_steps_ e') e).

(** The tail of [learn], after [trainOnBatch]: the target
    synchronisation counter and the decay of the exploration rate. *)
Definition sync_counter (e : ReinforcementLearningEngine) : ReinforcementLearningEngine :=
  let e1 := set_steps_since_update_ (add_sz (steps_since_update_ e) 1) e in
  if (update_frequency_ e1 <=? steps_since_update_ e1)%N
  then set_steps_since_update_ 0 e1
  else e1.

Definition decay_epsilon (e : ReinforcementLearningEngine) : ReinforcementLearningEngine :=
  if Qltb (epsilon_min_ e) (epsilon_ e)
  then set_epsilon_ (epsilon_ e * epsilon_decay_ e)%Q e
  else e.

Definition bookkeeping (e : ReinforcementLearningEngine) : ReinforcementLearningEngine :=
  decay_epsilon (sync_counter e).

(** ** Engines that can train

    [trainable q tn x]: the stored transition [x] fits the live network
    [q] and the target network [tn]: the feature vectors have the input
    width, the action carries an index, and the target network has an
    output to take the maximum of when [x] is not terminal. *)
Definition trainable (q tn : QNetwork) (x : Experience) : bool :=
  (size (features (state x)) =? input_size_ q)%N
  && (size (features (next_state x)) =? input_size_ tn)%N
  && (done x || negb (output_size_ tn =? 0)%N)
  && match parameters (action x) with
     | p0 :: _ => match size_of_double p0 with Value _ => true | _ => false end
     | [] => false
     end.

Definition ready (e : ReinforcementLearningEngine) : bool :=
  match q_network_ e, target_network_ e with
  | Some q, Some tn =>
      wf_network q && wf_network tn
      && forallb (trainable q tn) (replay_buffer_ e)
      && (0 <? size (replay_buffer_ e))%N
      && (size (replay_buffer_ e) <? SIZE_MODULUS)%N
  | _, _ => false
  end.

(** [trained e e']: [e'] is [e] with the live network trained and
    random numbers drawn, nothing else. *)
Definition trained (e e' : ReinforcementLearningEngine) : Prop :=
  exists q q' g,
    q_network_ e = Some q /\ wf_network q' = true /\ frozen q' = frozen q
    /\ e' = set_rng_ g (set_q_network_ (Some q') e).

(** ** The invariant of the engine

    The configuration the constructor fixes, the bound of the replay
    buffer and the range of the exploration rate. *)
Definition configured (e : ReinforcementLearningEngine) : Prop :=
  buffer_capacity_ e = 10000%N /\ batch_size_ e = 32%N
  /\ epsilon_decay_ e = 0.995%Q /\ epsilon_min_ e = 0.01%Q
  /\ gamma_ e = 0.99%Q /\ update_frequency_ e = 100%N.

Definition invariant (e : ReinforcementLearningEngine) : Prop :=
  configured e
  /\ (size (replay_buffer_ e) <= buffer_capacity_ e)%N
  /\ (0 <= epsilon_ e <= 1)%Q.

(** ** Sequences of stores

    A call of [storeExperience] is determined by the transition it
    stores. *)
Definition store_call (x : Experience) : Call :=
  CallStoreExperience (state x) (action x) (reward x) (next_state x) (done x)
    (timestamp x).

(** The last [c] elements of [l], all of [l] when it has fewer. *)
Definition most_recent {A} (c : N) (l : list A) : list A :=
  drop (length l - N.to_nat c) l.

(** ** The engine of the test suite

    [ReinforcementLearningEngine(4, 2, 64, 0.01)], the state, the action
    and the transition of [ExperienceStorageTest]; the entropy is one
    choice among all. *)
Definition fixture_entropy : Entropy :=
  {| q_dist := fun i => Z.of_N i # 100;
     q_dist2 := fun i => - Z.of_N i # 100;
     target_dist := fun i => (Z.of_N i + 1) # 100;
     target_dist2 := fun i => 1 # 7;
     seed := fun k => (N.of_nat k + 2)%N |}.

Definition fixture : ReinforcementLearningEngine :=
  newReinforcementLearningEngine 4 2 64 0.01 fixture_entropy.

Definition fixture_state : State := newState [0.5; 0.3; 0.8; 0.2]%Q "state1".

Definition fixture_experience : Experience :=
  {| state := fixture_state;
     action := newAction "test_action" [1%Q];
     reward := 0.5;
     next_state := newState [0.5; 0.3; 0.8; 0.2]%Q "state2";
     done := false;
     timestamp := 0 |}.

(** The fixture with one full batch stored. *)
Definition fixture_full : ReinforcementLearningEngine :=
  set_replay_buffer_ (replicate 32 fixture_experience) fixture.

(** ** Calls after an emergency stop

    A sequence of calls of [storeExperience] and [learn]: [Some x]
    stores the transition [x], [None] is a call of [learn]. *)
Definition store_or_learn (c : option Experience) : Call :=
  match c with
  | Some x => store_call x
  | None => CallLearn
  end.

(** ** Further footprints *)

(** Only [rng_] differs. *)
Definition rng_only (e e' : ReinforcementLearningEngine) : Prop :=
  e' = set_rng_ (rng_ e') e.

(** The engine [getAction] works on after it has counted the step. *)
Definition step_counted (e : ReinforcementLearningEngine) : ReinforcementLearningEngine :=
  set_total_steps_ (add_sz (total_steps_ e) 1) e.
(** [networks_kept e e']: from [e] to [e'] the target network was not
    written (it is the same, or it has been dropped), and the live
    network, when [e'] has one, is the one of [e] up to its
    hidden-to-output weights. *)
Definition networks_kept (e e' : ReinforcementLearningEngine) : Prop :=
  (target_network_ e' = target_network_ e \/ target_network_ e' = None)
  /\ match q_network_ e' with
     | None => True
     | Some q' => exists q, q_network_ e = Some q /\ frozen q' = frozen q
     end.
(** ** Counting calls *)

(** The calls that reset the counters. *)
Definition resets_counters (c : Call) : bool :=
  match c with
  | CallInitialize | CallResetLearning => true
  | _ => false
  end.

Definition is_getAction (c : Call) : bool :=
  match c with CallGetAction _ => true | _ => false end.

Definition is_startEpisode (c : Call) : bool :=
  match c with CallStartEpisode => true | _ => false end.

(** [count p cs]: how many calls of [cs] satisfy [p]. *)
Definition count (p : Call -> bool) (cs : list Call) : N :=
  size (filter (fun c => p c = true) cs).

(** The counters are [size_t] values, and the counter of steps since
    the last update is below the update frequency. *)
Definition counters_in_range (e : ReinforcementLearningEngine) : Prop :=
  (total_steps_ e < SIZE_MODULUS)%N
  /\ (total_episodes_ e < SIZE_MODULUS)%N
  /\ (steps_since_update_ e < update_frequency_ e)%N.

(** [total_steps_] and [total_episodes_] are the same. *)
Definition same_counts (e e' : ReinforcementLearningEngine) : Prop :=
  total_steps_ e' = total_steps_ e /\ total_episodes_ e' = total_episodes_ e.
(** ** Utility functions for state and action processing *)

(** [std::minmax_element]: the positions of the first smallest and of
    the last greatest element, twice the end position on an empty
    vector. *)
Fixpoint minmax_element_from (min_pos : N) (min_val : Q) (max_pos : N)
    (max_val : Q) (first : N) (rest : list Q) : N * N :=
  match rest with
  | [] => (min_pos, max_pos)
  | x :: rest' =>
      if Qltb x min_val
      then minmax_element_from first x max_pos max_val (first + 1)%N rest'
      else if negb (Qltb x max_val)
      then minmax_element_from min_pos min_val first x (first + 1)%N rest'
      else minmax_element_from min_pos min_val max_pos max_val (first + 1)%N rest'
  end.

Definition minmax_element (v : list Q) : N * N :=
  match v with
  | [] => (0%N, 0%N)
  | x :: rest => minmax_element_from 0%N x 0%N x 1%N rest
  end.

(** The doubles whose differences cannot overflow: those of magnitude
    at most 2^1022.  On them [max_val - min_val] is finite in binary64,
    as it always is in the rationals. *)
Definition difference_fits (x : double) : Prop :=
  (- inject_Z (2 ^ 1022) <= x <= inject_Z (2 ^ 1022))%Q.

Definition normalizeFeatures (features : list double) : result (list double) :=
  let normalized := features in
  (* Min-max normalization *)
  let minmax := minmax_element features in
  min_val ← at_ features minmax.1;
  max_val ← at_ features minmax.2;
  if Qltb min_val max_val
  then mret ((fun feature => (feature - min_val) / (max_val - min_val))%Q
               <$> normalized)
  else mret normalized.

(** [sensor_data] lists the entries of the [std::unordered_map] in the
    order its iteration visits them; [now_ms] is the reading of the
    system clock in milliseconds. *)
Definition createStateFromSensorData (sensor_data : list (string * double))
    (now_ms : Z) : result State :=
  let state_id := "state_" +:+ pretty now_ms in
  (* Convert sensor data to feature vector *)
  let features := snd <$> sensor_data in
  (* Normalize features *)
  features ← normalizeFeatures features;
  mret (newState features state_id).

Definition generatePossibleActions (current_state : State) : list Action :=
  [ newAction "explore" [0%Q];
    newAction "exploit" [1%Q];
    newAction "learn" [2%Q];
    newAction "adapt" [3%Q] ].
(** ** CPPPolicyEngine ([policy_engine.cpp])

    [std::unordered_map] is a finite map.  The order in which it is
    iterated is unspecified: the model iterates in the order of
    [map_to_list], and the properties proved are those that hold for
    every order.  A [unique_ptr<Policy>] stored in the map is never
    null.  [removePolicy], [activatePolicy] and [deactivatePolicy] are
    declared in the header and defined nowhere. *)
Module CPPPolicyEngine.

Inductive PolicyLevel : Type := CRITICAL | HIGH | MEDIUM | LOW.

#[global] Instance PolicyLevel_eq_dec : EqDecision PolicyLevel.
Proof. solve_decision. Defined.

Record Policy : Type := mkPolicy {
  id : string;
  name : string;
  description : string;
  level : PolicyLevel;
  rules : gmap string string;
  active : bool
}.

Definition newPolicy (id name desc : string) (lvl : PolicyLevel) : Policy :=
  {| id := id; name := name; description := desc; level := lvl;
     rules := ∅; active := true |}.

(** The field [description] of [PolicyViolation] is named
    [violation_description] here: [Policy] has a [description] too. *)
Record PolicyViolation : Type := mkPolicyViolation {
  timestamp : Z;
  policy_id : string;
  violation_type : string;
  severity : PolicyLevel;
  violation_description : string
}.

Record t : Type := mkPolicyEngine {
  policies_ : gmap string Policy;
  violations_ : list PolicyViolation;
  enforcement_active_ : bool
}.

Definition new : t :=
  {| policies_ := ∅; violations_ := []; enforcement_active_ := true |}.

Definition set_rules (r : gmap string string) (p : Policy) : Policy :=
  mkPolicy (id p) (name p) (description p) (level p) r (active p).

Definition set_active (b : bool) (p : Policy) : Policy :=
  mkPolicy (id p) (name p) (description p) (level p) (rules p) b.

Definition loadCorePolicies (pe : t) : t :=
  (* Critical safety policy *)
  let safety_policy :=
    newPolicy "cpp_safety_001" "C++ Safety Protocol"
      "High-performance safety constraints for real-time operations" CRITICAL in
  let safety_policy :=
    set_rules (<["memory_bounds_check" := "true"]>
               (<["immediate_shutdown" := "true"]>
                (<["real_time_monitoring" := "true"]> (rules safety_policy))))
      safety_policy in
  (* Performance policy *)
  let performance_policy :=
    newPolicy "cpp_performance_001" "Performance Optimization"
      "Ensure optimal performance for learning operations" HIGH in
  let performance_policy :=
    set_rules (<["thread_pool_limit" := "8"]>
               (<["max_memory_usage" := "85"]>
                (<["max_cpu_usage" := "90"]> (rules performance_policy))))
      performance_policy in
  (* Learning ethics policy *)
  let ethics_policy :=
    newPolicy "cpp_ethics_001" "Learning Ethics Protocol"
      "Ethical constraints for reinforcement learning" HIGH in
  let ethics_policy :=
    set_rules (<["human_oversight" := "required"]>
               (<["bias_prevention" := "true"]>
                (<["no_harmful_learning" := "true"]> (rules ethics_policy))))
      ethics_policy in
  {| policies_ :=
       <[id ethics_policy := ethics_policy]>
         (<[id performance_policy := performance_policy]>
            (<[id safety_policy := safety_policy]> (policies_ pe)));
     violations_ := violations_ pe;
     enforcement_active_ := enforcement_active_ pe |}.

Definition initialize (pe : t) : t * bool :=
  let pe := loadCorePolicies pe in
  ({| policies_ := policies_ pe; violations_ := violations_ pe;
      enforcement_active_ := true |}, true).

Definition checkPolicyCompliance (policy : Policy) (operation_type : string) : bool :=
  if String.eqb (id policy) "cpp_safety_001" then
    if String.eqb operation_type "memory_allocation"
       || String.eqb operation_type "thread_creation"
    then true (* Simplified for demo *)
    else true
  else if String.eqb (id policy) "cpp_performance_001" then
    if String.eqb operation_type "learning_iteration"
       || String.eqb operation_type "neural_network_training"
    then true (* Simplified for demo *)
    else true
  else if String.eqb (id policy) "cpp_ethics_001" then
    if String.eqb operation_type "reinforcement_learning"
       || String.eqb operation_type "behavior_modification"
    then true (* Simplified for demo *)
    else true
  else true.

(** The loop returns false at the first active policy that is not
    complied with. *)
Fixpoint canExecuteOperation_loop (policies : list (string * Policy))
    (operation_type : string) : bool :=
  match policies with
  | [] => true
  | (policy_id, policy) :: rest =>
      if negb (active policy) then canExecuteOperation_loop rest operation_type
      else if negb (checkPolicyCompliance policy operation_type) then false
      else canExecuteOperation_loop rest operation_type
  end.

Definition canExecuteOperation (pe : t) (operation_type : string) : bool :=
  if negb (enforcement_active_ pe) then true
  else canExecuteOperation_loop (map_to_list (policies_ pe)) operation_type.

(** [now] is the reading of the system clock. *)
Definition reportViolation (policy_id violation_type : string)
    (severity : PolicyLevel) (description : string) (now : Z) (pe : t) : t :=
  let violation :=
    {| timestamp := now; policy_id := policy_id;
       violation_type := violation_type; severity := severity;
       violation_description := description |} in
  {| policies_ := policies_ pe;
     violations_ := violations_ pe ++ [violation];
     enforcement_active_ := enforcement_active_ pe |}.

(** [policy] is the [unique_ptr] the caller passes: [None] is null, and
    reading its [id] is then undefined behaviour, the outcome [None]. *)
Definition addPolicy (policy : option Policy) (pe : t) : option (t * bool) :=
  match policy with
  | None => None
  | Some policy =>
      match policies_ pe !! id policy with
      | Some _ => Some (pe, false)
      | None =>
          let policy_id := id policy in
          Some ({| policies_ := <[policy_id := policy]> (policies_ pe);
                   violations_ := violations_ pe;
                   enforcement_active_ := enforcement_active_ pe |}, true)
      end
  end.

Definition emergencyLockdown (pe : t) : t :=
  (* Disable all non-critical policies *)
  {| policies_ :=
       (fun policy =>
          if bool_decide (level policy <> CRITICAL)
          then set_active false policy else policy) <$> policies_ pe;
     violations_ := violations_ pe;
     enforcement_active_ := true |}.

Definition getActivePolicyCount (pe : t) : N :=
  size (filter (fun pair => active pair.2 = true) (map_to_list (policies_ pe))).

Definition getViolationCount (pe : t) : N := size (violations_ pe).

Definition getActivePolicyIds (pe : t) : list string :=
  foldl (fun active_ids pair =>
           if active pair.2 then active_ids ++ [pair.1] else active_ids)
    [] (map_to_list (policies_ pe)).

Definition isEnforcementActive (pe : t) : bool := enforcement_active_ pe.

Definition enableEnforcement (pe : t) : t :=
  {| policies_ := policies_ pe; violations_ := violations_ pe;
     enforcement_active_ := true |}.

Definition disableEnforcement (pe : t) : t :=
  {| policies_ := policies_ pe; violations_ := violations_ pe;
     enforcement_active_ := false |}.

Definition shutdown (pe : t) : t :=
  {| policies_ := ∅; violations_ := []; enforcement_active_ := false |}.

End CPPPolicyEngine.
(** ** EVACPPCore ([main.cpp])

    The constructor fills both [unique_ptr]s, so neither engine is ever
    null.  [start] loops until a signal handler or [emergencyStop]
    clears a flag: the loop is modelled by the cycles it makes, one for
    each [Environment], which is what a cycle takes from outside.
    Sleeping is not modelled. *)

Definition what (x : exn) : string :=
  match x with invalid_argument w => w end.

Module EVACPPCore.

Record t : Type := mkCore {
  policy_engine_ : CPPPolicyEngine.t;
  rl_engine_ : ReinforcementLearningEngine;
  running_ : bool
}.

Definition set_policy_engine_ (pe : CPPPolicyEngine.t) (core : t) : t :=
  mkCore pe (rl_engine_ core) (running_ core).

Definition set_rl_engine_ (e : ReinforcementLearningEngine) (core : t) : t :=
  mkCore (policy_engine_ core) e (running_ core).

Definition set_running_ (b : bool) (core : t) : t :=
  mkCore (policy_engine_ core) (rl_engine_ core) b.

Definition new (rd : Entropy) : t :=
  {| policy_engine_ := CPPPolicyEngine.new;
     rl_engine_ := newReinforcementLearningEngine 10 4 128 0.001 rd;
     running_ := false |}.

(** Calls on [rl_engine_]: the core that is left, and how the calls
    ended. *)
Definition run {A} (m : M A) (core : t) : t * result A :=
  match m (rl_engine_ core) with
  | Returns e a => (set_rl_engine_ e core, Value a)
  | Throws e x => (set_rl_engine_ e core, Raise x)
  | Undefined => (core, UB)
  end.

Definition initialize (core : t) : t * result bool :=
  let '(pe, ok) := CPPPolicyEngine.initialize (policy_engine_ core) in
  let core := set_policy_engine_ pe core in
  if negb ok then (core, Value false)
  else
    match run initialize core with
    | (core, Value ok) => (core, Value (if negb ok then false else true))
    | failed => failed
    end.

(** The order in which the [unordered_map] of sensor data is iterated,
    and the readings of the system clock. *)
Record Environment : Type := mkEnvironment {
  visit : list (string * double) -> list (string * double);
  state_time : Z;
  store_time : Z;
  report_time : Z
}.

Definition sensor_data (cycle_count : N) : gmap string double :=
  list_to_map
    [ ("cpu_usage", 45.2 + double_of_size (cycle_count mod 10));
      ("memory_usage", 67.8 + double_of_size (cycle_count mod 5));
      ("network_activity", 23.1 + double_of_size (cycle_count mod 15));
      ("user_interaction_rate", 12.5 + double_of_size (cycle_count mod 8)) ]%Q.

Definition simulateActionExecution (action : Action)
    (sensor_data : gmap string double) : double :=
  (* Simulate reward based on action and current state *)
  let base_reward := 0.1%Q in
  (* Reward based on action type *)
  let base_reward :=
    if String.eqb (action_id action) "action_0" then (base_reward + 0.2)%Q
    else if String.eqb (action_id action) "action_1" then (base_reward + 0.3)%Q
    else if String.eqb (action_id action) "action_2" then (base_reward + 0.4)%Q
    else if String.eqb (action_id action) "action_3" then (base_reward + 0.5)%Q
    else base_reward in
  (* Penalty for high resource usage *)
  match sensor_data !! "cpu_usage" with
  | Some cpu => if Qltb 80 cpu then (base_reward - 0.2)%Q else base_reward
  | None => base_reward
  end.

(** The body of the [try] block of one cycle. *)
Definition evolution_step (env : Environment) (cycle_count : N) (core : t) :
    t * result unit :=
  (* Perception phase - gather simulated sensor data *)
  let sensor_data := sensor_data cycle_count in
  (* Create state from sensor data *)
  match createStateFromSensorData (visit env (map_to_list sensor_data))
          (state_time env) with
  | Value current_state =>
      (* Policy check before action *)
      if negb (CPPPolicyEngine.canExecuteOperation (policy_engine_ core)
                 "reinforcement_learning")
      then (core, Value tt)
      else
        run ((* Get action from RL engine *)
             action ← getAction current_state;
             (* Simulate action execution and reward *)
             let reward := simulateActionExecution action sensor_data in
             (* Create next state (simplified) *)
             let next_state :=
               {| features := features current_state;
                  state_id := state_id current_state;
                  state_reward := reward;
                  terminal := terminal current_state |} in
             (* Store experience *)
             storeExperience current_state action reward next_state false
               (store_time env);;
             (* Learn from experience *)
             learn) core
  | Raise x => (core, Raise x)
  | UB => (core, UB)
  end.

(** One cycle: an exception of the body is caught and reported as a
    violation.  [None] is undefined behaviour. *)
Definition evolution_cycle (env : Environment) (cycle_count : N) (core : t) :
    option t :=
  match evolution_step env cycle_count core with
  | (core, Value _) => Some core
  | (core, Raise e) =>
      (* Report policy violation *)
      Some (set_policy_engine_
              (CPPPolicyEngine.reportViolation "cpp_safety_001"
                 "evolution_cycle_error" CPPPolicyEngine.HIGH (what e)
                 (report_time env) (policy_engine_ core))
              core)
  | (_, UB) => None
  end.

(** The main evolution loop.  It returns the count of cycles with the
    core. *)
Fixpoint start_loop (envs : list Environment) (cycle_count : N) (core : t) :
    option (N * t) :=
  match envs with
  | [] => Some (cycle_count, core)
  | env :: envs =>
      let cycle_count := add_sz cycle_count 1 in
      match evolution_cycle env cycle_count core with
      | Some core => start_loop envs cycle_count core
      | None => None
      end
  end.

Definition start (envs : list Environment) (core : t) : option (N * t) :=
  start_loop envs 0 (set_running_ true core).

Definition emergencyStop (core : t) : t * result unit :=
  let core := set_running_ false core in
  match run emergencyStop core with
  | (core, Value _) =>
      (set_policy_engine_ (CPPPolicyEngine.emergencyLockdown (policy_engine_ core))
         core, Value tt)
  | failed => failed
  end.

Definition shutdown (core : t) : t * result unit :=
  let core := set_running_ false core in
  match run shutdown core with
  | (core, Value _) =>
      (set_policy_engine_ (CPPPolicyEngine.shutdown (policy_engine_ core)) core,
       Value tt)
  | failed => failed
  end.

End EVACPPCore.
(** *** What the cycles keep

    The engine of [EVACPPCore] is constructed for states of ten
    features, and a cycle makes a state of one feature for each of the
    four sensors.  [cycling q core]: the live network is [q], which
    takes ten inputs; the engine still explores always; the replay
    buffer holds states of four features only, with rewards the
    simulation gives. *)
Definition cycling (q : QNetwork) (core : EVACPPCore.t) : Prop :=
  let e := EVACPPCore.rl_engine_ core in
  q_network_ e = Some q /\ input_size_ q = 10%N
  /\ epsilon_ e = 1%Q /\ batch_size_ e = 32%N /\ buffer_capacity_ e = 10000%N
  /\ (size (replay_buffer_ e) <= 10000)%N
  /\ Forall (fun x => size (features (state x)) = 4%N
                      /\ (0.3 <= reward x <= 0.6)%Q) (replay_buffer_ e).

(** The violation a cycle reports when [learn] has thrown. *)
Definition cycle_error (v : CPPPolicyEngine.PolicyViolation) : Prop :=
  CPPPolicyEngine.policy_id v = "cpp_safety_001"
  /\ CPPPolicyEngine.violation_type v = "evolution_cycle_error"
  /\ CPPPolicyEngine.severity v = CPPPolicyEngine.HIGH
  /\ CPPPolicyEngine.violation_description v = "Input size mismatch".

(** The engine of [EVACPPCore] with a batch of the transition of the
    fixture stored: states of four features for a network of ten
    inputs. *)
Definition core_engine_full : ReinforcementLearningEngine :=
  set_replay_buffer_ (replicate 32 fixture_experience)
    (EVACPPCore.rl_engine_ (EVACPPCore.new fixture_entropy)).
(** ** Runs in which the caller catches what is thrown *)

Definition is_storeExperience (c : Call) : bool :=
  match c with CallStoreExperience _ _ _ _ _ _ => true | _ => false end.

(** The engine a caller holds after the calls [cs], each made on the
    engine the call before it left, whether that call returned or
    threw.  [None]: a call had undefined behaviour. *)
Fixpoint engine_after_calls (cs : list Call) (e : ReinforcementLearningEngine)
  : option ReinforcementLearningEngine :=
  match cs with
  | [] => Some e
  | c :: cs =>
      match engine_after (call c e) with
      | Some e' => engine_after_calls cs e'
      | None => None
      end
  end.

(** From [e] to [e'] the batch size is kept and at most [n] transitions
    have been added to the replay buffer. *)
Definition stored_at_most (n : N) (e e' : ReinforcementLearningEngine) : Prop :=
  batch_size_ e' = batch_size_ e
  /\ (size (replay_buffer_ e') <= size (replay_buffer_ e) + n)%N.
(** ** The training target, as the specification states it

    [blended_target gamma x cur next target]: with [cur] the live
    network's prediction for the state of the transition [x] and [next]
    the target network's prediction for its next state, [target] is
    [cur] except that the component at the action index of [x] is the
    target value: the reward of [x] when [x] is terminal, and the reward
    plus [gamma] times a greatest element of [next] otherwise. *)
Definition blended_target (gamma : double) (x : Experience)
    (cur next target : list double) : Prop :=
  exists (p0 : double) (a : N) (target_q : double),
    parameters (action x) !! 0%nat = Some p0
    /\ size_of_double p0 = Value a
    /\ (if done x then target_q = reward x
        else exists m, m ∈ next /\ (forall y, y ∈ next -> (y <= m)%Q)
                       /\ target_q = (reward x + gamma * m)%Q)
    /\ length target = length cur
    /\ (forall j, j <> N.to_nat a -> target !! j = cur !! j)
    /\ ((a < size cur)%N -> target !! N.to_nat a = Some target_q).

(** [train_step gamma tn x q q']: training the live network [q] on the
    transition [x] toward its blended target gives [q']. *)
Definition train_step (gamma : double) (tn : QNetwork) (x : Experience)
    (q q' : QNetwork) : Prop :=
  exists cur next target,
    predict q (features (state x)) = Value cur
    /\ predict tn (features (next_state x)) = Value next
    /\ blended_target gamma x cur next target
    /\ train q (features (state x)) target = Value q'.

(** [batch_trained gamma tn buf idxs q q']: [q'] is the live network [q]
    after one [train_step] for each of the sampled positions [idxs] of
    the replay buffer [buf], in the order they were sampled. *)
Inductive batch_trained (gamma : double) (tn : QNetwork) (buf : list Experience)
  : list N -> QNetwork -> QNetwork -> Prop :=
| batch_trained_nil q : batch_trained gamma tn buf [] q q
| batch_trained_cons idx idxs x q q' q'' :
    at_ buf idx = Value x ->
    train_step gamma tn x q q' ->
    batch_trained gamma tn buf idxs q' q'' ->
    batch_trained gamma tn buf (idx :: idxs) q q''.
(** ** setExplorationRate on binary64

    [double] is modelled by the rationals, and a rational is a number.
    The argument of [setExplorationRate] is whatever the caller passes,
    a NaN or an infinity as well.  For this method the values of
    binary64 are therefore modelled as they are, by [spec_float], the
    IEEE 754 values of the Standard Library, with its comparisons:
    [SFltb] is [<] on [double] and [SFleb] is [<=], both false when an
    operand is a NaN. *)

Definition zero_binary64 : spec_float := S754_zero false.

(** 1.0, which is 2^52 * 2^-52. *)
Definition one_binary64 : spec_float := S754_finite false 4503599627370496 (-52).

(** [std::clamp(v, lo, hi)] on [double]:
    [(v < lo) ? lo : (hi < v) ? hi : v]. *)
Definition clamp_binary64 (v lo hi : spec_float) : spec_float :=
  if SFltb v lo then lo else if SFltb hi v then hi else v.

(** The value [setExplorationRate] stores in [epsilon_]. *)
Definition setExplorationRate_binary64 (epsilon : spec_float) : spec_float :=
  clamp_binary64 epsilon zero_binary64 one_binary64.

(** [0.0 <= x && x <= 1.0] *)
Definition in_unit_interval_binary64 (x : spec_float) : bool :=
  SFleb zero_binary64 x && SFleb x one_binary64.

(** * Properties *)

(** ** Numbers and vectors *)

Lemma Qltb_lt (a b : Q) : Qltb a b = true <-> (a < b)%Q.
Proof. unfold Qltb, Qlt. apply Z.ltb_lt. Qed.

Lemma Qltb_ge (a b : Q) : Qltb a b = false <-> (b <= a)%Q.
Proof. unfold Qltb, Qle. rewrite Z.ltb_ge. reflexivity. Qed.

Lemma size_app {A} (v w : list A) : size (v ++ w) = (size v + size w)%N.
Proof. unfold size. rewrite length_app. lia. Qed.

Lemma at_Value {A} (v : list A) (i : N) :
  (i < size v)%N -> exists x, at_ v i = Value x.
Proof.
  unfold at_, size. intros Hi.
  destruct (lookup_lt_is_Some_2 v (N.to_nat i)) as [x Hx]; [lia|].
  exists x. by rewrite Hx.
Qed.

Lemma at_lookup {A} (v : list A) (i : N) (x : A) :
  at_ v i = Value x <-> v !! N.to_nat i = Some x.
Proof.
  unfold at_. destruct (v !! N.to_nat i); split; intros H; congruence.
Qed.

Lemma length_range (n : N) : length (range n) = N.to_nat n.
Proof. unfold range. by rewrite length_fmap, length_seq. Qed.

Lemma size_range (n : N) : size (range n) = n.
Proof. unfold size. rewrite length_range. lia. Qed.

Lemma elem_of_range (i n : N) : i ∈ range n <-> (i < n)%N.
Proof.
  unfold range. rewrite list_elem_of_fmap. split.
  - intros (k & -> & Hk). apply elem_of_seq in Hk. lia.
  - intros Hi. exists (N.to_nat i). split; [lia|]. apply elem_of_seq. lia.
Qed.

Lemma add_sz_small (a b : N) : (a + b < SIZE_MODULUS)%N -> add_sz a b = (a + b)%N.
Proof. intros. unfold add_sz. by apply N.mod_small. Qed.

Lemma mul_sz_small (a b : N) : (a * b < SIZE_MODULUS)%N -> mul_sz a b = (a * b)%N.
Proof. intros. unfold mul_sz. by apply N.mod_small. Qed.

(** The index of a matrix entry stays inside the matrix. *)
Lemma index_sz (i h rows cols : N) :
  (i < rows)%N -> (h < cols)%N -> (rows * cols < SIZE_MODULUS)%N ->
  add_sz (mul_sz i cols) h = (i * cols + h)%N /\ (i * cols + h < rows * cols)%N.
Proof.
  intros Hi Hh Hfit.
  assert (i * cols + h < rows * cols)%N by nia.
  split; [|done].
  rewrite mul_sz_small by nia. apply add_sz_small. lia.
Qed.

(** ** Loops that cannot fail *)

Lemma mapM_Value {A B} (f : A -> result B) (l : list A) :
  (forall x, x ∈ l -> exists y, f x = Value y) ->
  exists ys, mapM f l = Value ys /\ length ys = length l.
Proof.
  induction l as [|x l IH]; intros Hf.
  - by exists [].
  - destruct (Hf x) as [y Hy]; [left|].
    destruct IH as (ys & Hys & Hlen).
    { intros z Hz. apply Hf. by right. }
    exists (y :: ys). split; [|simpl; congruence].
    cbn. rewrite Hy. cbn. rewrite Hys. done.
Qed.

Lemma foldM_Value {A B} (f : A -> B -> result A) (l : list B) (a : A) :
  (forall a x, x ∈ l -> exists a', f a x = Value a') ->
  exists a', foldM f a l = Value a'.
Proof.
  revert a. induction l as [|x l IH]; intros a Hf.
  - by exists a.
  - destruct (Hf a x) as [a' Ha']; [left|].
    destruct (IH a') as (r & Hr).
    { intros b z Hz. apply Hf. by right. }
    exists r. cbn. rewrite Ha'. exact Hr.
Qed.

(** ** QNetwork *)

Lemma wf_network_inv (net : QNetwork) :
  wf_network net = true ->
  exists w0 w1,
    weights_ net = [w0; w1]
    /\ (input_size_ net * hidden_size_ net < SIZE_MODULUS)%N
    /\ (hidden_size_ net * output_size_ net < SIZE_MODULUS)%N
    /\ (hidden_size_ net + output_size_ net < SIZE_MODULUS)%N
    /\ size w0 = (input_size_ net * hidden_size_ net)%N
    /\ size w1 = (hidden_size_ net * output_size_ net)%N
    /\ size (biases_ net) = (hidden_size_ net + output_size_ net)%N.
Proof.
  unfold wf_network.
  destruct (weights_ net) as [|w0 [|w1 [|? ?]]]; try discriminate.
  intros H. repeat (apply andb_prop in H as [H ?]).
  exists w0, w1. repeat split; try (by apply N.ltb_lt); by apply N.eqb_eq.
Qed.

Lemma newQNetwork_wf (input_size hidden_size output_size : N) (lr : Q)
    (dist dist2 : N -> Q) :
  (input_size * hidden_size < SIZE_MODULUS)%N ->
  (hidden_size * output_size < SIZE_MODULUS)%N ->
  (hidden_size + output_size < SIZE_MODULUS)%N ->
  wf_network (newQNetwork input_size hidden_size output_size lr dist dist2) = true.
Proof.
  intros H1 H2 H3. unfold wf_network, newQNetwork. cbn [weights_ biases_
    input_size_ hidden_size_ output_size_].
  rewrite mul_sz_small, mul_sz_small, add_sz_small by done.
  unfold size. rewrite !length_fmap, !length_range, length_replicate, !N2Nat.id.
  rewrite !N.eqb_refl.
  repeat (apply andb_true_intro; split); try done; by apply N.ltb_lt.
Qed.

Lemma forward_mismatch (net : QNetwork) (input : list Q) :
  size input <> input_size_ net ->
  forward net input = Raise (invalid_argument "Input size mismatch").
Proof.
  intros Hne. unfold forward.
  apply N.eqb_neq in Hne. by rewrite Hne.
Qed.

Ltac total_mapM ys Hlen :=
  match goal with
  | |- context [mapM ?f ?l] =>
      let H := fresh in
      let E := fresh in
      assert (H : forall x, x ∈ l -> exists y, f x = Value y);
      [ | destruct (mapM_Value f l H) as (ys & E & Hlen); rewrite E; clear E H ]
  end.

Ltac total_foldM acc :=
  match goal with
  | |- context [foldM ?f ?a0 ?l] =>
      let H := fresh in
      let E := fresh in
      assert (H : forall b x, x ∈ l -> exists b', f b x = Value b');
      [ | destruct (foldM_Value f l a0 H) as (acc & E); rewrite E; clear E H ]
  end.

Ltac step_result := cbn [mbind result_bind mret result_ret].

Ltac total_at v x :=
  match goal with
  | |- context [at_ v ?i] =>
      let E := fresh in
      destruct (at_Value v i) as [x E]; [ | rewrite E; clear E ]
  end.

Lemma forward_total (net : QNetwork) (input : list Q) :
  wf_network net = true ->
  size input = input_size_ net ->
  exists output, forward net input = Value output
                 /\ size output = output_size_ net.
Proof.
  intros Hwf Hin.
  destruct (wf_network_inv net Hwf) as (w0 & w1 & Hw & Hih & Hho & Hsum & Hw0 & Hw1 & Hb).
  unfold forward. apply N.eqb_eq in Hin as Hin'. rewrite Hin'. cbn [negb].
  rewrite Hw.
  total_mapM hidden Hlen.
  { intros h Hh%elem_of_range.
    total_foldM acc.
    { intros acc i Hi%elem_of_range.
      total_at input x; [lia|]. step_result.
      change (at_ [w0; w1] 0) with (Value w0). step_result.
      destruct (index_sz i h (input_size_ net) (hidden_size_ net)) as [-> Hlt]; try done.
      total_at w0 w; [lia|]. by eexists. }
    step_result. total_at (biases_ net) b; [lia|]. by eexists. }
  step_result.
  total_mapM output Hlen'.
  { intros o Ho%elem_of_range.
    total_foldM acc.
    { intros acc h Hh%elem_of_range.
      total_at hidden x; [unfold size; rewrite Hlen, length_range; lia|]. step_result.
      change (at_ [w0; w1] 1) with (Value w1). step_result.
      destruct (index_sz h o (hidden_size_ net) (output_size_ net)) as [-> Hlt]; try done.
      total_at w1 w; [lia|]. by eexists. }
    step_result. total_at (biases_ net) b; [rewrite add_sz_small by lia; lia|]. by eexists. }
  exists output. split; [done|]. unfold size. rewrite Hlen', length_range. lia.
Qed.

Lemma backward_total (net : QNetwork) (input target : list Q) :
  wf_network net = true ->
  size input = input_size_ net ->
  size target = output_size_ net ->
  exists net', backward net input target = Value net'
               /\ wf_network net' = true /\ frozen net' = frozen net.
Proof.
  intros Hwf Hin Htg.
  destruct (wf_network_inv net Hwf) as (w0 & w1 & Hw & Hih & Hho & Hsum & Hw0 & Hw1 & Hb).
  unfold backward.
  destruct (forward_total net input Hwf Hin) as (prediction & -> & Hp).
  step_result.
  total_mapM output_gradients Hlen.
  { intros i Hi%elem_of_range.
    total_at prediction p; [lia|]. step_result.
    total_at target t; [lia|]. by eexists. }
  step_result. rewrite Hw. change (at_ [w0; w1] 1) with (Value w1). step_result.
  total_mapM w1' Hlen'.
  { intros i Hi%elem_of_range.
    total_at w1 w; [done|]. step_result.
    assert (output_size_ net <> 0)%N as Ho by nia.
    apply N.eqb_neq in Ho as ->. step_result.
    total_at output_gradients g.
    { unfold size. rewrite Hlen, length_range, N2Nat.id.
      apply N.mod_lt. nia. }
    by eexists. }
  step_result. eexists. split; [done|].
  split; [|unfold frozen; cbn; by rewrite Hw].
  unfold wf_network. cbn.
  assert (size w1' = (hidden_size_ net * output_size_ net)%N) as ->.
  { unfold size. rewrite Hlen', length_range. lia. }
  rewrite Hw0, Hb, !N.eqb_refl.
  repeat (apply andb_true_intro; split); try done; by apply N.ltb_lt.
Qed.

Lemma train_total (net : QNetwork) (state target : list Q) :
  wf_network net = true ->
  size state = input_size_ net ->
  size target = output_size_ net ->
  exists net', train net state target = Value net'
               /\ wf_network net' = true /\ frozen net' = frozen net.
Proof.
  intros Hwf Hin Htg. unfold train.
  destruct (forward_total net state Hwf Hin) as (prediction & -> & Hp).
  step_result.
  total_foldM loss.
  { intros loss i Hi%elem_of_range.
    total_at target t; [lia|]. step_result.
    total_at prediction p; [lia|]. by eexists. }
  step_result. by apply backward_total.
Qed.

(** ** The monad of the engine's methods *)

Lemma M_bind_eq {A B} (m : M A) (k : A -> M B) (e : ReinforcementLearningEngine) :
  (m ≫= k) e =
    match m e with
    | Returns e' a => k a e'
    | Throws e' x => Throws e' x
    | Undefined => Undefined
    end.
Proof. reflexivity. Qed.

Lemma M_ret_eq {A} (a : A) (e : ReinforcementLearningEngine) :
  (mret a : M A) e = Returns e a.
Proof. reflexivity. Qed.

Ltac step_M :=
  repeat first
    [ rewrite M_bind_eq
    | rewrite M_ret_eq
    | progress unfold get, modify, ignore
    | progress cbn beta iota ].

Section stays.
Context (R : relation ReinforcementLearningEngine) `{!PreOrder R}.

Lemma stays_ret {A} (a : A) : stays R (mret a).
Proof. intros e. cbn. reflexivity. Qed.

Lemma stays_bind {A B} (m : M A) (k : A -> M B) :
  stays R m -> (forall a, stays R (k a)) -> stays R (m ≫= k).
Proof.
  intros Hm Hk e. specialize (Hm e). unfold mbind, M_bind.
  destruct (m e) as [e1 a|e1 x|]; cbn in *; [|done..].
  specialize (Hk a e1). destruct (k a e1); cbn in *; [..|done];
    by etransitivity.
Qed.

Lemma stays_get : stays R get.
Proof. intros e. cbn. reflexivity. Qed.

Lemma stays_lift {A} (r : result A) : stays R (lift r).
Proof. intros e. destruct r; cbn; done. Qed.

Lemma stays_deref {A} (p : option A) : stays R (deref p).
Proof. intros e. destruct p; cbn; done. Qed.

Lemma stays_modify f : (forall e, R e (f e)) -> stays R (modify f).
Proof. intros Hf e. cbn. apply Hf. Qed.

Lemma stays_random {A} (dist : mt19937 -> A * mt19937) :
  (forall e g, R e (set_rng_ g e)) -> stays R (random dist).
Proof. intros Hf e. unfold random. destruct (dist (rng_ e)). cbn. apply Hf. Qed.

Lemma stays_mapM {A B} (f : A -> M B) (l : list A) :
  (forall x, stays R (f x)) -> stays R (mapM f l).
Proof.
  intros Hf. induction l as [|x l IH]; cbn [mapM].
  - apply stays_ret.
  - apply stays_bind; [apply Hf|]. intros y.
    apply stays_bind; [apply IH|]. intros k. apply stays_ret.
Qed.

Lemma stays_foldM {A B} (f : A -> B -> M A) (a : A) (l : list B) :
  (forall a x, stays R (f a x)) -> stays R (foldM f a l).
Proof.
  intros Hf. revert a. induction l as [|x l IH]; intros a; cbn [foldM].
  - apply stays_ret.
  - apply stays_bind; [apply Hf|]. intros a'. apply IH.
Qed.
End stays.

#[global] Instance trained_only_preorder : PreOrder trained_only.
Proof.
  split.
  - intros [????????? ??????]. reflexivity.
  - intros [????????? ??????] [????????? ??????] [????????? ??????].
    unfold trained_only, set_rng_, set_q_network_. cbn. intros H1 H2.
    injection H1. injection H2. intros. subst. reflexivity.
Qed.

#[global] Instance stepped_only_preorder : PreOrder stepped_only.
Proof.
  split.
  - intros [????????? ??????]. reflexivity.
  - intros [????????? ??????] [????????? ??????] [????????? ??????].
    unfold stepped_only, set_rng_, set_total_steps_. cbn. intros H1 H2.
    injection H1. injection H2. intros. subst. reflexivity.
Qed.

Lemma trained_only_rng e g : trained_only e (set_rng_ g e).
Proof. by destruct e. Qed.

Lemma trained_only_q e v : trained_only e (set_q_network_ v e).
Proof. by destruct e. Qed.

Lemma stepped_only_rng e g : stepped_only e (set_rng_ g e).
Proof. by destruct e. Qed.

Lemma stepped_only_steps e v : stepped_only e (set_total_steps_ v e).
Proof. by destruct e. Qed.

Ltac stays_steps lemmas :=
  repeat first
    [ apply stays_get; apply _
    | apply stays_lift; apply _
    | apply stays_deref; apply _
    | apply stays_ret; apply _
    | apply stays_modify; intros; lemmas
    | apply stays_random; intros; lemmas
    | apply stays_mapM; [apply _|intros ?]
    | apply stays_foldM; [apply _|intros ? ?]
    | apply stays_bind; [apply _| |intros ?]
    | match goal with |- stays _ (if ?b then _ else _) => destruct b end ].

Lemma trainOnBatch_stays : stays trained_only trainOnBatch.
Proof.
  unfold trainOnBatch, sampleBatch, trainOnBatch_body.
  stays_steps ltac:(first [apply trained_only_rng | apply trained_only_q]).
Qed.

Lemma getAction_stays (state : State) : stays stepped_only (getAction state).
Proof.
  unfold getAction, selectRandomAction, selectBestAction.
  stays_steps ltac:(first [apply stepped_only_rng | apply stepped_only_steps]).
Qed.

(** [learn], written out around its call of [trainOnBatch]. *)
Lemma learn_eq (e : ReinforcementLearningEngine) :
  learn e =
    if (size (replay_buffer_ e) <? batch_size_ e)%N then Returns e tt
    else match trainOnBatch e with
         | Returns e1 _ => Returns (bookkeeping e1) tt
         | Throws e1 x => Throws e1 x
         | Undefined => Undefined
         end.
Proof.
  unfold learn. step_M.
  destruct (size (replay_buffer_ e) <? batch_size_ e)%N; [done|].
  step_M. destruct (trainOnBatch e) as [e1 []|e1 x|]; [|done..].
  unfold bookkeeping, sync_counter, decay_epsilon, updateTargetNetwork.
  destruct e1 as [????????? ??????].
  repeat first
    [ progress step_M
    | progress cbn
    | match goal with |- context [if ?b then _ else _] => destruct b end ];
    reflexivity.
Qed.

(** ** Training cannot fail on a ready engine *)

Lemma max_element_from_lt (rest : list Q) (largest first : N) (v : Q) :
  (largest < first)%N ->
  (max_element_from largest v first rest < first + size rest)%N.
Proof.
  revert largest first v. induction rest as [|x rest IH]; intros largest first v Hlt.
  - cbn. unfold size. cbn. lia.
  - cbn [max_element_from].
    replace (size (x :: rest)) with (1 + size rest)%N by (unfold size; cbn; lia).
    destruct (Qltb v x).
    + specialize (IH first (first + 1)%N x). lia.
    + specialize (IH largest (first + 1)%N v). lia.
Qed.

Lemma max_element_lt (v : list Q) : v <> [] -> (max_element v < size v)%N.
Proof.
  destruct v as [|x rest]; [done|]. intros _. cbn [max_element].
  pose proof (max_element_from_lt rest 0 1 x).
  replace (size (x :: rest)) with (1 + size rest)%N by (unfold size; cbn; lia).
  lia.
Qed.

Lemma ready_inv (e : ReinforcementLearningEngine) :
  ready e = true ->
  exists q tn,
    q_network_ e = Some q /\ target_network_ e = Some tn
    /\ wf_network q = true /\ wf_network tn = true
    /\ Forall (fun x => trainable q tn x = true) (replay_buffer_ e)
    /\ (0 < size (replay_buffer_ e) < SIZE_MODULUS)%N.
Proof.
  unfold ready.
  destruct (q_network_ e) as [q|], (target_network_ e) as [tn|]; try discriminate.
  intros H. repeat (apply andb_prop in H as [H ?]).
  exists q, tn. repeat split; try done.
  - apply Forall_forall. intros x Hx. apply list_elem_of_In in Hx.
    eapply forallb_forall in Hx; [done|]. done.
  - by apply N.ltb_lt.
  - by apply N.ltb_lt.
Qed.

Lemma trainable_frozen (q q' tn : QNetwork) (x : Experience) :
  frozen q' = frozen q -> trainable q' tn x = trainable q tn x.
Proof. unfold frozen, trainable. intros [= _ _ -> _ _ _]. done. Qed.

Lemma ready_trained (e e' : ReinforcementLearningEngine) :
  ready e = true -> trained e e' -> ready e' = true.
Proof.
  intros Hr (q & q' & g & Hq & Hwf & Hfr & ->).
  unfold ready in *. destruct e as [????????? ??????]. cbn in *. subst.
  destruct target_network_0 as [tn|]; [|done].
  rewrite Hwf.
  assert (forallb (trainable q' tn) replay_buffer_0
          = forallb (trainable q tn) replay_buffer_0) as ->.
  { clear Hr. induction replay_buffer_0 as [|x l IH]; [done|].
    cbn. by rewrite IH, (trainable_frozen q q'). }
  repeat (apply andb_prop in Hr as [Hr ?]).
  repeat (apply andb_true_intro; split); done.
Qed.

Lemma trained_refl (e : ReinforcementLearningEngine) : ready e = true -> trained e e.
Proof.
  intros (q & tn & Hq & Htn & Hwf & _)%ready_inv.
  exists q, q, (rng_ e). repeat split; try done.
  destruct e. cbn in *. by subst.
Qed.

Lemma trained_trans (e1 e2 e3 : ReinforcementLearningEngine) :
  trained e1 e2 -> trained e2 e3 -> trained e1 e3.
Proof.
  intros (q1 & q2 & g2 & Hq1 & Hwf2 & Hfr2 & ->) (q2' & q3 & g3 & Hq2 & Hwf3 & Hfr3 & ->).
  destruct e1. cbn in *. injection Hq2 as <-. subst.
  exists q1, q3, g3. repeat split; try done. by rewrite Hfr3.
Qed.

Lemma trainOnBatch_body_total (e : ReinforcementLearningEngine) (idx : N) :
  ready e = true -> (idx < size (replay_buffer_ e))%N ->
  exists e', trainOnBatch_body idx e = Returns e' tt /\ trained e e'.
Proof.
  intros Hr Hidx.
  destruct (ready_inv e Hr) as (q & tn & Hq & Htn & Hwfq & Hwftn & Hall & Hsz).
  unfold trainOnBatch_body. step_M.
  destruct (at_Value (replay_buffer_ e) idx Hidx) as [x Hx]. rewrite Hx. cbn [lift].
  assert (trainable q tn x = true) as Hx'.
  { apply at_lookup in Hx. eapply Forall_lookup_1 in Hall; done. }
  unfold trainable in Hx'. repeat (apply andb_prop in Hx' as [Hx' ?]).
  rewrite Hq, Htn. cbn [deref]. step_M.
  unfold predict.
  destruct (forward_total q (features (state x))) as (cur & -> & Hcur);
    [done|by apply N.eqb_eq|].
  cbn [lift]. step_M.
  destruct (forward_total tn (features (next_state x))) as (next & -> & Hnext);
    [done|by apply N.eqb_eq|].
  cbn [lift]. step_M.
  match goal with
  | |- context [match ?c e with _ => _ end] =>
      assert (exists tq, c e = Returns e tq) as [tq ->]
  end.
  { destruct (done x) eqn:Hd; [by eexists|]. step_M.
    destruct (at_Value next (max_element next)) as [m ->].
    { apply max_element_lt. intros ->. unfold size in Hnext. cbn in *.
      apply negb_true_iff, N.eqb_neq in H0. lia. }
    by eexists. }
  step_M. destruct (parameters (action x)) as [|p0 rest] eqn:Hp; [done|].
  destruct (size_of_double p0) as [a| |] eqn:Ha; try done.
  change (at_ (p0 :: rest) 0) with (Value p0). cbn [lift]. step_M.
  rewrite Ha. cbn [lift]. step_M.
  match goal with
  | |- context [train q ?s ?t] =>
      destruct (train_total q s t) as (q' & -> & Hwf' & Hfr');
        [done|by apply N.eqb_eq| |]
  end.
  { destruct (a <? size cur)%N; [|done]. unfold size. by rewrite length_insert. }
  cbn [lift]. step_M. eexists. split; [done|].
  exists q, q', (rng_ e). repeat split; done.
Qed.

Lemma set_rng_id (e : ReinforcementLearningEngine) : set_rng_ (rng_ e) e = e.
Proof. by destruct e. Qed.

Lemma mapM_random {A B} (dist : mt19937 -> B * mt19937) (P : B -> Prop)
    (l : list A) (e : ReinforcementLearningEngine) :
  (forall g, P (dist g).1) ->
  exists g ys, mapM (fun _ => random dist) l e = Returns (set_rng_ g e) ys
               /\ Forall P ys.
Proof.
  intros HP. revert e. induction l as [|x l IH]; intros e.
  - exists (rng_ e), []. by rewrite set_rng_id.
  - cbn [mapM]. step_M. unfold random at 1.
    pose proof (HP (rng_ e)) as Hy. destruct (dist (rng_ e)) as [y g1].
    step_M.
    destruct (IH (set_rng_ g1 e)) as (g2 & ys & -> & Hys). step_M.
    exists g2, (y :: ys). split; [done|]. by constructor.
Qed.

Lemma sub_sz_one (n : N) : (0 < n < SIZE_MODULUS)%N -> sub_sz n 1 = (n - 1)%N.
Proof.
  intros Hn. unfold sub_sz.
  rewrite (N.mod_small 1) by (unfold SIZE_MODULUS; lia).
  replace (n + SIZE_MODULUS - 1)%N with ((n - 1) + 1 * SIZE_MODULUS)%N by lia.
  rewrite N.Div0.mod_add. apply N.mod_small. lia.
Qed.

Lemma sampleBatch_total (e : ReinforcementLearningEngine) :
  (0 < size (replay_buffer_ e) < SIZE_MODULUS)%N ->
  exists g idxs,
    sampleBatch e = Returns (set_rng_ g e) idxs
    /\ Forall (fun idx => (idx < size (replay_buffer_ e))%N) idxs.
Proof.
  intros Hsz. unfold sampleBatch. step_M.
  apply mapM_random. intros g. unfold uniform_size, draw. cbn.
  rewrite sub_sz_one by done.
  replace (size (replay_buffer_ e) - 1 - 0 + 1)%N with (size (replay_buffer_ e)) by lia.
  apply N.mod_lt. lia.
Qed.

Lemma trained_buffer (e e' : ReinforcementLearningEngine) :
  trained e e' -> replay_buffer_ e' = replay_buffer_ e.
Proof. by intros (q & q' & g & _ & _ & _ & ->). Qed.

Lemma trained_rng (e : ReinforcementLearningEngine) (g : mt19937) :
  ready e = true -> trained e (set_rng_ g e).
Proof.
  intros (q & tn & Hq & _ & Hwf & _)%ready_inv.
  exists q, q, g. repeat split; try done.
  destruct e. cbn in *. by subst.
Qed.

Lemma train_loop_total (idxs : list N) (e : ReinforcementLearningEngine) :
  ready e = true ->
  Forall (fun idx => (idx < size (replay_buffer_ e))%N) idxs ->
  exists e', foldM (fun _ idx => trainOnBatch_body idx) tt idxs e = Returns e' tt
             /\ trained e e'.
Proof.
  revert e. induction idxs as [|idx idxs IH]; intros e Hr Hall.
  - exists e. split; [done|]. by apply trained_refl.
  - apply Forall_cons in Hall as [Hidx Hall]. cbn [foldM]. step_M.
    destruct (trainOnBatch_body_total e idx Hr Hidx) as (e1 & -> & He1). step_M.
    destruct (IH e1) as (e2 & -> & He2).
    { by eapply ready_trained. }
    { eapply Forall_impl; [exact Hall|]. intros i Hi. cbn beta.
      by rewrite (trained_buffer e e1). }
    exists e2. split; [done|]. exact (trained_trans _ _ _ He1 He2).
Qed.

Lemma trainOnBatch_total (e : ReinforcementLearningEngine) :
  ready e = true ->
  exists e', trainOnBatch e = Returns e' tt /\ trained e e'.
Proof.
  intros Hr. unfold trainOnBatch. step_M.
  destruct (ready_inv e Hr) as (q & tn & _ & _ & _ & _ & _ & Hsz).
  destruct (sampleBatch_total e Hsz) as (g & idxs & -> & Hidxs). step_M.
  pose proof (trained_rng e g Hr) as Hg.
  destruct (train_loop_total idxs (set_rng_ g e)) as (e' & -> & He'); [|done|].
  { exact (ready_trained _ _ Hr Hg). }
  exists e'. split; [done|]. exact (trained_trans _ _ _ Hg He').
Qed.

(** A [learn] on a ready engine with a full batch returns: the live
    network is trained, then the bookkeeping is done. *)
Lemma learn_total (e : ReinforcementLearningEngine) :
  ready e = true ->
  (batch_size_ e <= size (replay_buffer_ e))%N ->
  exists e1, trained e e1 /\ learn e = Returns (bookkeeping e1) tt.
Proof.
  intros Hr Hfull. rewrite learn_eq.
  apply N.ltb_ge in Hfull as ->.
  destruct (trainOnBatch_total e Hr) as (e1 & -> & He1). by exists e1.
Qed.

Ltac unfold_setters :=
  cbv beta iota delta
    [set_q_network_ set_target_network_ set_replay_buffer_ set_epsilon_
     set_steps_since_update_ set_total_steps_ set_total_episodes_ set_rng_
     q_network_ target_network_ replay_buffer_ buffer_capacity_ batch_size_
     epsilon_ epsilon_decay_ epsilon_min_ gamma_ engine_learning_rate_
     update_frequency_ steps_since_update_ total_steps_ total_episodes_ rng_] in *.

Lemma bookkeeping_commutes (e : ReinforcementLearningEngine) q g :
  bookkeeping (set_rng_ g (set_q_network_ q e))
  = set_rng_ g (set_q_network_ q (bookkeeping e)).
Proof.
  destruct e as [????????? ??????].
  unfold bookkeeping, sync_counter, decay_epsilon. cbn zeta. unfold_setters.
  destruct (update_frequency_0 <=? add_sz steps_since_update_0 1)%N;
    unfold_setters; destruct (Qltb epsilon_min_0 epsilon_0); reflexivity.
Qed.

Lemma bookkeeping_q (e : ReinforcementLearningEngine) :
  q_network_ (bookkeeping e) = q_network_ e
  /\ target_network_ (bookkeeping e) = target_network_ e
  /\ replay_buffer_ (bookkeeping e) = replay_buffer_ e
  /\ batch_size_ (bookkeeping e) = batch_size_ e.
Proof.
  destruct e as [????????? ??????].
  unfold bookkeeping, sync_counter, decay_epsilon. cbn zeta. unfold_setters.
  destruct (update_frequency_0 <=? add_sz steps_since_update_0 1)%N;
    unfold_setters; destruct (Qltb epsilon_min_0 epsilon_0); done.
Qed.

Lemma ready_bookkeeping (e : ReinforcementLearningEngine) :
  ready (bookkeeping e) = ready e.
Proof.
  destruct (bookkeeping_q e) as (Hq & Ht & Hb & _).
  unfold ready. by rewrite Hq, Ht, Hb.
Qed.

Lemma trained_bookkeeping (e e' : ReinforcementLearningEngine) :
  trained e e' -> trained (bookkeeping e) (bookkeeping e').
Proof.
  intros (q & q' & g & Hq & Hwf & Hfr & ->).
  exists q, q', g. repeat split; try done.
  - destruct (bookkeeping_q e) as (-> & _). done.
  - apply bookkeeping_commutes.
Qed.

Lemma trained_iter_bookkeeping (n : nat) (e e' : ReinforcementLearningEngine) :
  trained e e' -> trained (Nat.iter n bookkeeping e) (Nat.iter n bookkeeping e').
Proof.
  intros H. induction n as [|n IH]; [done|].
  change (Nat.iter (S n) bookkeeping ?x) with (bookkeeping (Nat.iter n bookkeeping x)).
  by apply trained_bookkeeping.
Qed.

Lemma iter_bookkeeping_frame (n : nat) (e : ReinforcementLearningEngine) :
  ready (Nat.iter n bookkeeping e) = ready e
  /\ batch_size_ (Nat.iter n bookkeeping e) = batch_size_ e
  /\ replay_buffer_ (Nat.iter n bookkeeping e) = replay_buffer_ e.
Proof.
  induction n as [|n (IH1 & IH2 & IH3)]; [done|].
  change (Nat.iter (S n) bookkeeping e) with (bookkeeping (Nat.iter n bookkeeping e)).
  destruct (bookkeeping_q (Nat.iter n bookkeeping e)) as (_ & _ & Hb & Hs).
  by rewrite ready_bookkeeping, Hs, Hb.
Qed.

(** [n] calls of [learn] in a row on a ready engine with a full batch
    all return; what they leave is the bookkeeping done [n] times, with
    the live network trained. *)
Lemma learn_many (l : list nat) (e : ReinforcementLearningEngine) :
  ready e = true ->
  (batch_size_ e <= size (replay_buffer_ e))%N ->
  exists e', foldM (fun _ _ => learn) tt l e = Returns e' tt
             /\ trained (Nat.iter (length l) bookkeeping e) e'.
Proof.
  revert e. induction l as [|k l IH]; intros e Hr Hfull.
  - exists e. split; [done|]. by apply trained_refl.
  - cbn [foldM]. step_M.
    destruct (learn_total e Hr Hfull) as (e1 & He1 & ->). step_M.
    destruct (bookkeeping_q e1) as (_ & _ & Hb & Hs).
    destruct (IH (bookkeeping e1)) as (e2 & -> & He2).
    { rewrite ready_bookkeeping. by eapply ready_trained. }
    { rewrite Hb, Hs. destruct He1 as (? & ? & ? & _ & _ & _ & ->). done. }
    exists e2. split; [done|].
    eapply trained_trans; [|exact He2].
    cbn [length]. rewrite <- Nat.iter_succ_r.
    apply trained_iter_bookkeeping. done.
Qed.

Lemma repeat_learn (n : nat) (e : ReinforcementLearningEngine) :
  ready e = true ->
  (batch_size_ e <= size (replay_buffer_ e))%N ->
  exists e', repeatM n learn e = Returns e' tt
             /\ trained (Nat.iter n bookkeeping e) e'.
Proof.
  intros Hr Hfull. unfold repeatM.
  destruct (learn_many (seq 0 n) e Hr Hfull) as (e' & He' & Htr).
  rewrite length_seq in Htr. by exists e'.
Qed.

(** ** The invariant holds in every reachable engine *)

Lemma clamp_range (v lo hi : Q) : (lo <= hi)%Q -> (lo <= clamp v lo hi <= hi)%Q.
Proof.
  intros Hle. unfold clamp.
  destruct (Qltb v lo) eqn:H1; [lra|]. apply Qltb_ge in H1.
  destruct (Qltb hi v) eqn:H2; [lra|]. apply Qltb_ge in H2. lra.
Qed.

Ltac invariant_fields :=
  unfold invariant, configured in *; unfold_setters;
  repeat match goal with H : _ /\ _ |- _ => destruct H end;
  repeat split;
  first [ done | lra | (unfold size in *; cbn in *; lia)
        | (rewrite size_app; unfold size in *; cbn in *; lia) ].

Lemma invariant_trained_only (e e' : ReinforcementLearningEngine) :
  trained_only e e' -> invariant e -> invariant e'.
Proof. unfold trained_only. intros -> Hinv. destruct e. invariant_fields. Qed.

Lemma invariant_stepped_only (e e' : ReinforcementLearningEngine) :
  stepped_only e e' -> invariant e -> invariant e'.
Proof. unfold stepped_only. intros -> Hinv. destruct e. invariant_fields. Qed.

Lemma invariant_bookkeeping (e : ReinforcementLearningEngine) :
  invariant e -> invariant (bookkeeping e).
Proof.
  destruct e as [????????? ??????].
  unfold invariant, configured, bookkeeping, sync_counter, decay_epsilon.
  cbn zeta. unfold_setters.
  intros ((-> & -> & -> & -> & -> & ->) & Hsz & Heps).
  destruct (100 <=? add_sz steps_since_update_0 1)%N; unfold_setters;
    destruct (Qltb 0.01 epsilon_0) eqn:Hlt; unfold_setters;
    repeat split; try done; try apply Qltb_lt in Hlt; lra.
Qed.

Lemma invariant_new state_size action_size hidden_size learning_rate rd :
  invariant (newReinforcementLearningEngine state_size action_size hidden_size
               learning_rate rd).
Proof. unfold invariant, configured. cbn. repeat split; try done; lra. Qed.

Lemma storeExperience_eq state action reward next_state done now
    (e : ReinforcementLearningEngine) :
  let x := mkExperience state action reward next_state done now in
  storeExperience state action reward next_state done now e =
    if (buffer_capacity_ e <=? size (replay_buffer_ e))%N
    then match replay_buffer_ e with
         | [] => Undefined
         | _ :: rest => Returns (set_replay_buffer_ (rest ++ [x]) e) tt
         end
    else Returns (set_replay_buffer_ (replay_buffer_ e ++ [x]) e) tt.
Proof.
  unfold storeExperience. step_M.
  destruct (buffer_capacity_ e <=? size (replay_buffer_ e))%N; step_M; [|done].
  destruct e as [????????? ??????]. unfold_setters.
  by destruct replay_buffer_0.
Qed.

Lemma call_invariant (c : Call) (e e' : ReinforcementLearningEngine) :
  invariant e -> engine_after (call c e) = Some e' -> invariant e'.
Proof.
  intros Hinv. destruct c; cbn [call].
  - (* initialize *)
    unfold initialize. step_M.
    destruct (negb _ || negb _); step_M; cbn; intros [= <-]; [done|].
    destruct e. invariant_fields.
  - (* getAction *)
    pose proof (getAction_stays state0 e) as Hs. step_M.
    destruct (getAction state0 e); cbn in *; intros [= <-];
      by eapply invariant_stepped_only.
  - (* storeExperience *)
    rewrite storeExperience_eq. cbn zeta.
    destruct (buffer_capacity_ e <=? size (replay_buffer_ e))%N eqn:Hfull.
    + destruct (replay_buffer_ e) as [|x rest] eqn:Hb; [done|].
      cbn. intros [= <-]. destruct e. cbn in Hb. subst. invariant_fields.
    + cbn. intros [= <-]. apply N.leb_gt in Hfull. destruct e. invariant_fields.
  - (* learn *)
    rewrite learn_eq.
    destruct (size (replay_buffer_ e) <? batch_size_ e)%N; [by intros [= <-]|].
    pose proof (trainOnBatch_stays e) as Hs.
    destruct (trainOnBatch e) as [e1 []|e1 x|]; cbn in *; intros [= <-].
    + apply invariant_bookkeeping. by eapply invariant_trained_only.
    + by eapply invariant_trained_only.
  - (* startEpisode *)
    unfold startEpisode. step_M. cbn. intros [= <-]. destruct e. invariant_fields.
  - (* endEpisode *)
    cbn. by intros [= <-].
  - (* setExplorationRate *)
    unfold setExplorationRate. step_M. cbn. intros [= <-].
    pose proof (clamp_range epsilon 0 1 ltac:(lra)).
    destruct e. invariant_fields.
  - (* getAverageReward *)
    unfold getAverageReward. step_M.
    destruct (replay_buffer_ e); step_M; cbn; by intros [= <-].
  - cbn. by intros [= <-].
  - cbn. by intros [= <-].
  - cbn. by intros [= <-].
  - (* emergencyStop *)
    unfold emergencyStop. step_M. cbn. intros [= <-]. destruct e. invariant_fields.
  - (* resetLearning *)
    unfold resetLearning. step_M. cbn. intros [= <-]. destruct e. invariant_fields.
  - (* shutdown *)
    unfold shutdown. step_M. cbn. intros [= <-]. destruct e. invariant_fields.
Qed.

Lemma reachable_invariant (e : ReinforcementLearningEngine) :
  reachable e -> invariant e.
Proof.
  induction 1 as [|e c e' _ IH Hcall].
  - apply invariant_new.
  - by eapply call_invariant.
Qed.

(** ** The replay buffer *)

Lemma call_store_call (x : Experience) (e : ReinforcementLearningEngine) :
  call (store_call x) e =
    if (buffer_capacity_ e <=? size (replay_buffer_ e))%N
    then match replay_buffer_ e with
         | [] => Undefined
         | _ :: rest => Returns (set_replay_buffer_ (rest ++ [x]) e) tt
         end
    else Returns (set_replay_buffer_ (replay_buffer_ e ++ [x]) e) tt.
Proof.
  unfold store_call. cbn [call]. rewrite storeExperience_eq. by destruct x.
Qed.

Lemma most_recent_all {A} (c : N) (l : list A) :
  (size l <= c)%N -> most_recent c l = l.
Proof.
  unfold most_recent, size. intros H.
  replace (length l - N.to_nat c)%nat with 0%nat by lia. apply drop_0.
Qed.

Lemma most_recent_app {A} (c : N) (l k : list A) :
  most_recent c (most_recent c l ++ k) = most_recent c (l ++ k).
Proof.
  unfold most_recent.
  destruct (decide (length l <= N.to_nat c)%nat) as [Hle|Hgt].
  - by replace (length l - N.to_nat c)%nat with 0%nat by lia.
  - rewrite <- (drop_app_le l k) by lia. rewrite drop_drop. f_equal.
    rewrite length_drop, !length_app. lia.
Qed.

Lemma most_recent_size {A} (c : N) (l : list A) : (size (most_recent c l) <= c)%N.
Proof. unfold most_recent, size. rewrite length_drop. lia. Qed.

(** One store on a buffer within its capacity keeps the most recent
    [buffer_capacity_] transitions. *)
Lemma store_one (x : Experience) (e : ReinforcementLearningEngine) :
  (0 < buffer_capacity_ e)%N ->
  (size (replay_buffer_ e) <= buffer_capacity_ e)%N ->
  call (store_call x) e =
    Returns (set_replay_buffer_
               (most_recent (buffer_capacity_ e) (replay_buffer_ e ++ [x])) e) tt.
Proof.
  intros Hpos Hsz. rewrite call_store_call.
  destruct (buffer_capacity_ e <=? size (replay_buffer_ e))%N eqn:Hfull.
  - apply N.leb_le in Hfull.
    destruct (replay_buffer_ e) as [|y rest] eqn:Hb.
    { unfold size in Hfull. cbn in Hfull. lia. }
    do 2 f_equal. unfold most_recent. unfold size in *.
    rewrite length_app. cbn [length] in *.
    replace (S (length rest) + 1 - N.to_nat (buffer_capacity_ e))%nat with 1%nat by lia.
    done.
  - apply N.leb_gt in Hfull. do 2 f_equal. symmetry. apply most_recent_all.
    rewrite size_app. unfold size in *. cbn. lia.
Qed.

Lemma store_many (xs : list Experience) (e : ReinforcementLearningEngine) :
  (0 < buffer_capacity_ e)%N ->
  (size (replay_buffer_ e) <= buffer_capacity_ e)%N ->
  calls (store_call <$> xs) e =
    Returns (set_replay_buffer_
               (most_recent (buffer_capacity_ e) (replay_buffer_ e ++ xs)) e) tt.
Proof.
  revert e. induction xs as [|x xs IH]; intros e Hpos Hsz.
  - cbn. rewrite app_nil_r, most_recent_all by done. by destruct e.
  - unfold calls in *. cbn [fmap list_fmap foldM]. step_M.
    rewrite store_one by done. step_M.
    rewrite IH.
    + destruct e. unfold_setters. do 2 f_equal.
      rewrite most_recent_app, <- app_assoc. done.
    + by destruct e.
    + destruct e. unfold_setters. apply most_recent_size.
Qed.

(** C3: in every reachable engine the replay buffer holds at most
    [buffer_capacity_] transitions, and storing [buffer_capacity_ + k]
    transitions one after the other returns and leaves exactly the last
    [buffer_capacity_] of them in the buffer, in the order they were
    stored: the oldest ones are evicted first. *)
Theorem replay_buffer_fifo (e : ReinforcementLearningEngine)
    (xs : list Experience) (k : N) :
  reachable e ->
  size xs = (buffer_capacity_ e + k)%N ->
  (size (replay_buffer_ e) <= buffer_capacity_ e)%N
  /\ exists e',
       calls (store_call <$> xs) e = Returns e' tt
       /\ replay_buffer_ e' = drop (N.to_nat k) xs
       /\ size (replay_buffer_ e') = buffer_capacity_ e'.
Proof.
  intros ((Hc & _) & Hsz & _)%reachable_invariant Hxs. split; [done|].
  eexists. split; [apply store_many; lia|].
  destruct e. unfold_setters. unfold most_recent, size in *.
  rewrite length_app.
  assert (drop (length replay_buffer_0 + length xs - N.to_nat buffer_capacity_0)
            (replay_buffer_0 ++ xs) = drop (N.to_nat k) xs) as ->.
  { rewrite drop_app_ge by lia. f_equal. lia. }
  split; [done|]. rewrite length_drop. lia.
Qed.

Lemma replay_buffer_fifo_witness :
  (size (replay_buffer_ fixture) <= buffer_capacity_ fixture)%N
  /\ exists e',
       calls (store_call <$> replicate (N.to_nat 10001) fixture_experience) fixture
       = Returns e' tt
       /\ replay_buffer_ e' = drop (N.to_nat 1) (replicate (N.to_nat 10001) fixture_experience)
       /\ size (replay_buffer_ e') = buffer_capacity_ e'.
Proof.
  apply (replay_buffer_fifo fixture (replicate (N.to_nat 10001) fixture_experience) 1).
  - apply reachable_new.
  - vm_compute. reflexivity.
Defined.

(** ** learn without a full batch, emergencyStop *)

Lemma learn_noop (e : ReinforcementLearningEngine) :
  (size (replay_buffer_ e) < batch_size_ e)%N -> learn e = Returns e tt.
Proof. intros H. rewrite learn_eq. by apply N.ltb_lt in H as ->. Qed.

(** C9: when the replay buffer holds fewer transitions than the batch
    size, [learn] returns and leaves the whole engine as it was: the
    weights of both networks, the exploration rate and all counters are
    unchanged, and nothing is thrown. *)
Theorem learn_insufficient_data (e : ReinforcementLearningEngine) :
  (size (replay_buffer_ e) < batch_size_ e)%N ->
  exists e', learn e = Returns e' tt
             /\ e' = e
             /\ q_network_ e' = q_network_ e
             /\ target_network_ e' = target_network_ e
             /\ epsilon_ e' = epsilon_ e
             /\ total_steps_ e' = total_steps_ e
             /\ total_episodes_ e' = total_episodes_ e
             /\ steps_since_update_ e' = steps_since_update_ e.
Proof. intros H. exists e. by rewrite learn_noop. Qed.

Lemma learn_insufficient_data_witness :
  exists e', learn fixture = Returns e' tt
             /\ e' = fixture
             /\ q_network_ e' = q_network_ fixture
             /\ target_network_ e' = target_network_ fixture
             /\ epsilon_ e' = epsilon_ fixture
             /\ total_steps_ e' = total_steps_ fixture
             /\ total_episodes_ e' = total_episodes_ fixture
             /\ steps_since_update_ e' = steps_since_update_ fixture.
Proof. apply (learn_insufficient_data fixture). vm_compute. reflexivity. Defined.

(** C5: from every engine state, reachable or not, [emergencyStop]
    returns and leaves the replay buffer empty and the exploration rate
    equal to 1.0. *)
Theorem emergencyStop_clears (e : ReinforcementLearningEngine) :
  exists e', emergencyStop e = Returns e' tt
             /\ replay_buffer_ e' = [] /\ epsilon_ e' = 1%Q.
Proof. eexists. split; [reflexivity|]. by destruct e. Qed.

(** ** predict *)

(** C8: on a well-formed network, an input whose length is the input
    width gives a vector that has one value per action, an input of any
    other length throws [std::invalid_argument("Input size mismatch")],
    and [predict] does nothing else: it throws in no other case and has
    no undefined behaviour. *)
Theorem predict_dimension (net : QNetwork) (input : list Q) :
  wf_network net = true ->
  (size input = input_size_ net ->
     exists output, predict net input = Value output
                    /\ size output = output_size_ net)
  /\ (size input <> input_size_ net ->
     predict net input = Raise (invalid_argument "Input size mismatch"))
  /\ (forall x, predict net input = Raise x -> size input <> input_size_ net)
  /\ predict net input <> UB.
Proof.
  intros Hwf. unfold predict. repeat split.
  - by apply forward_total.
  - by apply forward_mismatch.
  - intros x Hx Heq.
    destruct (forward_total net input Hwf Heq) as (out & Hout & _). congruence.
  - destruct (decide (size input = input_size_ net)) as [Heq|Hne].
    + destruct (forward_total net input Hwf Heq) as (out & -> & _). done.
    + by rewrite forward_mismatch.
Qed.

Lemma predict_dimension_witness :
  let net := newQNetwork 4 64 2 0.01 (q_dist fixture_entropy) (q_dist2 fixture_entropy) in
  let input := features fixture_state in
  (size input = input_size_ net ->
     exists output, predict net input = Value output
                    /\ size output = output_size_ net)
  /\ (size input <> input_size_ net ->
     predict net input = Raise (invalid_argument "Input size mismatch"))
  /\ (forall x, predict net input = Raise x -> size input <> input_size_ net)
  /\ predict net input <> UB.
Proof.
  intros net input. apply (predict_dimension net input). vm_compute. reflexivity.
Defined.

(** The networks of a constructed engine are well-formed when the sizes
    fit, and training keeps them so ([train_total]). *)
Lemma new_engine_networks_wf state_size action_size hidden_size lr rd :
  (state_size * hidden_size < SIZE_MODULUS)%N ->
  (hidden_size * action_size < SIZE_MODULUS)%N ->
  (hidden_size + action_size < SIZE_MODULUS)%N ->
  let e := newReinforcementLearningEngine state_size action_size hidden_size lr rd in
  exists q tn, q_network_ e = Some q /\ target_network_ e = Some tn
               /\ wf_network q = true /\ wf_network tn = true
               /\ input_size_ q = state_size /\ output_size_ q = action_size.
Proof.
  intros H1 H2 H3. cbn. eexists _, _. repeat split; by apply newQNetwork_wf.
Qed.

(** ** The exploration rate *)

(** What one [learn] does to the exploration rate: it never raises it,
    and it multiplies it by [epsilon_decay_] exactly when it is above
    [epsilon_min_]. *)
Lemma bookkeeping_epsilon (e : ReinforcementLearningEngine) :
  epsilon_ (bookkeeping e) =
    if Qltb (epsilon_min_ e) (epsilon_ e)
    then (epsilon_ e * epsilon_decay_ e)%Q else epsilon_ e.
Proof.
  destruct e. unfold bookkeeping, sync_counter, decay_epsilon. cbn zeta.
  unfold_setters.
  destruct (update_frequency_0 <=? add_sz steps_since_update_0 1)%N;
    unfold_setters; by destruct (Qltb epsilon_min_0 epsilon_0).
Qed.

Lemma learn_epsilon_nonincreasing (e e' : ReinforcementLearningEngine) :
  reachable e -> engine_after (learn e) = Some e' ->
  (epsilon_ e' <= epsilon_ e)%Q.
Proof.
  intros Hinv%reachable_invariant. rewrite learn_eq.
  destruct (size (replay_buffer_ e) <? batch_size_ e)%N; [intros [= <-]; lra|].
  pose proof (trainOnBatch_stays e) as Hs.
  destruct (trainOnBatch e) as [e1 []|e1 x|]; cbn in *; intros [= <-].
  - pose proof (invariant_trained_only _ _ Hs Hinv) as ((_ & _ & Hd & Hm & _) & _ & Heps).
    rewrite bookkeeping_epsilon, Hd.
    assert (epsilon_ e1 = epsilon_ e) as <- by (rewrite Hs; by destruct e).
    destruct (Qltb _ _); lra.
  - assert (epsilon_ e1 = epsilon_ e) as <- by (rewrite Hs; by destruct e). lra.
Qed.

(** ** The training target *)

Lemma max_element_from_spec (rest pre : list Q) (largest : N) (lv : Q) :
  pre !! N.to_nat largest = Some lv ->
  (forall y, y ∈ pre -> (y <= lv)%Q) ->
  exists m,
    (pre ++ rest) !! N.to_nat (max_element_from largest lv (size pre) rest) = Some m
    /\ forall y, y ∈ pre ++ rest -> (y <= m)%Q.
Proof.
  revert pre largest lv. induction rest as [|x rest IH]; intros pre largest lv Hl Hmax.
  - exists lv. rewrite app_nil_r. done.
  - cbn [max_element_from].
    replace (size pre + 1)%N with (size (pre ++ [x])) by (rewrite size_app; done).
    replace (pre ++ x :: rest) with ((pre ++ [x]) ++ rest) by (by rewrite <- app_assoc).
    destruct (Qltb lv x) eqn:Hlt.
    + apply Qltb_lt in Hlt. apply IH.
      * unfold size. rewrite Nat2N.id. by rewrite lookup_app_r, Nat.sub_diag.
      * intros y [Hy|Hy]%elem_of_app.
        -- specialize (Hmax y Hy). lra.
        -- apply list_elem_of_singleton in Hy as ->. lra.
    + apply Qltb_ge in Hlt. apply IH.
      * rewrite lookup_app_l; [done|]. by eapply lookup_lt_Some.
      * intros y [Hy|Hy]%elem_of_app.
        -- by apply Hmax.
        -- by apply list_elem_of_singleton in Hy as ->.
Qed.

(** [*std::max_element(v)] is an element of [v] that no element
    exceeds. *)
Lemma max_element_spec (v : list Q) :
  v <> [] ->
  exists m, at_ v (max_element v) = Value m
            /\ m ∈ v /\ forall y, y ∈ v -> (y <= m)%Q.
Proof.
  destruct v as [|x rest]; [done|]. intros _. cbn [max_element].
  destruct (max_element_from_spec rest [x] 0 x) as (m & Hm & Hmax); [done|..].
  { intros y ->%list_elem_of_singleton. lra. }
  exists m. split; [by apply at_lookup|]. split; [|done].
  by eapply list_elem_of_lookup_2.
Qed.

(** One pass of the loop of [trainOnBatch], for the sampled
    transition [x].  With [cur] the live network's prediction for the
    state of [x] and [next] the target network's prediction for its next
    state, the vector the live network is trained toward is [cur] with
    the component at the action index of [x] overwritten by the target
    value, every other component left as predicted; the target value is
    the reward of a terminal transition, and the reward plus [gamma_]
    times a greatest element of [next] otherwise.  The pass is then
    exactly one [train] of the live network on the state of [x] toward
    that vector. *)
Lemma trainOnBatch_body_target (e : ReinforcementLearningEngine) (idx : N)
    (x : Experience) (q tn : QNetwork) (cur next : list Q) (p0 : Q) (a : N) :
  at_ (replay_buffer_ e) idx = Value x ->
  q_network_ e = Some q ->
  target_network_ e = Some tn ->
  predict q (features (state x)) = Value cur ->
  predict tn (features (next_state x)) = Value next ->
  parameters (action x) !! 0%nat = Some p0 ->
  size_of_double p0 = Value a ->
  (done x = false -> next <> []) ->
  exists (target_q : Q) (target : list Q),
    (if done x then target_q = reward x
     else exists m, m ∈ next /\ (forall y, y ∈ next -> (y <= m)%Q)
                    /\ target_q = (reward x + gamma_ e * m)%Q)
    /\ length target = length cur
    /\ (forall j, j <> N.to_nat a -> target !! j = cur !! j)
    /\ ((a < size cur)%N -> target !! N.to_nat a = Some target_q)
    /\ trainOnBatch_body idx e =
         match train q (features (state x)) target with
         | Value q' => Returns (set_q_network_ (Some q') e) tt
         | Raise ex => Throws e ex
         | UB => Undefined
         end.
Proof.
  intros Hx Hq Htn Hcur Hnext Hp Ha Hne.
  assert (exists target_q,
    (if done x then target_q = reward x
     else exists m, at_ next (max_element next) = Value m
                    /\ m ∈ next /\ (forall y, y ∈ next -> (y <= m)%Q)
                    /\ target_q = (reward x + gamma_ e * m)%Q)) as (target_q & Htq).
  { destruct (done x); [by eexists|].
    destruct (max_element_spec next) as (m & Hm & Hin & Hmax); [by apply Hne|].
    eexists. exists m. done. }
  exists target_q, (<[N.to_nat a := target_q]> cur).
  split; [|split; [|split; [|split]]].
  - destruct (done x); [done|]. destruct Htq as (m & _ & ? & ? & ?). by exists m.
  - apply length_insert.
  - intros j Hj. by apply list_lookup_insert_ne.
  - intros Hlt. apply list_lookup_insert_eq. unfold size in Hlt. lia.
  - unfold trainOnBatch_body. step_M.
    rewrite Hx. cbn [lift]. step_M. rewrite Hq. cbn [deref]. step_M.
    rewrite Hcur. cbn [lift]. step_M. rewrite Htn. cbn [deref]. step_M.
    rewrite Hnext. cbn [lift]. step_M.
    assert (at_ (parameters (action x)) 0 = Value p0) as Hp0 by (by apply at_lookup).
    assert ((if (a <? size cur)%N then <[N.to_nat a:=target_q]> cur else cur)
            = <[N.to_nat a:=target_q]> cur) as Hins.
    { destruct (a <? size cur)%N eqn:Hlt; [done|]. apply N.ltb_ge in Hlt.
      symmetry. apply list_insert_ge. unfold size in Hlt. lia. }
    destruct (done x).
    + subst target_q. step_M. rewrite Hp0. cbn [lift]. step_M.
      rewrite Ha. cbn [lift]. step_M. rewrite Hins.
      destruct (train q _ _); cbn [lift]; step_M; done.
    + destruct Htq as (m & Hm & _ & _ & ->). step_M. rewrite Hm. cbn [lift]. step_M.
      rewrite Hp0. cbn [lift]. step_M.
      rewrite Ha. cbn [lift]. step_M. rewrite Hins.
      destruct (train q _ _); cbn [lift]; step_M; done.
Qed.


(** ** Runs of the test engine *)

Lemma trained_frame (e e' : ReinforcementLearningEngine) :
  trained e e' ->
  target_network_ e' = target_network_ e
  /\ epsilon_ e' = epsilon_ e
  /\ epsilon_min_ e' = epsilon_min_ e
  /\ steps_since_update_ e' = steps_since_update_ e
  /\ update_frequency_ e' = update_frequency_ e
  /\ epsilon_decay_ e' = epsilon_decay_ e
  /\ exists q q', q_network_ e = Some q /\ q_network_ e' = Some q'
                  /\ frozen q' = frozen q.
Proof.
  intros (q & q' & g & Hq & _ & Hfr & ->). destruct e. unfold_setters.
  repeat split; try done. by exists q, q'.
Qed.

Lemma fixture_full_stored :
  calls (store_call <$> replicate 32 fixture_experience) fixture
  = Returns fixture_full tt.
Proof. vm_compute. reflexivity. Qed.

Lemma fixture_full_reachable : reachable fixture_full.
Proof.
  assert (forall cs e e', reachable e -> calls cs e = Returns e' tt -> reachable e')
    as Hcalls.
  { unfold calls. induction cs as [|c cs IH]; intros e e' He; cbn [foldM]; step_M.
    - by intros [= <-].
    - destruct (call c e) as [e1 []|e1 x|] eqn:Hc; try done.
      apply IH. by eapply reachable_call; [|rewrite Hc]. }
  eapply Hcalls; [apply reachable_new|apply fixture_full_stored].
Qed.

Lemma fixture_full_ready :
  ready fixture_full = true
  /\ (batch_size_ fixture_full <= size (replay_buffer_ fixture_full))%N.
Proof. split; [vm_compute; reflexivity|]. vm_compute. discriminate. Qed.

(** C7: the random action does not depend on the configured number of
    actions.  [selectRandomAction] returns one of the four indices
    0, 1, 2, 3 in every engine, and each of the four is a possible
    result in every engine; the engine of the test suite is configured
    with two actions, and its first [getAction] returns the action of
    index 3. *)
Theorem selectRandomAction_four_actions :
  (forall e, exists g i,
      selectRandomAction e
      = Returns (set_rng_ g e) (newAction ("action_" +:+ pretty i) [inject_Z i])
      /\ (0 <= i <= 3)%Z)
  /\ Forall (fun i => forall e, exists g e',
        selectRandomAction (set_rng_ g e)
        = Returns e' (newAction ("action_" +:+ pretty i) [inject_Z i]))
      [0; 1; 2; 3]%Z
  /\ exists e' a q,
       getAction fixture_state fixture = Returns e' a
       /\ q_network_ fixture = Some q /\ output_size_ q = 2%N
       /\ action_id a = "action_3" /\ parameters a = [3%Q].
Proof.
  split; [|split].
  - intros e. unfold selectRandomAction. step_M.
    unfold random, uniform_int, draw. step_M.
    eexists _, _. split; [reflexivity|]. change (3 - 0 + 1)%Z with 4%Z.
    pose proof (Z.mod_pos_bound (Z.of_N (tape (rng_ e) (cursor (rng_ e)))) 4
                  ltac:(lia)). lia.
  - repeat apply Forall_cons_2; [..|apply Forall_nil_2]; intros e;
      match goal with
      | |- context [pretty ?i] =>
          exists {| tape := fun _ => Z.to_N i; cursor := 0 |}
      end; eexists; vm_compute; reflexivity.
  - eexists _, _, _. split; [vm_compute; reflexivity|]. by repeat split.
Qed.

(** No call of [learn] writes the target network. *)
Lemma learn_keeps_target_network (e e' : ReinforcementLearningEngine) :
  engine_after (learn e) = Some e' -> target_network_ e' = target_network_ e.
Proof.
  rewrite learn_eq.
  destruct (size (replay_buffer_ e) <? batch_size_ e)%N; [by intros [= <-]|].
  pose proof (trainOnBatch_stays e) as Hs.
  assert (forall e1, trained_only e e1 -> target_network_ e1 = target_network_ e)
    as Hframe by (intros e1 ->; by destruct e).
  destruct (trainOnBatch e) as [e1 []|e1 x|]; cbn in *; intros [= <-].
  - destruct (bookkeeping_q e1) as (_ & -> & _). by apply Hframe.
  - by apply Hframe.
Qed.

(** C2: the engine of the test suite with one batch stored.  After 99
    calls of [learn] the counter of steps since the last update is 99;
    the 100th call takes it to the update frequency and resets it to 0,
    and the target network is still the one the constructor made: its
    weights differ from those of the live network. *)
Theorem target_network_not_refreshed :
  exists e99 e100 q tn,
    repeatM 99 learn fixture_full = Returns e99 tt
    /\ steps_since_update_ e99 = 99%N
    /\ repeatM 100 learn fixture_full = Returns e100 tt
    /\ steps_since_update_ e100 = 0%N
    /\ update_frequency_ e100 = 100%N
    /\ q_network_ e100 = Some q
    /\ target_network_ e100 = Some tn
    /\ target_network_ e100 = target_network_ fixture
    /\ weights_ tn <> weights_ q.
Proof.
  destruct fixture_full_ready as [Hr Hfull].
  destruct (repeat_learn 99 fixture_full Hr Hfull) as (e99 & H99 & T99).
  destruct (repeat_learn 100 fixture_full Hr Hfull) as (e100 & H100 & T100).
  apply trained_frame in T99 as (_ & _ & _ & S99 & _).
  apply trained_frame in T100 as (Ht & _ & _ & S100 & F100 & _ & q0 & q & Hq0 & Hq & Hfr).
  assert (exists tn, target_network_ e100 = Some tn
                     /\ target_network_ e100 = target_network_ fixture
                     /\ weights_ tn !! 0%nat <> weights_ q !! 0%nat)
    as (tn & Htn & Hsame & Hne).
  { rewrite Ht. eexists. split; [vm_compute; reflexivity|].
    split; [vm_compute; reflexivity|].
    assert (weights_ q !! 0%nat = weights_ q0 !! 0%nat) as ->.
    { unfold frozen in Hfr. injection Hfr as Hw _. exact Hw. }
    assert (q_network_ (Nat.iter 100 bookkeeping fixture_full) = q_network_ fixture)
      as Hq1 by (vm_compute; reflexivity).
    rewrite Hq1 in Hq0. injection Hq0 as <-.
    vm_compute. discriminate. }
  exists e99, e100, q, tn.
  split; [exact H99|]. split; [rewrite S99; vm_compute; reflexivity|].
  split; [exact H100|]. split; [rewrite S100; vm_compute; reflexivity|].
  split; [rewrite F100; vm_compute; reflexivity|].
  split; [exact Hq|]. split; [exact Htn|]. split; [exact Hsame|].
  intros Heq. apply Hne. rewrite Heq. reflexivity.
Qed.

(** C4: the engine of the test suite with one batch stored.  After 918
    calls of [learn] the exploration rate is still above [epsilon_min_];
    the 919th call multiplies it by [epsilon_decay_] once more and
    leaves it strictly below [epsilon_min_]. *)
Theorem epsilon_below_minimum :
  exists e918 e919,
    repeatM 918 learn fixture_full = Returns e918 tt
    /\ repeatM 919 learn fixture_full = Returns e919 tt
    /\ (epsilon_min_ e918 < epsilon_ e918)%Q
    /\ (epsilon_ e919 < epsilon_min_ e919)%Q
    /\ epsilon_min_ e919 = 0.01%Q.
Proof.
  destruct fixture_full_ready as [Hr Hfull].
  destruct (repeat_learn 918 fixture_full Hr Hfull) as (e918 & H918 & T918).
  destruct (repeat_learn 919 fixture_full Hr Hfull) as (e919 & H919 & T919).
  apply trained_frame in T918 as (_ & E918 & M918 & _).
  apply trained_frame in T919 as (_ & E919 & M919 & _).
  exists e918, e919. split; [exact H918|]. split; [exact H919|].
  rewrite E918, M918, E919, M919.
  split; [|split].
  - apply Qltb_lt. vm_compute. reflexivity.
  - apply Qltb_lt. vm_compute. reflexivity.
  - vm_compute. reflexivity.
Qed.

(** ** learn after emergencyStop *)

Lemma few_stores_and_learns (cs : list (option Experience))
    (e : ReinforcementLearningEngine) :
  (size (replay_buffer_ e ++ omap id cs) < batch_size_ e)%N ->
  (batch_size_ e <= buffer_capacity_ e)%N ->
  calls (store_or_learn <$> cs) e
  = Returns (set_replay_buffer_ (replay_buffer_ e ++ omap id cs) e) tt.
Proof.
  revert e. unfold calls.
  induction cs as [|[x|] cs IH]; intros e Hfew Hcap.
  - cbn. rewrite app_nil_r. by destruct e.
  - change (omap id (Some x :: cs)) with (x :: omap id cs) in *.
    cbn [fmap list_fmap foldM store_or_learn]. step_M.
    rewrite call_store_call.
    rewrite size_app in Hfew. unfold size in Hfew. cbn [length] in Hfew.
    assert ((buffer_capacity_ e <=? size (replay_buffer_ e))%N = false) as ->.
    { apply N.leb_gt. unfold size. lia. }
    step_M. rewrite IH; clear IH.
    + destruct e. unfold_setters. by rewrite <- app_assoc.
    + destruct e. unfold_setters. rewrite !size_app. unfold size. cbn [length]. lia.
    + by destruct e.
  - change (omap id (None :: cs)) with (omap id cs) in *.
    cbn [fmap list_fmap foldM store_or_learn call]. step_M.
    rewrite learn_noop.
    + step_M. by apply IH.
    + rewrite size_app in Hfew. lia.
Qed.

(** C1, as the specification states it, fails: after [emergencyStop]
    and 32 calls of [storeExperience], without any reset, [learn]
    returns normally and has decayed the exploration rate. *)
Lemma learn_after_emergencyStop_not_blocked :
  exists e1 e2,
    (emergencyStop ≫= fun _ =>
       calls (store_call <$> replicate 32 fixture_experience)) fixture
    = Returns e1 tt
    /\ learn e1 = Returns e2 tt
    /\ epsilon_ e1 = 1%Q
    /\ (epsilon_ e2 < epsilon_ e1)%Q.
Proof.
  destruct fixture_full_ready as [Hr Hfull].
  destruct (learn_total fixture_full Hr Hfull) as (e1 & T1 & Hlearn).
  exists fixture_full, (bookkeeping e1).
  split; [vm_compute; reflexivity|]. split; [exact Hlearn|].
  split; [reflexivity|].
  apply trained_frame in T1 as (_ & E1 & M1 & _ & _ & D1 & _).
  rewrite bookkeeping_epsilon, E1, M1, D1.
  apply Qltb_lt. vm_compute. reflexivity.
Qed.

(** * Further properties of the engine *)

(** ** getAction *)

#[global] Instance rng_only_preorder : PreOrder rng_only.
Proof.
  split.
  - intros [????????? ??????]. reflexivity.
  - intros [????????? ??????] [????????? ??????] [????????? ??????].
    unfold rng_only, set_rng_. cbn. intros H1 H2.
    injection H1. injection H2. intros. subst. reflexivity.
Qed.

Lemma rng_only_rng e g : rng_only e (set_rng_ g e).
Proof. by destruct e. Qed.

Lemma select_stays (state : State) (b : bool) :
  stays rng_only (if b then selectRandomAction else selectBestAction state).
Proof.
  destruct b; unfold selectRandomAction, selectBestAction;
    stays_steps ltac:(apply rng_only_rng).
Qed.

Lemma uniform_real01_range (g : mt19937) :
  (0 <= (uniform_real01 g).1 < 1)%Q.
Proof.
  unfold uniform_real01, draw. cbn [fst].
  pose proof (N.mod_lt (tape g (cursor g)) (2 ^ 53) ltac:(done)) as Hlt.
  unfold Qle, Qlt. cbn [Qnum Qden].
  change (Z.pos (2 ^ 53)) with (Z.of_N (2 ^ 53)).
  generalize dependent (tape g (cursor g) `mod` 2 ^ 53)%N.
  generalize (2 ^ 53)%N. intros. lia.
Qed.

Lemma getAction_eq (state : State) (e : ReinforcementLearningEngine) :
  getAction state e =
    let '(u, g) := uniform_real01 (rng_ e) in
    (if Qltb u (epsilon_ e) then selectRandomAction else selectBestAction state)
      (set_rng_ g (step_counted e)).
Proof.
  unfold getAction. step_M. unfold random, step_counted.
  change (rng_ (set_total_steps_ _ e)) with (rng_ e).
  destruct (uniform_real01 (rng_ e)) as [u g]. step_M. by destruct e.
Qed.

Lemma getAction_rng_only (state : State) (e e' : ReinforcementLearningEngine) :
  engine_after (getAction state e) = Some e' -> rng_only (step_counted e) e'.
Proof.
  rewrite getAction_eq. destruct (uniform_real01 (rng_ e)) as [u g].
  pose proof (select_stays state (Qltb u (epsilon_ e)) (set_rng_ g (step_counted e)))
    as Hs.
  intros He'. rewrite He' in Hs. unfold rng_only in *.
  rewrite Hs. by destruct e.
Qed.

(** X1: every call of [getAction] counts one step, whether it explores
    or exploits and whether it returns or throws: the engine it leaves
    is the one it found with [total_steps_] incremented and random
    numbers drawn, nothing else. *)
Theorem getAction_counts_step (state : State) (e e' : ReinforcementLearningEngine) :
  engine_after (getAction state e) = Some e' ->
  e' = set_rng_ (rng_ e') (step_counted e)
  /\ total_steps_ e' = add_sz (total_steps_ e) 1
  /\ replay_buffer_ e' = replay_buffer_ e
  /\ q_network_ e' = q_network_ e
  /\ target_network_ e' = target_network_ e
  /\ epsilon_ e' = epsilon_ e.
Proof.
  intros Heq%getAction_rng_only. unfold rng_only in Heq.
  split; [exact Heq|]. rewrite Heq. by destruct e.
Qed.

Lemma getAction_counts_step_witness :
  exists e',
    engine_after (getAction fixture_state fixture) = Some e'
    /\ e' = set_rng_ (rng_ e') (step_counted fixture)
    /\ total_steps_ e' = add_sz (total_steps_ fixture) 1
    /\ replay_buffer_ e' = replay_buffer_ fixture
    /\ q_network_ e' = q_network_ fixture
    /\ target_network_ e' = target_network_ fixture
    /\ epsilon_ e' = epsilon_ fixture.
Proof.
  eexists. split; [vm_compute; reflexivity|].
  apply (getAction_counts_step fixture_state fixture). vm_compute. reflexivity.
Defined.

(** When the draw is below the exploration rate, [getAction] returns
    a random action. *)
Lemma getAction_explores (state : State) (e : ReinforcementLearningEngine) :
  Qltb (uniform_real01 (rng_ e)).1 (epsilon_ e) = true ->
  exists g i,
    getAction state e
    = Returns (set_rng_ g (step_counted e))
        (newAction ("action_" +:+ pretty i) [inject_Z i])
    /\ (0 <= i <= 3)%Z.
Proof.
  rewrite getAction_eq.
  destruct (uniform_real01 (rng_ e)) as [u g]. cbn [fst]. intros ->.
  unfold selectRandomAction. step_M. unfold random, uniform_int, draw. step_M.
  eexists _, _. split; [by destruct e|]. change (3 - 0 + 1)%Z with 4%Z.
  match goal with
  | |- (0 <= 0 + ?r mod 4 <= 3)%Z =>
      pose proof (Z.mod_pos_bound r 4 ltac:(lia)); lia
  end.
Qed.

(** X2: while the exploration rate is 1.0 or more, [getAction] never
    consults the network: for every state, of any width, and even after
    [shutdown], it returns one of the four random actions with expected
    reward 0, and it cannot throw. *)
Theorem getAction_explores_at_one (state : State) (e : ReinforcementLearningEngine) :
  (1 <= epsilon_ e)%Q ->
  exists g i,
    getAction state e
    = Returns (set_rng_ g (step_counted e))
        (newAction ("action_" +:+ pretty i) [inject_Z i])
    /\ (0 <= i <= 3)%Z.
Proof.
  intros Heps. apply getAction_explores.
  pose proof (uniform_real01_range (rng_ e)) as Hu. apply Qltb_lt. lra.
Qed.

Lemma getAction_explores_at_one_witness :
  exists g i,
    getAction (newState [] "no features") fixture
    = Returns (set_rng_ g (step_counted fixture))
        (newAction ("action_" +:+ pretty i) [inject_Z i])
    /\ (0 <= i <= 3)%Z.
Proof.
  apply (getAction_explores_at_one (newState [] "no features") fixture).
  vm_compute. discriminate.
Defined.

Lemma max_element_from_first (rest pre : list Q) (largest : N) (lv : Q) :
  pre !! N.to_nat largest = Some lv ->
  (forall j y, (j < N.to_nat largest)%nat -> pre !! j = Some y -> (y < lv)%Q) ->
  (forall y, y ∈ pre -> (y <= lv)%Q) ->
  let best := max_element_from largest lv (size pre) rest in
  exists m,
    (pre ++ rest) !! N.to_nat best = Some m
    /\ forall j y, (j < N.to_nat best)%nat -> (pre ++ rest) !! j = Some y -> (y < m)%Q.
Proof.
  revert pre largest lv.
  induction rest as [|x rest IH]; intros pre largest lv Hl Hfirst Hmax; cbn zeta.
  - exists lv. rewrite app_nil_r. done.
  - cbn [max_element_from].
    replace (size pre + 1)%N with (size (pre ++ [x])) by (rewrite size_app; done).
    replace (pre ++ x :: rest) with ((pre ++ [x]) ++ rest) by (by rewrite <- app_assoc).
    destruct (Qltb lv x) eqn:Hlt.
    + apply Qltb_lt in Hlt. apply IH.
      * unfold size. rewrite Nat2N.id. by rewrite lookup_app_r, Nat.sub_diag.
      * unfold size. rewrite Nat2N.id. intros j y Hj Hy.
        rewrite lookup_app_l in Hy by done.
        assert (y <= lv)%Q by (apply Hmax; by eapply list_elem_of_lookup_2). lra.
      * intros y [Hy|Hy]%elem_of_app.
        -- specialize (Hmax y Hy). lra.
        -- apply list_elem_of_singleton in Hy as ->. lra.
    + apply Qltb_ge in Hlt. apply IH.
      * rewrite lookup_app_l; [done|]. by eapply lookup_lt_Some.
      * intros j y Hj Hy. apply (Hfirst j y Hj).
        rewrite lookup_app_l in Hy; [done|].
        apply lookup_lt_Some in Hl. lia.
      * intros y [Hy|Hy]%elem_of_app.
        -- by apply Hmax.
        -- by apply list_elem_of_singleton in Hy as ->.
Qed.

(** [std::max_element] returns the first of the greatest elements. *)
Lemma max_element_first (v : list Q) :
  v <> [] ->
  exists m,
    v !! N.to_nat (max_element v) = Some m
    /\ forall j y, (j < N.to_nat (max_element v))%nat -> v !! j = Some y -> (y < m)%Q.
Proof.
  destruct v as [|x rest]; [done|]. intros _. cbn [max_element].
  apply (max_element_from_first rest [x] 0 x); [done|..].
  - intros j y Hj. lia.
  - intros y ->%list_elem_of_singleton. lra.
Qed.



(** X4: the failures of a greedy [getAction] (exploration rate 0 or
    less).  After [shutdown] has dropped the live network the call
    dereferences a null pointer.  With a live network, unless the state
    has the input width, the call throws "Input size mismatch", and
    the step has been counted all the same. *)
Theorem getAction_greedy_failures (state : State) (e : ReinforcementLearningEngine) :
  (epsilon_ e <= 0)%Q ->
  match q_network_ e with
  | None => getAction state e = Undefined
  | Some q =>
      size (features state) = input_size_ q
      \/ exists g,
           getAction state e
           = Throws (set_rng_ g (step_counted e))
               (invalid_argument "Input size mismatch")
  end.
Proof.
  intros Heps.
  pose proof (uniform_real01_range (rng_ e)) as Hu.
  rewrite getAction_eq.
  destruct (uniform_real01 (rng_ e)) as [u g]. cbn [fst] in Hu.
  assert (Qltb u (epsilon_ e) = false) as -> by (apply Qltb_ge; lra).
  destruct (q_network_ e) as [q|] eqn:Hq.
  - destruct (decide (size (features state) = input_size_ q)) as [|Hne]; [by left|].
    right. exists g. unfold selectBestAction. step_M.
    assert (q_network_ (set_rng_ g (step_counted e)) = Some q) as -> by (by destruct e).
    cbn [deref]. step_M. unfold predict. rewrite forward_mismatch by done.
    reflexivity.
  - unfold selectBestAction. step_M.
    assert (q_network_ (set_rng_ g (step_counted e)) = None) as -> by (by destruct e).
    reflexivity.
Qed.

Lemma getAction_greedy_failures_witness :
  let e := set_epsilon_ 0 fixture in
  let state := newState [0.5; 0.3]%Q "two features" in
  match q_network_ e with
  | None => getAction state e = Undefined
  | Some q =>
      size (features state) = input_size_ q
      \/ exists g,
           getAction state e
           = Throws (set_rng_ g (step_counted e))
               (invalid_argument "Input size mismatch")
  end.
Proof.
  intros e state. apply (getAction_greedy_failures state e).
  vm_compute. discriminate.
Defined.

(** ** What no call does to the networks *)

Lemma backward_frozen (net net' : QNetwork) (input target : list Q) :
  backward net input target = Value net' -> frozen net' = frozen net.
Proof.
  unfold backward.
  destruct (forward net input); step_result; try done.
  destruct (mapM _ (range (output_size_ net))); step_result; try done.
  destruct (at_ (weights_ net) 1) as [w1| |] eqn:Hw1; step_result; try done.
  destruct (mapM _ (range (size w1))); step_result; try done.
  intros [= <-]. unfold frozen. cbn.
  by rewrite list_lookup_insert_ne.
Qed.

Lemma train_frozen (net net' : QNetwork) (state target : list Q) :
  train net state target = Value net' -> frozen net' = frozen net.
Proof.
  unfold train.
  destruct (forward net state); step_result; try done.
  destruct (foldM _ _ _); step_result; try done.
  apply backward_frozen.
Qed.

#[global] Instance networks_kept_preorder : PreOrder networks_kept.
Proof.
  split.
  - intros e. split; [by left|]. destruct (q_network_ e) as [q|]; [|done]. by exists q.
  - intros e1 e2 e3 [Ht12 Hq12] [Ht23 Hq23]. split.
    + destruct Ht23 as [->| ->]; [done|by right].
    + destruct (q_network_ e3) as [q3|]; [|done].
      destruct Hq23 as (q2 & Hq2 & Hf23). rewrite Hq2 in Hq12.
      destruct Hq12 as (q1 & Hq1 & Hf12). exists q1. split; [done|congruence].
Qed.

Lemma networks_kept_frame (e e' : ReinforcementLearningEngine) :
  target_network_ e' = target_network_ e ->
  q_network_ e' = q_network_ e ->
  networks_kept e e'.
Proof.
  intros Ht Hq. split; [by left|]. rewrite Hq.
  destruct (q_network_ e) as [q|]; [|done]. by exists q.
Qed.

Lemma trainOnBatch_body_networks (idx : N) : stays networks_kept (trainOnBatch_body idx).
Proof.
  intros e. unfold trainOnBatch_body. step_M.
  destruct (at_ (replay_buffer_ e) idx) as [x| |]; cbn [lift]; step_M;
    [|cbn; reflexivity|exact I].
  destruct (q_network_ e) as [q|] eqn:Hq; cbn [deref]; step_M; [|exact I].
  destruct (predict q _) as [cur| |]; cbn [lift]; step_M; [|cbn; reflexivity|exact I].
  destruct (target_network_ e) as [tn|] eqn:Htn; cbn [deref]; step_M; [|exact I].
  destruct (predict tn _) as [next| |]; cbn [lift]; step_M; [|cbn; reflexivity|exact I].
  assert (forall (target_q : Q),
    match engine_after
      (match lift (at_ (parameters (action x)) 0) e with
       | Returns e' a =>
           match lift (size_of_double a) e' with
           | Returns e'0 a0 =>
               match lift (train q (features (state x))
                             (if (a0 <? size cur)%N
                              then <[N.to_nat a0:=target_q]> cur else cur)) e'0 with
               | Returns e'1 a1 => Returns (set_q_network_ (Some a1) e'1) ()
               | Throws e'1 x0 => Throws e'1 x0
               | Undefined => Undefined
               end
           | Throws e'0 x0 => Throws e'0 x0
           | Undefined => Undefined
           end
       | Throws e' x0 => Throws e' x0
       | Undefined => Undefined
       end) with
    | Some e' => networks_kept e e'
    | None => True
    end) as Hrest.
  { intros target_q.
    destruct (at_ (parameters (action x)) 0) as [p0| |]; cbn [lift];
      [|cbn; reflexivity|exact I].
    destruct (size_of_double p0) as [a| |]; cbn [lift]; [|cbn; reflexivity|exact I].
    destruct (train q _ _) as [q'| |] eqn:Htrain; cbn [lift];
      [|cbn; reflexivity|exact I].
    cbn. split; [left; by destruct e|].
    assert (q_network_ (set_q_network_ (Some q') e) = Some q') as -> by (by destruct e).
    exists q. split; [done|]. by eapply train_frozen. }
  destruct (done x); step_M; [apply Hrest|].
  destruct (at_ next (max_element next)) as [m| |]; cbn [lift]; step_M;
    [apply Hrest|cbn; reflexivity|exact I].
Qed.

Lemma networks_kept_drop_q (e : ReinforcementLearningEngine) :
  networks_kept e (set_q_network_ None e).
Proof. split; [left|]; by destruct e. Qed.

Lemma networks_kept_drop_target (e : ReinforcementLearningEngine) :
  networks_kept e (set_target_network_ None e).
Proof.
  split; [right; by destruct e|].
  assert (q_network_ (set_target_network_ None e) = q_network_ e) as -> by (by destruct e).
  destruct (q_network_ e) as [q|]; [|done]. by exists q.
Qed.

Ltac networks_kept_setter :=
  first [ apply networks_kept_drop_q
        | apply networks_kept_drop_target
        | apply networks_kept_frame;
          match goal with e : ReinforcementLearningEngine |- _ => by destruct e end ].

Lemma call_networks_kept (c : Call) : stays networks_kept (call c).
Proof.
  destruct c; cbn [call];
    unfold initialize, getAction, selectRandomAction, selectBestAction,
      storeExperience, learn, trainOnBatch, sampleBatch, updateTargetNetwork,
      startEpisode, endEpisode, setExplorationRate, getAverageReward,
      getTotalSteps, getTotalEpisodes, getCurrentExplorationRate,
      emergencyStop, resetLearning, shutdown, ignore;
    repeat first
      [ apply trainOnBatch_body_networks
      | apply stays_get; apply _
      | apply stays_lift; apply _
      | apply stays_deref; apply _
      | apply stays_ret; apply _
      | apply stays_modify; intros; networks_kept_setter
      | apply stays_random; intros; networks_kept_setter
      | apply stays_mapM; [apply _|intros ?]
      | apply stays_foldM; [apply _|intros ? ?]
      | apply stays_bind; [apply _| |intros ?]
      | match goal with |- stays _ (if ?b then _ else _) => destruct b end
      | match goal with |- stays _ (match ?l with [] => _ | _ :: _ => _ end) =>
          destruct l end
      | (intros ?; exact I) ].
Qed.

Lemma calls_networks_kept (cs : list Call) : stays networks_kept (calls cs).
Proof.
  unfold calls. apply stays_foldM; [apply _|]. intros _ c. apply call_networks_kept.
Qed.

(** X5: no sequence of public calls writes the target network or
    anything of the live network but its hidden-to-output weights.  In
    the engine a sequence of calls leaves, however it ends, the target
    network is the one it started with, or null after a [shutdown]; the
    live network, unless null, has the sizes, the input-to-hidden
    weights, the biases and the learning rate it started with. *)
Theorem calls_keep_networks (cs : list Call) (e e' : ReinforcementLearningEngine) :
  engine_after (calls cs e) = Some e' ->
  (target_network_ e' = target_network_ e \/ target_network_ e' = None)
  /\ (q_network_ e' = None
      \/ exists q q', q_network_ e = Some q /\ q_network_ e' = Some q'
                      /\ weights_ q' !! 0%nat = weights_ q !! 0%nat
                      /\ biases_ q' = biases_ q
                      /\ input_size_ q' = input_size_ q
                      /\ hidden_size_ q' = hidden_size_ q
                      /\ output_size_ q' = output_size_ q
                      /\ learning_rate_ q' = learning_rate_ q).
Proof.
  intros He'. pose proof (calls_networks_kept cs e) as Hk. rewrite He' in Hk.
  destruct Hk as [Ht Hq]. split; [exact Ht|].
  destruct (q_network_ e') as [q'|]; [right|by left].
  destruct Hq as (q & Hq & Hfr). exists q, q'.
  unfold frozen in Hfr. injection Hfr as ? ? ? ? ? ?. by repeat split.
Qed.

Lemma calls_keep_networks_witness :
  exists e',
    engine_after
      (calls [CallGetAction fixture_state; store_call fixture_experience;
              CallLearn; CallShutdown] fixture) = Some e'
    /\ (target_network_ e' = target_network_ fixture \/ target_network_ e' = None)
    /\ (q_network_ e' = None
        \/ exists q q', q_network_ fixture = Some q /\ q_network_ e' = Some q'
                        /\ weights_ q' !! 0%nat = weights_ q !! 0%nat
                        /\ biases_ q' = biases_ q
                        /\ input_size_ q' = input_size_ q
                        /\ hidden_size_ q' = hidden_size_ q
                        /\ output_size_ q' = output_size_ q
                        /\ learning_rate_ q' = learning_rate_ q).
Proof.
  eexists. split; [vm_compute; reflexivity|].
  apply (calls_keep_networks
           [CallGetAction fixture_state; store_call fixture_experience;
            CallLearn; CallShutdown] fixture).
  vm_compute. reflexivity.
Defined.

(** X6: [shutdown] is final.  Whatever calls follow it, both networks
    stay null, and [initialize] returns false and changes nothing: it
    cannot bring the engine back. *)
Theorem shutdown_is_final (cs : list Call) (e e' : ReinforcementLearningEngine) :
  engine_after ((shutdown ≫= fun _ => calls cs) e) = Some e' ->
  q_network_ e' = None /\ target_network_ e' = None
  /\ initialize e' = Returns e' false.
Proof.
  rewrite M_bind_eq.
  assert (exists e1, shutdown e = Returns e1 tt
                     /\ q_network_ e1 = None /\ target_network_ e1 = None)
    as (e1 & -> & Hq1 & Ht1).
  { eexists. split; [reflexivity|]. by destruct e. }
  intros He'. pose proof (calls_networks_kept cs e1) as Hk.
  rewrite He' in Hk. destruct Hk as [Ht Hq].
  assert (q_network_ e' = None) as Hq'.
  { destruct (q_network_ e') as [q'|]; [|done].
    destruct Hq as (q & Hq & _). congruence. }
  assert (target_network_ e' = None) as Ht' by (destruct Ht; congruence).
  split; [done|]. split; [done|].
  unfold initialize. step_M. by rewrite Hq'.
Qed.

Lemma shutdown_is_final_witness :
  exists e',
    engine_after
      ((shutdown ≫= fun _ =>
          calls [CallInitialize; store_call fixture_experience; CallLearn])
         fixture) = Some e'
    /\ q_network_ e' = None /\ target_network_ e' = None
    /\ initialize e' = Returns e' false.
Proof.
  eexists. split; [vm_compute; reflexivity|].
  apply (shutdown_is_final
           [CallInitialize; store_call fixture_experience; CallLearn] fixture).
  vm_compute. reflexivity.
Defined.

(** ** The counters *)

#[global] Instance same_counts_preorder : PreOrder same_counts.
Proof.
  split.
  - by intros e.
  - intros e1 e2 e3 [H1 H2] [H3 H4]. split; congruence.
Qed.

Lemma same_counts_frame (e e' : ReinforcementLearningEngine) :
  total_steps_ e' = total_steps_ e -> total_episodes_ e' = total_episodes_ e ->
  same_counts e e'.
Proof. by split. Qed.

Ltac same_counts_setter :=
  apply same_counts_frame;
  match goal with e : ReinforcementLearningEngine |- _ => by destruct e end.

(** The calls that touch neither [total_steps_] nor [total_episodes_]. *)
Lemma call_same_counts (c : Call) :
  resets_counters c = false -> is_getAction c = false -> is_startEpisode c = false ->
  stays same_counts (call c).
Proof.
  destruct c; try discriminate; intros _ _ _; cbn [call];
    unfold storeExperience, learn, trainOnBatch, sampleBatch, trainOnBatch_body,
      updateTargetNetwork, endEpisode, setExplorationRate, getAverageReward,
      getTotalSteps, getTotalEpisodes, getCurrentExplorationRate,
      emergencyStop, shutdown, ignore;
    repeat first
      [ apply stays_get; apply _
      | apply stays_lift; apply _
      | apply stays_deref; apply _
      | apply stays_ret; apply _
      | apply stays_modify; intros; same_counts_setter
      | apply stays_random; intros; same_counts_setter
      | apply stays_mapM; [apply _|intros ?]
      | apply stays_foldM; [apply _|intros ? ?]
      | apply stays_bind; [apply _| |intros ?]
      | match goal with |- stays _ (if ?b then _ else _) => destruct b end
      | match goal with |- stays _ (match ?l with [] => _ | _ :: _ => _ end) =>
          destruct l end
      | (intros ?; exact I) ].
Qed.

Lemma count_cons (p : Call -> bool) (c : Call) (cs : list Call) :
  count p (c :: cs) = ((if p c then 1 else 0) + count p cs)%N.
Proof.
  unfold count. rewrite filter_cons.
  destruct (p c); [rewrite decide_True by done|rewrite decide_False by done];
    unfold size; cbn [length]; lia.
Qed.

Lemma add_sz_add (a n : N) :
  add_sz (add_sz a n) 1 = add_sz a (n + 1).
Proof.
  unfold add_sz. rewrite N.Div0.add_mod_idemp_l. f_equal. lia.
Qed.

(** One call that does not reset the counters. *)
Lemma call_counts (c : Call) (e e' : ReinforcementLearningEngine) :
  resets_counters c = false ->
  engine_after (call c e) = Some e' ->
  total_steps_ e' = (if is_getAction c then add_sz (total_steps_ e) 1
                     else total_steps_ e)
  /\ total_episodes_ e' = (if is_startEpisode c then add_sz (total_episodes_ e) 1
                           else total_episodes_ e).
Proof.
  intros Hr He'.
  destruct (is_getAction c) eqn:Hg; [|destruct (is_startEpisode c) eqn:Hs].
  - destruct c as [|s| | | | | | | | | | | | ]; try discriminate.
    cbn [call is_startEpisode] in *.
    unfold ignore in He'. rewrite M_bind_eq in He'.
    destruct (getAction s e) as [e1 a|e1 x|] eqn:Hga; cbn in He'; try done;
      injection He' as <-;
      (assert (rng_only (step_counted e) e1) as Heq
         by (apply (getAction_rng_only s); by rewrite Hga));
      unfold rng_only in Heq;
      rewrite Heq; split; by destruct e.
  - destruct c; try discriminate. cbn in He'. injection He' as <-. by destruct e.
  - pose proof (call_same_counts c Hr Hg Hs e) as Hsame. rewrite He' in Hsame.
    exact Hsame.
Qed.

Lemma bookkeeping_counters (e : ReinforcementLearningEngine) :
  total_steps_ (bookkeeping e) = total_steps_ e
  /\ total_episodes_ (bookkeeping e) = total_episodes_ e
  /\ update_frequency_ (bookkeeping e) = update_frequency_ e
  /\ steps_since_update_ (bookkeeping e) =
       (if (update_frequency_ e <=? add_sz (steps_since_update_ e) 1)%N
        then 0%N else add_sz (steps_since_update_ e) 1).
Proof.
  destruct e as [q tn buf cap bs eps dec emin gam lr uf ssu ts te rng].
  unfold bookkeeping, sync_counter, decay_epsilon. cbn zeta.
  unfold_setters.
  destruct (uf <=? add_sz ssu 1)%N;
    unfold_setters; by destruct (Qltb emin eps).
Qed.

Lemma add_sz_lt (a b : N) : (add_sz a b < SIZE_MODULUS)%N.
Proof. unfold add_sz. by apply N.mod_lt. Qed.

Ltac counters_fields :=
  unfold counters_in_range, invariant, configured, step_counted in *; unfold_setters;
  repeat match goal with H : _ /\ _ |- _ => destruct H end; subst;
  repeat split;
  first [ done | apply add_sz_lt | lia ].

Lemma call_counters_in_range (c : Call) (e e' : ReinforcementLearningEngine) :
  invariant e -> counters_in_range e ->
  engine_after (call c e) = Some e' -> counters_in_range e'.
Proof.
  intros Hinv Hcnt.
  destruct c as [|s|s a r s' d now| | | | | | | | | | | ]; cbn [call].
  - (* initialize *)
    unfold initialize. step_M.
    destruct (negb _ || negb _); step_M; cbn; intros [= <-]; [done|].
    destruct e. counters_fields.
  - (* getAction *)
    unfold ignore. rewrite M_bind_eq.
    destruct (getAction s e) as [e1 x|e1 x|] eqn:Hga; cbn; try done; intros [= <-];
      (assert (rng_only (step_counted e) e1) as Heq
         by (apply (getAction_rng_only s); by rewrite Hga));
      unfold rng_only in Heq; rewrite Heq;
      destruct e; counters_fields.
  - (* storeExperience *)
    rewrite storeExperience_eq. cbn zeta.
    destruct (buffer_capacity_ e <=? size (replay_buffer_ e))%N.
    + destruct (replay_buffer_ e); [done|]. cbn. intros [= <-].
      destruct e. counters_fields.
    + cbn. intros [= <-]. destruct e. counters_fields.
  - (* learn *)
    rewrite learn_eq.
    destruct (size (replay_buffer_ e) <? batch_size_ e)%N; [by intros [= <-]|].
    pose proof (trainOnBatch_stays e) as Hs.
    destruct (trainOnBatch e) as [e1 []|e1 x|]; cbn in *; intros [= <-].
    + unfold counters_in_range at 1.
      destruct (bookkeeping_counters e1) as (-> & -> & -> & ->).
      rewrite Hs. destruct e as [q tn buf cap bs eps dec emin gam lr uf ssu ts te rng].
      unfold counters_in_range, invariant, configured in *. unfold_setters.
      destruct Hcnt as (? & ? & ?). destruct Hinv as ((_ & _ & _ & _ & _ & ->) & _).
      repeat split; try done.
      rewrite add_sz_small by (unfold SIZE_MODULUS; lia).
      destruct (100 <=? ssu + 1)%N eqn:Hf; [lia|].
      by apply N.leb_gt in Hf.
    + rewrite Hs. destruct e. counters_fields.
  - unfold startEpisode. step_M. cbn. intros [= <-]. destruct e. counters_fields.
  - cbn. by intros [= <-].
  - unfold setExplorationRate. step_M. cbn. intros [= <-]. destruct e. counters_fields.
  - unfold getAverageReward. step_M.
    destruct (replay_buffer_ e); step_M; cbn; by intros [= <-].
  - cbn. by intros [= <-].
  - cbn. by intros [= <-].
  - cbn. by intros [= <-].
  - unfold emergencyStop. step_M. cbn. intros [= <-]. destruct e. counters_fields.
  - unfold resetLearning. step_M. cbn. intros [= <-]. destruct e. counters_fields.
  - unfold shutdown. step_M. cbn. intros [= <-]. destruct e. counters_fields.
Qed.

Lemma reachable_counters (e : ReinforcementLearningEngine) :
  reachable e -> counters_in_range e.
Proof.
  induction 1 as [|e c e' Hreach IH Hcall].
  - unfold counters_in_range. cbn. by repeat split.
  - eapply call_counters_in_range; [by apply reachable_invariant| |]; done.
Qed.

(** X7: in every reachable engine the counter of steps since the last
    target update is below the update frequency (100): a call of [learn]
    that takes it there resets it to 0 before it returns. *)
Theorem steps_since_update_below_frequency (e : ReinforcementLearningEngine) :
  reachable e ->
  (steps_since_update_ e < update_frequency_ e)%N
  /\ update_frequency_ e = 100%N.
Proof.
  intros Hreach. split.
  - by apply reachable_counters.
  - by apply reachable_invariant in Hreach as ((_ & _ & _ & _ & _ & ?) & _).
Qed.

Lemma steps_since_update_below_frequency_witness :
  (steps_since_update_ fixture_full < update_frequency_ fixture_full)%N
  /\ update_frequency_ fixture_full = 100%N.
Proof.
  apply (steps_since_update_below_frequency fixture_full).
  apply fixture_full_reachable.
Defined.

Lemma add_sz_assoc_one (a n : N) (b : bool) :
  add_sz (if b then add_sz a 1 else a) n = add_sz a ((if b then 1 else 0) + n).
Proof.
  destruct b; [|done]. unfold add_sz.
  rewrite N.Div0.add_mod_idemp_l. f_equal. lia.
Qed.

(** X8: [total_steps_] counts the calls of [getAction] and
    [total_episodes_] the calls of [startEpisode], modulo 2^64.  Along a
    sequence of calls that all return and among which there is no
    [initialize] and no [resetLearning], no other call changes either
    counter; in particular [storeExperience] and [learn] count no
    step. *)
Theorem calls_count (cs : list Call) (e e' : ReinforcementLearningEngine) :
  reachable e ->
  count resets_counters cs = 0%N ->
  calls cs e = Returns e' tt ->
  total_steps_ e' = add_sz (total_steps_ e) (count is_getAction cs)
  /\ total_episodes_ e' = add_sz (total_episodes_ e) (count is_startEpisode cs).
Proof.
  revert e. unfold calls.
  induction cs as [|c cs IH]; intros e Hreach Hres Hrun.
  - cbn in Hrun. injection Hrun as <-.
    destruct (reachable_counters e Hreach) as (Hs & He & _).
    change (count is_getAction []) with 0%N.
    change (count is_startEpisode []) with 0%N.
    unfold add_sz. rewrite !N.add_0_r, !N.mod_small; done.
  - rewrite count_cons in Hres.
    assert (resets_counters c = false) as Hc by (destruct (resets_counters c); [lia|done]).
    rewrite Hc in Hres.
    cbn [foldM] in Hrun. rewrite M_bind_eq in Hrun.
    destruct (call c e) as [e1 []|e1 x|] eqn:Hcall; try done.
    destruct (call_counts c e e1 Hc) as [Hsteps Hepis]; [by rewrite Hcall|].
    destruct (IH e1) as [IHs IHe]; [|lia|done|].
    { eapply reachable_call; [done|by rewrite Hcall]. }
    rewrite !count_cons, IHs, IHe, Hsteps, Hepis.
    by rewrite !add_sz_assoc_one.
Qed.

Lemma calls_count_witness :
  let cs := [CallStartEpisode; CallGetAction fixture_state;
             store_call fixture_experience; CallLearn;
             CallGetAction fixture_state; CallEndEpisode 10.5] in
  exists e',
    calls cs fixture = Returns e' tt
    /\ total_steps_ e' = add_sz (total_steps_ fixture) (count is_getAction cs)
    /\ total_episodes_ e' = add_sz (total_episodes_ fixture) (count is_startEpisode cs).
Proof.
  intros cs. eexists. split; [vm_compute; reflexivity|].
  apply (calls_count cs fixture).
  - apply reachable_new.
  - vm_compute. reflexivity.
  - vm_compute. reflexivity.
Defined.

(** ** learn *)

(** X9: what [learn] does to the exploration rate of a reachable
    engine, however the call ends.  It never raises it; it changes it
    only from above [epsilon_min_] (0.01), and then not to 0.00995 or
    below: the rate can pass under the minimum by one decay factor at
    most, and once it is at or below the minimum it stays as it is. *)
Theorem learn_epsilon_schedule (e e' : ReinforcementLearningEngine) :
  reachable e ->
  engine_after (learn e) = Some e' ->
  (epsilon_ e' <= epsilon_ e)%Q
  /\ (epsilon_ e' = epsilon_ e
      \/ (0.01 < epsilon_ e)%Q /\ (0.00995 < epsilon_ e')%Q).
Proof.
  intros Hinv%reachable_invariant. rewrite learn_eq.
  destruct (size (replay_buffer_ e) <? batch_size_ e)%N.
  { intros [= <-]. split; [lra|by left]. }
  pose proof (trainOnBatch_stays e) as Hs.
  destruct (trainOnBatch e) as [e1 []|e1 x|]; cbn in *; intros [= <-].
  - pose proof (invariant_trained_only _ _ Hs Hinv) as ((_ & _ & Hd & Hm & _) & _ & Heps).
    rewrite bookkeeping_epsilon, Hd, Hm.
    assert (epsilon_ e1 = epsilon_ e) as <- by (rewrite Hs; by destruct e).
    destruct (Qltb 0.01 (epsilon_ e1)) eqn:Hlt;
      [apply Qltb_lt in Hlt|apply Qltb_ge in Hlt].
    + split; [lra|]. right. split; lra.
    + split; [lra|]. by left.
  - assert (epsilon_ e1 = epsilon_ e) as <- by (rewrite Hs; by destruct e).
    split; [lra|by left].
Qed.

Lemma learn_epsilon_schedule_witness :
  exists e',
    learn fixture_full = Returns e' tt
    /\ epsilon_ fixture_full = 1%Q
    /\ epsilon_ e' = (1 * 0.995)%Q
    /\ (epsilon_ e' <= epsilon_ fixture_full)%Q
    /\ (epsilon_ e' = epsilon_ fixture_full
        \/ (0.01 < epsilon_ fixture_full)%Q /\ (0.00995 < epsilon_ e')%Q).
Proof.
  destruct fixture_full_ready as [Hr Hfull].
  destruct (learn_total fixture_full Hr Hfull) as (e1 & T1 & Hlearn).
  exists (bookkeeping e1). split; [exact Hlearn|]. split; [reflexivity|].
  split.
  { apply trained_frame in T1 as (_ & E1 & M1 & _ & _ & D1 & _).
    rewrite bookkeeping_epsilon, E1, M1, D1. reflexivity. }
  apply (learn_epsilon_schedule fixture_full (bookkeeping e1)).
  - apply fixture_full_reachable.
  - by rewrite Hlearn.
Defined.

Lemma mapM_random_length {A B} (dist : mt19937 -> B * mt19937) (P : B -> Prop)
    (l : list A) (e : ReinforcementLearningEngine) :
  (forall g, P (dist g).1) ->
  exists g ys, mapM (fun _ => random dist) l e = Returns (set_rng_ g e) ys
               /\ length ys = length l /\ Forall P ys.
Proof.
  intros HP. revert e. induction l as [|x l IH]; intros e.
  - exists (rng_ e), []. by rewrite set_rng_id.
  - cbn [mapM]. step_M. unfold random at 1.
    pose proof (HP (rng_ e)) as Hy. destruct (dist (rng_ e)) as [y g1].
    step_M.
    destruct (IH (set_rng_ g1 e)) as (g2 & ys & -> & Hlen & Hys). step_M.
    exists g2, (y :: ys). split; [by destruct e|]. split; [cbn; by rewrite Hlen|].
    by constructor.
Qed.

Lemma sampleBatch_returns (e : ReinforcementLearningEngine) :
  (0 < size (replay_buffer_ e) < SIZE_MODULUS)%N ->
  exists g idxs,
    sampleBatch e = Returns (set_rng_ g e) idxs
    /\ length idxs = N.to_nat (batch_size_ e)
    /\ Forall (fun idx => (idx < size (replay_buffer_ e))%N) idxs.
Proof.
  intros Hsz. unfold sampleBatch. step_M.
  edestruct (mapM_random_length
               (uniform_size 0 (sub_sz (size (replay_buffer_ e)) 1))
               (fun idx => (idx < size (replay_buffer_ e))%N)
               (range (batch_size_ e)) e) as (g & idxs & Hrun & Hlen & Hall).
  { intros g. unfold uniform_size, draw. cbn.
    rewrite sub_sz_one by done.
    replace (size (replay_buffer_ e) - 1 - 0 + 1)%N with (size (replay_buffer_ e)) by lia.
    apply N.mod_lt. lia. }
  exists g, idxs. split; [exact Hrun|]. split; [|exact Hall].
  by rewrite Hlen, length_range.
Qed.

(** X10: [sampleBatch] on a non-empty replay buffer returns exactly
    [batch_size_] indices, each of them a position of the buffer, and
    changes nothing but the random number generator. *)
Theorem sampleBatch_indices (e : ReinforcementLearningEngine) :
  (0 < size (replay_buffer_ e) < SIZE_MODULUS)%N ->
  exists g idxs,
    sampleBatch e = Returns (set_rng_ g e) idxs
    /\ size idxs = batch_size_ e
    /\ Forall (fun idx => (idx < size (replay_buffer_ e))%N) idxs.
Proof.
  intros (g & idxs & Hrun & Hlen & Hall)%sampleBatch_returns.
  exists g, idxs. split; [exact Hrun|]. split; [|exact Hall].
  unfold size. rewrite Hlen. lia.
Qed.

Lemma sampleBatch_indices_witness :
  exists g idxs,
    sampleBatch fixture_full = Returns (set_rng_ g fixture_full) idxs
    /\ size idxs = batch_size_ fixture_full
    /\ Forall (fun idx => (idx < size (replay_buffer_ fixture_full))%N) idxs.
Proof.
  apply (sampleBatch_indices fixture_full). vm_compute. split; reflexivity.
Defined.

(** With a batch of states that do not have the input width of the
    live network, [trainOnBatch] throws at the first sampled
    transition. *)
Lemma trainOnBatch_mismatch (e : ReinforcementLearningEngine) (q : QNetwork) :
  q_network_ e = Some q ->
  (0 < batch_size_ e)%N ->
  (0 < size (replay_buffer_ e) < SIZE_MODULUS)%N ->
  Forall (fun x => size (features (state x)) <> input_size_ q) (replay_buffer_ e) ->
  exists g,
    trainOnBatch e = Throws (set_rng_ g e) (invalid_argument "Input size mismatch").
Proof.
  intros Hq Hbatch Hfit Hall. unfold trainOnBatch. step_M.
  destruct (sampleBatch_returns e) as (g & idxs & -> & Hlen & Hidxs); [lia|].
  exists g. destruct idxs as [|idx idxs]; [cbn in Hlen; lia|].
  apply Forall_cons in Hidxs as [Hidx _].
  cbn [foldM]. step_M. unfold trainOnBatch_body. step_M.
  assert (replay_buffer_ (set_rng_ g e) = replay_buffer_ e) as -> by (by destruct e).
  destruct (at_Value (replay_buffer_ e) idx Hidx) as [x Hx]. rewrite Hx.
  cbn [lift]. step_M.
  assert (q_network_ (set_rng_ g e) = Some q) as -> by (by destruct e).
  cbn [deref]. step_M. unfold predict. rewrite forward_mismatch; [reflexivity|].
  apply at_lookup in Hx. eapply Forall_lookup_1 in Hall; [|exact Hx]. exact Hall.
Qed.

(** X11: an engine whose stored states do not have the input width of
    its live network cannot learn.  Once a batch is stored, [learn]
    throws "Input size mismatch" at the first sampled transition: the
    live network is not trained, the counter of steps since the last
    update is not incremented and the exploration rate is not decayed;
    only random numbers have been drawn. *)
Theorem learn_throws_on_width_mismatch (e : ReinforcementLearningEngine)
    (q : QNetwork) :
  q_network_ e = Some q ->
  (0 < batch_size_ e)%N ->
  (batch_size_ e <= size (replay_buffer_ e))%N ->
  (size (replay_buffer_ e) < SIZE_MODULUS)%N ->
  Forall (fun x => size (features (state x)) <> input_size_ q) (replay_buffer_ e) ->
  exists g,
    learn e = Throws (set_rng_ g e) (invalid_argument "Input size mismatch").
Proof.
  intros Hq Hbatch Hfull Hfit Hall. rewrite learn_eq.
  apply N.ltb_ge in Hfull as Hfull'. rewrite Hfull'.
  destruct (trainOnBatch_mismatch e q) as [g ->]; [done|done|lia|done|].
  by exists g.
Qed.

Lemma learn_throws_on_width_mismatch_witness :
  exists g,
    learn core_engine_full
    = Throws (set_rng_ g core_engine_full) (invalid_argument "Input size mismatch").
Proof.
  apply (learn_throws_on_width_mismatch core_engine_full
           (newQNetwork 10 128 4 0.001 (q_dist fixture_entropy)
              (q_dist2 fixture_entropy))).
  - reflexivity.
  - vm_compute. reflexivity.
  - vm_compute. discriminate.
  - vm_compute. reflexivity.
  - change (replay_buffer_ core_engine_full) with (replicate 32 fixture_experience).
    apply Forall_replicate. vm_compute. discriminate.
Defined.

(** * The utility functions *)

Lemma minmax_element_from_spec (rest pre : list Q) (min_pos max_pos : N)
    (min_val max_val : Q) :
  pre !! N.to_nat min_pos = Some min_val ->
  pre !! N.to_nat max_pos = Some max_val ->
  (forall y, y ∈ pre -> (min_val <= y <= max_val)%Q) ->
  let r := minmax_element_from min_pos min_val max_pos max_val (size pre) rest in
  exists mn mx,
    (pre ++ rest) !! N.to_nat r.1 = Some mn
    /\ (pre ++ rest) !! N.to_nat r.2 = Some mx
    /\ forall y, y ∈ pre ++ rest -> (mn <= y <= mx)%Q.
Proof.
  revert pre min_pos max_pos min_val max_val.
  induction rest as [|x rest IH]; intros pre min_pos max_pos min_val max_val Hmin Hmax Hall;
    cbn zeta.
  - exists min_val, max_val. rewrite app_nil_r. done.
  - cbn [minmax_element_from].
    replace (size pre + 1)%N with (size (pre ++ [x])) by (rewrite size_app; done).
    replace (pre ++ x :: rest) with ((pre ++ [x]) ++ rest) by (by rewrite <- app_assoc).
    assert ((pre ++ [x]) !! N.to_nat (size pre) = Some x) as Hx.
    { unfold size. rewrite Nat2N.id. by rewrite lookup_app_r, Nat.sub_diag. }
    assert (forall p v, pre !! N.to_nat p = Some v ->
                        (pre ++ [x]) !! N.to_nat p = Some v) as Hold.
    { intros p v Hp. rewrite lookup_app_l; [done|]. by eapply lookup_lt_Some. }
    assert (min_val <= max_val)%Q as Hle.
    { apply list_elem_of_lookup_2 in Hmin. specialize (Hall _ Hmin). lra. }
    destruct (Qltb x min_val) eqn:H1; [apply Qltb_lt in H1|apply Qltb_ge in H1].
    + apply IH; [done|by apply Hold|].
      intros y [Hy|Hy]%elem_of_app.
      * specialize (Hall y Hy). lra.
      * apply list_elem_of_singleton in Hy as ->. lra.
    + destruct (Qltb x max_val) eqn:H2; [apply Qltb_lt in H2|apply Qltb_ge in H2];
        cbn [negb].
      * apply IH; [by apply Hold|by apply Hold|].
        intros y [Hy|Hy]%elem_of_app.
        -- by apply Hall.
        -- apply list_elem_of_singleton in Hy as ->. lra.
      * apply IH; [by apply Hold|done|].
        intros y [Hy|Hy]%elem_of_app.
        -- specialize (Hall y Hy). lra.
        -- apply list_elem_of_singleton in Hy as ->. lra.
Qed.

(** On a non-empty vector [std::minmax_element] points at a least and
    at a greatest element. *)
Lemma minmax_element_spec (v : list Q) :
  v <> [] ->
  exists mn mx,
    at_ v (minmax_element v).1 = Value mn
    /\ at_ v (minmax_element v).2 = Value mx
    /\ mn ∈ v /\ mx ∈ v
    /\ forall y, y ∈ v -> (mn <= y <= mx)%Q.
Proof.
  destruct v as [|x rest]; [done|]. intros _. cbn [minmax_element].
  destruct (minmax_element_from_spec rest [x] 0 0 x x) as (mn & mx & Hmn & Hmx & Hall);
    [done|done|..].
  { intros y ->%list_elem_of_singleton. lra. }
  exists mn, mx. split; [by apply at_lookup|]. split; [by apply at_lookup|].
  split; [by eapply list_elem_of_lookup_2|]. split; [by eapply list_elem_of_lookup_2|].
  done.
Qed.

(** X12: on a vector that has two different values, all of magnitude
    at most 2^1022 so that [max_val - min_val] does not overflow,
    min-max normalisation returns a vector of the same length whose
    components all lie in [0, 1], as many as the input has; a least
    component of the input becomes 0, a greatest becomes 1, and the
    order of the components is kept. *)
Theorem normalizeFeatures_range (features : list Q) (a b : Q) :
  Forall difference_fits features ->
  a ∈ features -> b ∈ features -> (a < b)%Q ->
  exists normalized,
    normalizeFeatures features = Value normalized
    /\ length normalized = length features
    /\ Forall (fun v => (0 <= v <= 1)%Q) normalized
    /\ (exists i lo v, features !! i = Some lo /\ normalized !! i = Some v
                       /\ (forall y, y ∈ features -> (lo <= y)%Q) /\ (v == 0)%Q)
    /\ (exists i hi v, features !! i = Some hi /\ normalized !! i = Some v
                       /\ (forall y, y ∈ features -> (y <= hi)%Q) /\ (v == 1)%Q)
    /\ forall i j x y x' y',
         features !! i = Some x -> features !! j = Some y ->
         normalized !! i = Some x' -> normalized !! j = Some y' ->
         (x <= y)%Q -> (x' <= y')%Q.
Proof.
  intros _ Ha Hb Hab.
  assert (features <> []) as Hne by (intros ->; by apply elem_of_nil in Ha).
  destruct (minmax_element_spec features Hne) as (mn & mx & Hmn & Hmx & Hmn_in & Hmx_in & Hall).
  unfold normalizeFeatures. cbn zeta. rewrite Hmn, Hmx. step_result.
  assert (mn < mx)%Q as Hlt.
  { pose proof (Hall a Ha). pose proof (Hall b Hb). lra. }
  apply Qltb_lt in Hlt as Hlt'. rewrite Hlt'. step_result.
  assert (0 < mx - mn)%Q as Hpos by lra.
  assert (forall x, (mn <= x <= mx)%Q -> (0 <= (x - mn) / (mx - mn) <= 1)%Q) as Hrange.
  { intros x Hx. split.
    - apply Qle_shift_div_l; [done|]. lra.
    - apply Qle_shift_div_r; [done|]. lra. }
  eexists. split; [reflexivity|]. split; [by rewrite length_fmap|].
  split; [|split; [|split]].
  - apply Forall_fmap, Forall_forall. intros x Hx. cbn. apply Hrange, Hall, Hx.
  - apply at_lookup in Hmn. eexists _, mn, _. split; [exact Hmn|].
    split; [by rewrite list_lookup_fmap, Hmn|]. split; [intros y Hy; by apply Hall|].
    field. lra.
  - apply at_lookup in Hmx. eexists _, mx, _. split; [exact Hmx|].
    split; [by rewrite list_lookup_fmap, Hmx|]. split; [intros y Hy; by apply Hall|].
    field. lra.
  - intros i j x y x' y' Hi Hj Hi' Hj' Hxy.
    rewrite list_lookup_fmap, Hi in Hi'. rewrite list_lookup_fmap, Hj in Hj'.
    cbn in Hi', Hj'. injection Hi' as <-. injection Hj' as <-.
    unfold Qdiv. apply Qmult_le_compat_r; [lra|].
    apply Qlt_le_weak, Qinv_lt_0_compat. done.
Qed.

Lemma normalizeFeatures_range_witness :
  let features := [45.2; 67.8; 23.1; 12.5]%Q in
  exists normalized,
    normalizeFeatures features = Value normalized
    /\ length normalized = length features
    /\ Forall (fun v => (0 <= v <= 1)%Q) normalized
    /\ (exists i lo v, features !! i = Some lo /\ normalized !! i = Some v
                       /\ (forall y, y ∈ features -> (lo <= y)%Q) /\ (v == 0)%Q)
    /\ (exists i hi v, features !! i = Some hi /\ normalized !! i = Some v
                       /\ (forall y, y ∈ features -> (y <= hi)%Q) /\ (v == 1)%Q)
    /\ forall i j x y x' y',
         features !! i = Some x -> features !! j = Some y ->
         normalized !! i = Some x' -> normalized !! j = Some y' ->
         (x <= y)%Q -> (x' <= y')%Q.
Proof.
  intros features.
  apply (normalizeFeatures_range features 45.2 67.8).
  - repeat constructor; vm_compute; discriminate.
  - apply list_elem_of_here.
  - apply list_elem_of_further, list_elem_of_here.
  - vm_compute. reflexivity.
Defined.

(** X13: the edge cases of min-max normalisation.  An empty vector has
    no least element to read: undefined behaviour.  A vector whose
    components are all equal, a single component in particular, is
    returned as it is, whatever its values: they are not brought into
    [0, 1]. *)
Theorem normalizeFeatures_edge_cases (features : list Q) :
  (forall x y, x ∈ features -> y ∈ features -> (x == y)%Q) ->
  normalizeFeatures features = match features with [] => UB | _ => Value features end.
Proof.
  intros Heq. destruct features as [|x rest] eqn:Hf; [reflexivity|]. rewrite <- Hf in *.
  assert (features <> []) as Hne by (by rewrite Hf).
  destruct (minmax_element_spec features Hne) as (mn & mx & Hmn & Hmx & Hmn_in & Hmx_in & _).
  unfold normalizeFeatures. cbn zeta. rewrite Hmn, Hmx. step_result.
  assert (Qltb mn mx = false) as ->; [|reflexivity].
  apply Qltb_ge. rewrite (Heq mn mx); [lra|done|done].
Qed.

Lemma normalizeFeatures_edge_cases_witness :
  normalizeFeatures [45.2%Q] = Value [45.2%Q].
Proof.
  apply (normalizeFeatures_edge_cases [45.2%Q]).
  intros x y ->%list_elem_of_singleton ->%list_elem_of_singleton. reflexivity.
Defined.

(** * The policy engine *)

Lemma checkPolicyCompliance_true (policy : CPPPolicyEngine.Policy) (op : string) :
  CPPPolicyEngine.checkPolicyCompliance policy op = true.
Proof.
  unfold CPPPolicyEngine.checkPolicyCompliance.
  repeat match goal with |- context [if ?b then _ else _] => destruct b end;
    reflexivity.
Qed.

Lemma canExecuteOperation_loop_true (l : list (string * CPPPolicyEngine.Policy))
    (op : string) :
  CPPPolicyEngine.canExecuteOperation_loop l op = true.
Proof.
  induction l as [|[k p] l IH]; [done|]. cbn.
  rewrite checkPolicyCompliance_true. by destruct (CPPPolicyEngine.active p).
Qed.

(** X14: the policy check never denies.  [canExecuteOperation] returns
    true for every operation in every state of the policy engine,
    whatever policies are loaded or active and whether enforcement is
    on or off, after an emergency lockdown as well: every branch of
    [checkPolicyCompliance] returns true. *)
Theorem canExecuteOperation_never_denies (pe : CPPPolicyEngine.t) (op : string) :
  CPPPolicyEngine.canExecuteOperation pe op = true
  /\ CPPPolicyEngine.canExecuteOperation (CPPPolicyEngine.emergencyLockdown pe) op = true.
Proof.
  unfold CPPPolicyEngine.canExecuteOperation.
  split; destruct (negb _); auto using canExecuteOperation_loop_true.
Qed.

Lemma active_ids_loop (l : list (string * CPPPolicyEngine.Policy)) (acc : list string) :
  foldl (fun active_ids pair =>
           if CPPPolicyEngine.active pair.2 then active_ids ++ [pair.1] else active_ids)
    acc l
  = acc ++ (filter (fun pair => CPPPolicyEngine.active pair.2 = true) l).*1.
Proof.
  revert acc. induction l as [|[k p] l IH]; intros acc.
  - cbn. by rewrite app_nil_r.
  - cbn [foldl]. rewrite IH, filter_cons. cbn [snd fst].
    destruct (CPPPolicyEngine.active p).
    + rewrite decide_True by done. cbn. by rewrite <- app_assoc.
    + by rewrite decide_False by done.
Qed.

Lemma getActivePolicyIds_filter (pe : CPPPolicyEngine.t) :
  CPPPolicyEngine.getActivePolicyIds pe
  = (filter (fun pair => CPPPolicyEngine.active pair.2 = true)
       (map_to_list (CPPPolicyEngine.policies_ pe))).*1.
Proof. unfold CPPPolicyEngine.getActivePolicyIds. by rewrite active_ids_loop. Qed.

Lemma getActivePolicyIds_elem (pe : CPPPolicyEngine.t) (k : string) :
  k ∈ CPPPolicyEngine.getActivePolicyIds pe
  <-> exists p, CPPPolicyEngine.policies_ pe !! k = Some p
                /\ CPPPolicyEngine.active p = true.
Proof.
  rewrite getActivePolicyIds_filter, list_elem_of_fmap. split.
  - intros ([k' p] & -> & Hin). apply list_elem_of_filter in Hin as [Hact Hin].
    apply elem_of_map_to_list in Hin. by exists p.
  - intros (p & Hp & Hact). exists (k, p). split; [done|].
    apply list_elem_of_filter. split; [done|]. by apply elem_of_map_to_list.
Qed.

Lemma getActivePolicyIds_NoDup (pe : CPPPolicyEngine.t) :
  NoDup (CPPPolicyEngine.getActivePolicyIds pe).
Proof.
  rewrite getActivePolicyIds_filter.
  eapply sublist_NoDup;
    [apply (NoDup_fst_map_to_list (CPPPolicyEngine.policies_ pe))|].
  apply fmap_sublist, sublist_filter.
Qed.

Lemma getActivePolicyCount_ids (pe : CPPPolicyEngine.t) :
  CPPPolicyEngine.getActivePolicyCount pe
  = size (CPPPolicyEngine.getActivePolicyIds pe).
Proof.
  rewrite getActivePolicyIds_filter.
  unfold CPPPolicyEngine.getActivePolicyCount, size. by rewrite length_fmap.
Qed.

(** X15: [getActivePolicyIds] lists exactly the identifiers of the
    active policies, each of them once, and [getActivePolicyCount] is
    the length of that list. *)
Theorem getActivePolicyIds_spec (pe : CPPPolicyEngine.t) :
  (forall k, k ∈ CPPPolicyEngine.getActivePolicyIds pe
             <-> exists p, CPPPolicyEngine.policies_ pe !! k = Some p
                           /\ CPPPolicyEngine.active p = true)
  /\ NoDup (CPPPolicyEngine.getActivePolicyIds pe)
  /\ CPPPolicyEngine.getActivePolicyCount pe
     = size (CPPPolicyEngine.getActivePolicyIds pe).
Proof.
  split; [apply getActivePolicyIds_elem|].
  split; [apply getActivePolicyIds_NoDup|apply getActivePolicyCount_ids].
Qed.

(** X16: [addPolicy].  A policy whose identifier is already present is
    refused: the call returns false and the engine is unchanged, so an
    existing policy cannot be replaced.  Otherwise the call returns
    true, the policy is stored under its identifier, it is listed by
    [getActivePolicyIds] exactly when it is active, and every other
    policy, the violations and the enforcement flag are as before. *)
Theorem addPolicy_spec (pe : CPPPolicyEngine.t) (policy : CPPPolicyEngine.Policy) :
  match CPPPolicyEngine.policies_ pe !! CPPPolicyEngine.id policy with
  | Some _ => CPPPolicyEngine.addPolicy (Some policy) pe = Some (pe, false)
  | None =>
      exists pe',
        CPPPolicyEngine.addPolicy (Some policy) pe = Some (pe', true)
        /\ CPPPolicyEngine.policies_ pe' !! CPPPolicyEngine.id policy = Some policy
        /\ (forall k, k <> CPPPolicyEngine.id policy ->
              CPPPolicyEngine.policies_ pe' !! k = CPPPolicyEngine.policies_ pe !! k)
        /\ (CPPPolicyEngine.id policy ∈ CPPPolicyEngine.getActivePolicyIds pe'
            <-> CPPPolicyEngine.active policy = true)
        /\ CPPPolicyEngine.violations_ pe' = CPPPolicyEngine.violations_ pe
        /\ CPPPolicyEngine.enforcement_active_ pe'
           = CPPPolicyEngine.enforcement_active_ pe
  end.
Proof.
  unfold CPPPolicyEngine.addPolicy.
  destruct (CPPPolicyEngine.policies_ pe !! CPPPolicyEngine.id policy) eqn:Hfind;
    [done|].
  eexists. split; [reflexivity|]. cbn.
  split; [by rewrite lookup_insert_eq|].
  split; [intros k Hk; by rewrite lookup_insert_ne|].
  split; [|done].
  rewrite getActivePolicyIds_elem. cbn. rewrite lookup_insert_eq. split.
  - by intros (p & [= <-] & Hact).
  - intros Hact. by exists policy.
Qed.

(** X17: [emergencyLockdown].  Afterwards the active policies are
    exactly the critical policies that were active before, so there are
    no more active policies than before; enforcement is on; the
    violations are kept; and a second lockdown changes nothing. *)
Theorem emergencyLockdown_spec (pe : CPPPolicyEngine.t) :
  let pe' := CPPPolicyEngine.emergencyLockdown pe in
  (forall k, k ∈ CPPPolicyEngine.getActivePolicyIds pe'
             <-> exists p, CPPPolicyEngine.policies_ pe !! k = Some p
                           /\ CPPPolicyEngine.active p = true
                           /\ CPPPolicyEngine.level p = CPPPolicyEngine.CRITICAL)
  /\ (CPPPolicyEngine.getActivePolicyCount pe'
      <= CPPPolicyEngine.getActivePolicyCount pe)%N
  /\ CPPPolicyEngine.isEnforcementActive pe' = true
  /\ CPPPolicyEngine.violations_ pe' = CPPPolicyEngine.violations_ pe
  /\ CPPPolicyEngine.emergencyLockdown pe' = pe'.
Proof.
  intros pe'.
  pose proof (getActivePolicyIds_elem pe') as Hmem'.
  pose proof (getActivePolicyIds_NoDup pe') as Hnd'.
  pose proof (getActivePolicyCount_ids pe') as Hcnt'.
  pose proof (getActivePolicyIds_elem pe) as Hmem.
  pose proof (getActivePolicyCount_ids pe) as Hcnt.
  assert (forall k, k ∈ CPPPolicyEngine.getActivePolicyIds pe'
             <-> exists p, CPPPolicyEngine.policies_ pe !! k = Some p
                           /\ CPPPolicyEngine.active p = true
                           /\ CPPPolicyEngine.level p = CPPPolicyEngine.CRITICAL)
    as Hchar.
  { intros k. rewrite Hmem'. unfold pe', CPPPolicyEngine.emergencyLockdown. cbn.
    rewrite lookup_fmap. split.
    - intros (p' & Hp' & Hact).
      destruct (CPPPolicyEngine.policies_ pe !! k) as [p|]; [|done].
      cbn in Hp'. injection Hp' as <-. exists p. split; [done|].
      destruct (bool_decide _) eqn:Hd; [done|].
      apply bool_decide_eq_false in Hd. split; [done|].
      by destruct (decide (CPPPolicyEngine.level p = CPPPolicyEngine.CRITICAL)).
    - intros (p & -> & Hact & Hlvl). cbn. eexists. split; [reflexivity|].
      rewrite bool_decide_eq_false_2; [done|]. by intros []. }
  split; [exact Hchar|]. split; [|split; [done|split; [done|]]].
  - rewrite Hcnt', Hcnt. unfold size.
    assert (length (CPPPolicyEngine.getActivePolicyIds pe')
            <= length (CPPPolicyEngine.getActivePolicyIds pe))%nat; [|lia].
    apply submseteq_length, NoDup_submseteq; [done|].
    intros k (p & Hp & Hact & _)%Hchar. apply Hmem. by exists p.
  - unfold pe', CPPPolicyEngine.emergencyLockdown. cbn. f_equal.
    rewrite <- map_fmap_compose. apply map_fmap_ext. intros k p _. cbn.
    destruct (bool_decide (CPPPolicyEngine.level p <> CPPPolicyEngine.CRITICAL)) eqn:Hd;
      cbn; by rewrite Hd.
Qed.

(** X18: [initialize] installs the three core policies, active, under
    their identifiers, replacing policies that had them, whatever the
    state before: after an emergency lockdown it reactivates the
    performance and the ethics policy.  It returns true, switches
    enforcement on, and keeps every other policy and the violations. *)
Theorem initialize_policies (pe : CPPPolicyEngine.t) :
  let pe' := (CPPPolicyEngine.initialize pe).1 in
  (CPPPolicyEngine.initialize pe).2 = true
  /\ CPPPolicyEngine.isEnforcementActive pe' = true
  /\ Forall (fun k => k ∈ CPPPolicyEngine.getActivePolicyIds pe'
                      /\ exists p, CPPPolicyEngine.policies_ pe' !! k = Some p
                                   /\ CPPPolicyEngine.id p = k)
       ["cpp_safety_001"; "cpp_performance_001"; "cpp_ethics_001"]
  /\ (3 <= CPPPolicyEngine.getActivePolicyCount pe')%N
  /\ (forall k, k ∉ ["cpp_safety_001"; "cpp_performance_001"; "cpp_ethics_001"] ->
        CPPPolicyEngine.policies_ pe' !! k = CPPPolicyEngine.policies_ pe !! k)
  /\ CPPPolicyEngine.violations_ pe' = CPPPolicyEngine.violations_ pe
  /\ Forall (fun k => k ∈ CPPPolicyEngine.getActivePolicyIds
                            (CPPPolicyEngine.initialize
                               (CPPPolicyEngine.emergencyLockdown pe)).1)
       ["cpp_safety_001"; "cpp_performance_001"; "cpp_ethics_001"].
Proof.
  intros pe'.
  assert (forall pe0,
    Forall (fun k => k ∈ CPPPolicyEngine.getActivePolicyIds (CPPPolicyEngine.initialize pe0).1
                     /\ exists p, CPPPolicyEngine.policies_ (CPPPolicyEngine.initialize pe0).1
                                    !! k = Some p
                                  /\ CPPPolicyEngine.id p = k)
      ["cpp_safety_001"; "cpp_performance_001"; "cpp_ethics_001"]) as Hcore.
  { intros pe0.
    pose proof (getActivePolicyIds_elem (CPPPolicyEngine.initialize pe0).1) as Hmem.
    repeat apply Forall_cons_2; [..|apply Forall_nil_2];
      (split; [apply Hmem|]); cbn;
      (eexists; split; [by simplify_map_eq|done]). }
  split; [done|]. split; [done|]. split; [apply Hcore|].
  split; [|split; [|split; [done|]]].
  - rewrite getActivePolicyCount_ids.
    assert (["cpp_safety_001"; "cpp_performance_001"; "cpp_ethics_001"]
            ⊆+ CPPPolicyEngine.getActivePolicyIds pe') as Hsub.
    { apply NoDup_submseteq.
      - apply (bool_decide_unpack _). vm_compute. exact I.
      - intros k Hk. specialize (Hcore pe). rewrite Forall_forall in Hcore.
        by apply Hcore. }
    apply submseteq_length in Hsub. unfold size. cbn [length] in Hsub. lia.
  - intros k Hk. unfold pe'. cbn.
    rewrite !lookup_insert_ne; [done|..]; intros <-; apply Hk; set_solver.
  - eapply Forall_impl; [apply (Hcore (CPPPolicyEngine.emergencyLockdown pe))|].
    by intros k [? _].
Qed.

(** * States from sensor data, and the average reward *)

Lemma normalizeFeatures_length (features : list Q) :
  features <> [] ->
  exists normalized,
    normalizeFeatures features = Value normalized
    /\ length normalized = length features.
Proof.
  intros Hne.
  destruct (minmax_element_spec features Hne) as (mn & mx & Hmn & Hmx & _).
  unfold normalizeFeatures. cbn zeta. rewrite Hmn, Hmx. step_result.
  destruct (Qltb mn mx); step_result; eexists; (split; [reflexivity|]);
    [by rewrite length_fmap|done].
Qed.

(** X19: [createStateFromSensorData].  Without sensors there is no
    least reading to normalise by: undefined behaviour.  Otherwise the
    state has one feature for each sensor, the normalised readings in
    the order the map is iterated, the identifier made from the clock,
    reward 0 and it is not terminal. *)
Theorem createStateFromSensorData_spec (sensor_data : list (string * double))
    (now_ms : Z) :
  match sensor_data with
  | [] => createStateFromSensorData sensor_data now_ms = UB
  | _ =>
      exists s,
        createStateFromSensorData sensor_data now_ms = Value s
        /\ size (features s) = size sensor_data
        /\ normalizeFeatures sensor_data.*2 = Value (features s)
        /\ state_id s = "state_" +:+ pretty now_ms
        /\ state_reward s = 0%Q /\ terminal s = false
  end.
Proof.
  destruct sensor_data as [|x rest] eqn:Hs; [reflexivity|]. rewrite <- Hs.
  destruct (normalizeFeatures_length sensor_data.*2) as (normalized & Hn & Hlen).
  { by rewrite Hs. }
  unfold createStateFromSensorData. rewrite Hn. step_result.
  eexists. split; [reflexivity|]. cbn.
  split; [|done]. unfold size. by rewrite Hlen, length_fmap.
Qed.

Lemma total_reward_nonnegative (buf : list Experience) (acc : Q) :
  Forall (fun x => (0 <= reward x)%Q) buf ->
  (0 <= acc)%Q ->
  (0 <= foldl (fun total experience => (total + reward experience)%Q) acc buf)%Q.
Proof.
  intros Hall. revert acc. induction Hall as [|x buf Hx _ IH]; intros acc Hacc.
  - exact Hacc.
  - cbn [foldl]. apply IH. lra.
Qed.

(** X20: [getAverageReward] does not change the engine.  Of an empty
    replay buffer it returns 0.0, and when no stored reward is negative
    the average it returns is not negative either.  (The sum and the
    quotient of the code are rounded, those of the model are exact:
    both keep the sign, and only the sign is stated.) *)
Theorem getAverageReward_nonnegative (e : ReinforcementLearningEngine) :
  Forall (fun x => (0 <= reward x)%Q) (replay_buffer_ e) ->
  match replay_buffer_ e with
  | [] => getAverageReward e = Returns e 0%Q
  | _ => exists average,
           getAverageReward e = Returns e average /\ (0 <= average)%Q
  end.
Proof.
  intros Hall. unfold getAverageReward. step_M.
  pose proof (total_reward_nonnegative (replay_buffer_ e) 0 Hall ltac:(lra)) as Hsum.
  destruct (replay_buffer_ e) as [|x buf] eqn:Hbuf; [reflexivity|].
  rewrite <- Hbuf in *. step_M. eexists. split; [reflexivity|].
  unfold double_of_size, size. rewrite nat_N_Z.
  assert (0 < inject_Z (Z.of_nat (length (replay_buffer_ e))))%Q as Hpos.
  { rewrite Hbuf. cbn [length]. rewrite Nat2Z.inj_succ.
    change 0%Q with (inject_Z 0). rewrite <- Zlt_Qlt. lia. }
  apply Qle_shift_div_l; [done|]. lra.
Qed.

Lemma getAverageReward_nonnegative_witness :
  exists average,
    getAverageReward fixture_full = Returns fixture_full average
    /\ (0 <= average)%Q.
Proof.
  apply (getAverageReward_nonnegative fixture_full).
  apply Forall_replicate. vm_compute. discriminate.
Defined.

(** * The evolution cycle *)

(** One round of [getAction], [storeExperience] and [learn] on an
    engine that always explores and whose live network cannot take the
    states it is given: once a batch is stored, [learn] throws. *)
Lemma round_without_learning (e : ReinforcementLearningEngine) (q : QNetwork)
    (s : State) (rew : Action -> double) (nxt : Action -> State) (now : Z) :
  q_network_ e = Some q ->
  size (features s) <> input_size_ q ->
  Forall (fun x => size (features (state x)) <> input_size_ q) (replay_buffer_ e) ->
  (1 <= epsilon_ e)%Q ->
  (0 < batch_size_ e)%N ->
  (0 < buffer_capacity_ e < SIZE_MODULUS)%N ->
  (size (replay_buffer_ e) <= buffer_capacity_ e)%N ->
  exists g i,
    (0 <= i <= 3)%Z
    /\ let a := newAction ("action_" +:+ pretty i) [inject_Z i] in
       let x := mkExperience s a (rew a) (nxt a) false now in
       let buf :=
         (if (buffer_capacity_ e <=? size (replay_buffer_ e))%N
          then tail (replay_buffer_ e) else replay_buffer_ e) ++ [x] in
       let e' := set_rng_ g (set_replay_buffer_ buf (step_counted e)) in
       (action ← getAction s;
        storeExperience s action (rew action) (nxt action) false now;;
        learn) e
       = if (size buf <? batch_size_ e)%N then Returns e' tt
         else Throws e' (invalid_argument "Input size mismatch").
Proof.
  intros Hq Hs Hbuf Heps Hbatch Hcap Hsize.
  destruct (getAction_explores s e) as (g1 & i & Hga & Hi).
  { pose proof (uniform_real01_range (rng_ e)) as Hu. apply Qltb_lt. lra. }
  set (a := newAction ("action_" +:+ pretty i) [inject_Z i]) in *.
  set (x := mkExperience s a (rew a) (nxt a) false now).
  set (buf := (if (buffer_capacity_ e <=? size (replay_buffer_ e))%N
               then tail (replay_buffer_ e) else replay_buffer_ e) ++ [x]).
  set (e1 := set_rng_ g1 (step_counted e)) in *.
  assert (storeExperience s a (rew a) (nxt a) false now e1
          = Returns (set_replay_buffer_ buf e1) tt) as Hstore.
  { rewrite storeExperience_eq. cbn zeta. fold x.
    assert (buffer_capacity_ e1 = buffer_capacity_ e) as -> by (by destruct e).
    assert (replay_buffer_ e1 = replay_buffer_ e) as -> by (by destruct e).
    subst buf. destruct (buffer_capacity_ e <=? size (replay_buffer_ e))%N eqn:Hfull;
      [|done].
    destruct (replay_buffer_ e); [|done].
    apply N.leb_le in Hfull. unfold size in Hfull. cbn in Hfull. lia. }
  set (e2 := set_replay_buffer_ buf e1) in *.
  assert (replay_buffer_ e2 = buf) as Hbuf2 by (by destruct e).
  assert (batch_size_ e2 = batch_size_ e) as Hbatch2 by (by destruct e).
  assert (Forall (fun x => size (features (state x)) <> input_size_ q) buf) as Hall.
  { subst buf. apply Forall_app. split; [|by repeat constructor].
    destruct (buffer_capacity_ e <=? size (replay_buffer_ e))%N; [|done].
    destruct (replay_buffer_ e); [done|]. by apply Forall_cons in Hbuf as [_ ?]. }
  assert (size buf <= buffer_capacity_ e)%N as Hfit.
  { subst buf. rewrite size_app. change (size [x]) with 1%N.
    destruct (buffer_capacity_ e <=? size (replay_buffer_ e))%N eqn:Hfull.
    - destruct (replay_buffer_ e) as [|x0 rest]; [unfold size; cbn; lia|].
      unfold size in *. cbn [tail length] in *. lia.
    - apply N.leb_gt in Hfull. lia. }
  assert (0 < size buf)%N as Hpos.
  { subst buf. rewrite size_app. change (size [x]) with 1%N. lia. }
  destruct (size buf <? batch_size_ e)%N eqn:Hready.
  - exists g1, i. split; [done|]. cbn zeta. fold a x buf. rewrite Hready.
    step_M. rewrite Hga. step_M. rewrite Hstore. step_M.
    rewrite learn_noop; [by destruct e|].
    rewrite Hbuf2, Hbatch2. by apply N.ltb_lt.
  - destruct (trainOnBatch_mismatch e2 q) as [g2 Htrain].
    { by destruct e. }
    { by rewrite Hbatch2. }
    { rewrite Hbuf2. lia. }
    { by rewrite Hbuf2. }
    exists g2, i. split; [done|]. cbn zeta. fold a x buf. rewrite Hready.
    step_M. rewrite Hga. step_M. rewrite Hstore. step_M.
    rewrite learn_eq, Hbuf2, Hbatch2, Hready, Htrain. by destruct e.
Qed.

Lemma initialize_new state_size action_size hidden_size learning_rate rd :
  initialize (newReinforcementLearningEngine state_size action_size hidden_size
                learning_rate rd)
  = Returns (newReinforcementLearningEngine state_size action_size hidden_size
               learning_rate rd) true.
Proof.
  unfold initialize. step_M.
  unfold newReinforcementLearningEngine at 1 2. cbn [q_network_ target_network_].
  rewrite !bool_decide_eq_true_2 by done. cbn [negb orb]. step_M. reflexivity.
Qed.

Lemma double_of_size_mod (n m : N) :
  (0 < m)%N -> (0 <= double_of_size (n mod m) <= double_of_size m)%Q.
Proof.
  intros Hm. pose proof (N.mod_lt n m ltac:(lia)) as Hlt.
  unfold double_of_size. change 0%Q with (inject_Z 0). rewrite <- !Zle_Qle.
  generalize dependent (n `mod` m)%N. intros. lia.
Qed.

(** The reward of a random action in a cycle. *)
Lemma simulateActionExecution_random (i : Z) (cycle_count : N) :
  (0 <= i <= 3)%Z ->
  let a := newAction ("action_" +:+ pretty i) [inject_Z i] in
  (0.3 <= EVACPPCore.simulateActionExecution a (EVACPPCore.sensor_data cycle_count)
   <= 0.6)%Q.
Proof.
  intros Hi. cbn zeta. unfold EVACPPCore.simulateActionExecution, EVACPPCore.sensor_data.
  cbn [list_to_map foldr]. rewrite lookup_insert_eq. cbn [snd].
  pose proof (double_of_size_mod cycle_count 10 ltac:(done)) as Hcpu.
  change (double_of_size 10) with 10%Q in Hcpu.
  assert (Qltb 80 (45.2 + double_of_size (cycle_count `mod` 10)) = false) as ->.
  { apply Qltb_ge. lra. }
  assert (i = 0 \/ i = 1 \/ i = 2 \/ i = 3)%Z as [-> | [-> | [-> | ->]]] by lia;
    vm_compute; split; discriminate.
Qed.

(** A cycle reads four sensors, in whatever order. *)
Lemma sensor_data_state (env : EVACPPCore.Environment) (cycle_count : N) :
  (forall l, EVACPPCore.visit env l ≡ₚ l) ->
  exists s,
    createStateFromSensorData
      (EVACPPCore.visit env (map_to_list (EVACPPCore.sensor_data cycle_count)))
      (EVACPPCore.state_time env) = Value s
    /\ size (features s) = 4%N.
Proof.
  intros Hvisit.
  set (l := EVACPPCore.visit env (map_to_list (EVACPPCore.sensor_data cycle_count))).
  assert (length l = 4%nat) as Hlen.
  { subst l. rewrite Hvisit. unfold EVACPPCore.sensor_data.
    rewrite map_to_list_to_map; [done|].
    cbn [fmap list_fmap fst]. apply (bool_decide_unpack _). vm_compute. exact I. }
  destruct (normalizeFeatures_length l.*2) as (normalized & Hn & Hlen').
  { destruct l; [done|discriminate]. }
  unfold createStateFromSensorData. rewrite Hn. step_result.
  eexists. split; [reflexivity|]. cbn. unfold size.
  by rewrite Hlen', length_fmap, Hlen.
Qed.


(** One cycle of a core that is [cycling]: it still is, it has counted
    a step and stored a transition, and it has reported a violation
    exactly when a batch was stored. *)
Lemma evolution_cycle_cycling (q : QNetwork) (env : EVACPPCore.Environment)
    (cycle_count : N) (core : EVACPPCore.t) :
  (forall l, EVACPPCore.visit env l ≡ₚ l) ->
  cycling q core ->
  exists core' new,
    EVACPPCore.evolution_cycle env cycle_count core = Some core'
    /\ cycling q core'
    /\ target_network_ (EVACPPCore.rl_engine_ core')
       = target_network_ (EVACPPCore.rl_engine_ core)
    /\ total_steps_ (EVACPPCore.rl_engine_ core')
       = add_sz (total_steps_ (EVACPPCore.rl_engine_ core)) 1
    /\ size (replay_buffer_ (EVACPPCore.rl_engine_ core'))
       = N.min (size (replay_buffer_ (EVACPPCore.rl_engine_ core)) + 1) 10000
    /\ CPPPolicyEngine.violations_ (EVACPPCore.policy_engine_ core')
       = CPPPolicyEngine.violations_ (EVACPPCore.policy_engine_ core) ++ new
    /\ Forall cycle_error new
    /\ size new
       = (if (size (replay_buffer_ (EVACPPCore.rl_engine_ core')) <? 32)%N
          then 0 else 1)%N
    /\ CPPPolicyEngine.policies_ (EVACPPCore.policy_engine_ core')
       = CPPPolicyEngine.policies_ (EVACPPCore.policy_engine_ core)
    /\ EVACPPCore.running_ core' = EVACPPCore.running_ core.
Proof.
  intros Hvisit (Hq & Hin & Heps & Hbatch & Hcap & Hsize & Hall).
  destruct core as [pe e running]. cbn [EVACPPCore.rl_engine_] in *.
  destruct (sensor_data_state env cycle_count Hvisit) as (s & Hs & Hw).
  destruct (round_without_learning e q s
              (fun action =>
                 EVACPPCore.simulateActionExecution action
                   (EVACPPCore.sensor_data cycle_count))
              (fun action =>
                 {| features := features s; state_id := state_id s;
                    state_reward :=
                      EVACPPCore.simulateActionExecution action
                        (EVACPPCore.sensor_data cycle_count);
                    terminal := terminal s |})
              (EVACPPCore.store_time env) Hq) as (g & i & Hi & Hround).
  { rewrite Hw, Hin. done. }
  { eapply Forall_impl; [exact Hall|]. intros x [Hx _]. rewrite Hx, Hin. done. }
  { rewrite Heps. lra. }
  { rewrite Hbatch. done. }
  { rewrite Hcap. done. }
  { rewrite Hcap. done. }
  cbn zeta beta in Hround. rewrite Hbatch, Hcap in Hround.
  pose proof (simulateActionExecution_random i cycle_count Hi) as Hreward.
  cbn zeta in Hreward.
  set (a := newAction ("action_" +:+ pretty i) [inject_Z i]) in *.
  set (r := EVACPPCore.simulateActionExecution a (EVACPPCore.sensor_data cycle_count)) in *.
  set (x := mkExperience s a r _ false (EVACPPCore.store_time env)) in *.
  set (buf := (if (10000 <=? size (replay_buffer_ e))%N
               then tail (replay_buffer_ e) else replay_buffer_ e) ++ [x]) in *.
  assert (size buf = N.min (size (replay_buffer_ e) + 1) 10000) as Hbuf.
  { subst buf. rewrite size_app. change (size [x]) with 1%N.
    destruct (10000 <=? size (replay_buffer_ e))%N eqn:Hfull.
    - apply N.leb_le in Hfull.
      destruct (replay_buffer_ e) as [|x0 rest]; unfold size in *;
        cbn [tail length] in *; lia.
    - apply N.leb_gt in Hfull. lia. }
  assert (Forall (fun x => size (features (state x)) = 4%N
                           /\ (0.3 <= reward x <= 0.6)%Q) buf) as Hall'.
  { subst buf. apply Forall_app. split; [|apply Forall_singleton; by split].
    destruct (10000 <=? size (replay_buffer_ e))%N; [|done].
    destruct (replay_buffer_ e); [done|]. by apply Forall_cons in Hall as [_ ?]. }
  set (e' := set_rng_ g (set_replay_buffer_ buf (step_counted e))) in *.
  assert (cycling q (EVACPPCore.mkCore pe e' running)) as Hcyc.
  { unfold cycling. cbn [EVACPPCore.rl_engine_].
    assert (replay_buffer_ e' = buf) as -> by (by destruct e).
    split; [by destruct e|]. split; [done|]. split; [by destruct e|].
    split; [by destruct e|]. split; [by destruct e|]. split; [lia|done]. }
  unfold EVACPPCore.evolution_cycle, EVACPPCore.evolution_step.
  rewrite Hs. cbn [EVACPPCore.policy_engine_].
  assert (CPPPolicyEngine.canExecuteOperation pe "reinforcement_learning" = true) as ->.
  { unfold CPPPolicyEngine.canExecuteOperation.
    destruct (negb _); [done|apply canExecuteOperation_loop_true]. }
  cbn [negb]. unfold EVACPPCore.run. cbn zeta. cbn [EVACPPCore.rl_engine_].
  rewrite Hround.
  assert (replay_buffer_ e' = buf) as Hbuf' by (by destruct e).
  assert (target_network_ e' = target_network_ e) as Htn by (by destruct e).
  assert (total_steps_ e' = add_sz (total_steps_ e) 1) as Hsteps by (by destruct e).
  destruct (size buf <? 32)%N eqn:Hready.
  - exists (EVACPPCore.mkCore pe e' running), [].
    cbn [EVACPPCore.set_rl_engine_ EVACPPCore.rl_engine_ EVACPPCore.policy_engine_
         EVACPPCore.running_].
    rewrite Hbuf', Hready, app_nil_r. rewrite <- Hbuf. done.
  - eexists _, [_]. split; [reflexivity|].
    cbn [EVACPPCore.set_rl_engine_ EVACPPCore.set_policy_engine_
         EVACPPCore.rl_engine_ EVACPPCore.policy_engine_ EVACPPCore.running_
         CPPPolicyEngine.reportViolation CPPPolicyEngine.violations_
         CPPPolicyEngine.policies_ what].
    rewrite Hbuf', Hready. rewrite <- Hbuf.
    split; [exact Hcyc|]. split; [done|]. split; [done|]. split; [done|].
    split; [reflexivity|]. split; [|done]. by repeat constructor.
Qed.

Lemma start_loop_cycling (q : QNetwork) (envs : list EVACPPCore.Environment) :
  forall (cycle_count : N) (core : EVACPPCore.t),
  Forall (fun env => forall l, EVACPPCore.visit env l ≡ₚ l) envs ->
  cycling q core ->
  (cycle_count < SIZE_MODULUS)%N ->
  (total_steps_ (EVACPPCore.rl_engine_ core) < SIZE_MODULUS)%N ->
  exists core' new,
    EVACPPCore.start_loop envs cycle_count core
    = Some (add_sz cycle_count (size envs), core')
    /\ cycling q core'
    /\ target_network_ (EVACPPCore.rl_engine_ core')
       = target_network_ (EVACPPCore.rl_engine_ core)
    /\ total_steps_ (EVACPPCore.rl_engine_ core')
       = add_sz (total_steps_ (EVACPPCore.rl_engine_ core)) (size envs)
    /\ size (replay_buffer_ (EVACPPCore.rl_engine_ core'))
       = N.min (size (replay_buffer_ (EVACPPCore.rl_engine_ core)) + size envs) 10000
    /\ CPPPolicyEngine.violations_ (EVACPPCore.policy_engine_ core')
       = CPPPolicyEngine.violations_ (EVACPPCore.policy_engine_ core) ++ new
    /\ Forall cycle_error new
    /\ size new
       = (size envs - (31 - size (replay_buffer_ (EVACPPCore.rl_engine_ core))))%N
    /\ CPPPolicyEngine.policies_ (EVACPPCore.policy_engine_ core')
       = CPPPolicyEngine.policies_ (EVACPPCore.policy_engine_ core)
    /\ EVACPPCore.running_ core' = EVACPPCore.running_ core.
Proof.
  induction envs as [|env envs IH]; intros cycle_count core Hvisit Hcyc Hcount Hsteps.
  - exists core, []. change (size []) with 0%N. unfold add_sz.
    rewrite !N.add_0_r, !N.mod_small by done. rewrite app_nil_r.
    pose proof Hcyc as (_ & _ & _ & _ & _ & Hsize & _).
    split; [done|]. split; [exact Hcyc|]. split; [done|]. split; [done|].
    split; [lia|]. split; [done|]. split; [done|]. split; [|done].
    unfold size. cbn [length]. lia.
  - apply Forall_cons in Hvisit as [Hvisit Hrest].
    destruct (evolution_cycle_cycling q env (add_sz cycle_count 1) core Hvisit Hcyc)
      as (core1 & new1 & Hrun1 & Hcyc1 & Htn1 & Hsteps1 & Hbuf1 & Hviol1 & Herr1
          & Hnew1 & Hpol1 & Hrunning1).
    destruct (IH (add_sz cycle_count 1) core1 Hrest Hcyc1 (add_sz_lt _ _))
      as (core' & new & Hrun & Hcyc' & Htn & Hsteps' & Hbuf & Hviol & Herr
          & Hnew & Hpol & Hrunning).
    { rewrite Hsteps1. apply add_sz_lt. }
    exists core', (new1 ++ new). cbn [EVACPPCore.start_loop]. rewrite Hrun1, Hrun.
    assert (size (env :: envs) = (1 + size envs)%N) as ->.
    { unfold size. cbn [length]. lia. }
    assert (forall a, add_sz (add_sz a 1) (size envs) = add_sz a (1 + size envs)) as Hadd.
    { intros a. unfold add_sz. rewrite N.Div0.add_mod_idemp_l. f_equal. lia. }
    split; [by rewrite Hadd|]. split; [done|]. split; [congruence|].
    split; [by rewrite Hsteps', Hsteps1, Hadd|].
    split; [rewrite Hbuf, Hbuf1; lia|].
    split; [by rewrite Hviol, Hviol1, app_assoc|].
    split; [by apply Forall_app|].
    split; [|split; congruence].
    rewrite size_app, Hnew, Hnew1, Hbuf1.
    destruct (N.min (size (replay_buffer_ (EVACPPCore.rl_engine_ core)) + 1) 10000 <? 32)%N
      eqn:Hready; [apply N.ltb_lt in Hready|apply N.ltb_ge in Hready]; lia.
Qed.


(** X21: the program of [main.cpp] never learns.  Its engine is
    constructed for states of ten features and its cycles make states
    of four, one for each sensor, so from the cycle that stores the
    32nd transition on every [learn] throws "Input size mismatch" before
    the live network is trained and before the exploration rate is
    decayed.  Whatever the random numbers, the clock and the order in
    which the sensor map is iterated, after any number of cycles: no
    cycle has undefined behaviour; both networks are the ones
    [initialize] left; the exploration rate is still 1.0, so every
    action was a random one; every cycle counted a step and stored a
    transition with a reward between 0.3 and 0.6; and every cycle but
    the first 31 reported a violation of high severity. *)
Theorem start_never_learns (rd : Entropy) (envs : list EVACPPCore.Environment) :
  Forall (fun env => forall l, EVACPPCore.visit env l ≡ₚ l) envs ->
  exists core0 core,
    EVACPPCore.initialize (EVACPPCore.new rd) = (core0, Value true)
    /\ EVACPPCore.start envs core0 = Some ((size envs) `mod` SIZE_MODULUS, core)%N
    /\ q_network_ (EVACPPCore.rl_engine_ core)
       = q_network_ (EVACPPCore.rl_engine_ core0)
    /\ target_network_ (EVACPPCore.rl_engine_ core)
       = target_network_ (EVACPPCore.rl_engine_ core0)
    /\ epsilon_ (EVACPPCore.rl_engine_ core) = 1%Q
    /\ total_steps_ (EVACPPCore.rl_engine_ core) = (size envs `mod` SIZE_MODULUS)%N
    /\ size (replay_buffer_ (EVACPPCore.rl_engine_ core)) = N.min (size envs) 10000
    /\ Forall (fun x => (0.3 <= reward x <= 0.6)%Q)
         (replay_buffer_ (EVACPPCore.rl_engine_ core))
    /\ CPPPolicyEngine.getViolationCount (EVACPPCore.policy_engine_ core)
       = (size envs - 31)%N
    /\ Forall cycle_error
         (CPPPolicyEngine.violations_ (EVACPPCore.policy_engine_ core)).
Proof.
  intros Hvisit.
  set (e0 := newReinforcementLearningEngine 10 4 128 0.001 rd).
  set (core0 := EVACPPCore.mkCore (CPPPolicyEngine.initialize CPPPolicyEngine.new).1
                  e0 false).
  set (q := newQNetwork 10 128 4 0.001 (q_dist rd) (q_dist2 rd)).
  assert (cycling q (EVACPPCore.set_running_ true core0)) as Hcyc.
  { unfold cycling. cbn [EVACPPCore.rl_engine_ EVACPPCore.set_running_ core0].
    repeat split; done. }
  destruct (start_loop_cycling q envs 0 _ Hvisit Hcyc)
    as (core & new & Hrun & Hcyc' & Htn & Hsteps & Hbuf & Hviol & Herr & Hnew & _);
    [done..|].
  destruct Hcyc' as (Hq & _ & Heps & _ & _ & _ & Hall).
  exists core0, core.
  split.
  { unfold EVACPPCore.initialize, EVACPPCore.new, EVACPPCore.run,
      CPPPolicyEngine.initialize.
    cbn [EVACPPCore.policy_engine_ EVACPPCore.rl_engine_ EVACPPCore.set_policy_engine_
         EVACPPCore.running_ negb].
    by rewrite initialize_new. }
  split; [exact Hrun|]. split; [by rewrite Hq|]. split; [exact Htn|].
  split; [exact Heps|]. split; [exact Hsteps|]. split; [rewrite Hbuf; done|].
  split; [eapply Forall_impl; [exact Hall|]; by intros x [_ ?]|].
  change (CPPPolicyEngine.violations_ _ ++ new) with new in Hviol.
  change (31 - size _)%N with 31%N in Hnew.
  unfold CPPPolicyEngine.getViolationCount. rewrite Hviol.
  split; [exact Hnew|exact Herr].
Qed.

Lemma start_never_learns_witness :
  let envs := replicate 40 (EVACPPCore.mkEnvironment id 0 0 0) in
  exists core0 core,
    EVACPPCore.initialize (EVACPPCore.new fixture_entropy) = (core0, Value true)
    /\ EVACPPCore.start envs core0 = Some ((size envs) `mod` SIZE_MODULUS, core)%N
    /\ q_network_ (EVACPPCore.rl_engine_ core)
       = q_network_ (EVACPPCore.rl_engine_ core0)
    /\ target_network_ (EVACPPCore.rl_engine_ core)
       = target_network_ (EVACPPCore.rl_engine_ core0)
    /\ epsilon_ (EVACPPCore.rl_engine_ core) = 1%Q
    /\ total_steps_ (EVACPPCore.rl_engine_ core) = (size envs `mod` SIZE_MODULUS)%N
    /\ size (replay_buffer_ (EVACPPCore.rl_engine_ core)) = N.min (size envs) 10000
    /\ Forall (fun x => (0.3 <= reward x <= 0.6)%Q)
         (replay_buffer_ (EVACPPCore.rl_engine_ core))
    /\ CPPPolicyEngine.getViolationCount (EVACPPCore.policy_engine_ core)
       = (size envs - 31)%N
    /\ Forall cycle_error
         (CPPPolicyEngine.violations_ (EVACPPCore.policy_engine_ core)).
Proof.
  intros envs. apply (start_never_learns fixture_entropy envs).
  apply Forall_replicate. intros l. reflexivity.
Defined.

(** * What training changes *)

Lemma mapM_Forall2 {A B} (f : A -> result B) (l : list A) (ys : list B) :
  mapM f l = Value ys -> Forall2 (fun x y => f x = Value y) l ys.
Proof.
  revert ys. induction l as [|x l IH]; intros ys; cbn [mapM]; step_result.
  - intros [= <-]. constructor.
  - destruct (f x) as [y| |] eqn:Hy; [|done..]. step_result.
    destruct (mapM f l) as [ys'| |]; [|done..]. step_result.
    intros [= <-]. constructor; [done|]. by apply IH.
Qed.

Lemma mapM_range_lookup {B} (f : N -> result B) (n : N) (ys : list B)
    (i : nat) (y : B) :
  mapM f (range n) = Value ys -> ys !! i = Some y -> f (N.of_nat i) = Value y.
Proof.
  intros Hall%mapM_Forall2 Hy.
  destruct (Forall2_lookup_r _ _ _ _ _ Hall Hy) as (x & Hx & Hfx).
  unfold range in Hx. rewrite list_lookup_fmap in Hx.
  destruct (seq 0 (N.to_nat n) !! i) as [j|] eqn:Hj; [|done].
  apply lookup_seq in Hj as [-> _]. cbn in Hx. by injection Hx as <-.
Qed.

(** X22: what [train] does to a well-formed network on a state of the
    input width and a target of the output width.  It returns, and the
    hidden-to-output weights keep their number; the weight at position
    [i], which [forward] reads for output [i mod output_size_], moves
    by the learning rate times the gradient [2 (p - t) / output_size_]
    of that output, whatever the hidden unit and whatever the state
    apart from the prediction [p]: where the target agrees with the
    prediction the weights stay as they are. *)
Theorem train_update (net : QNetwork) (state target : list Q) :
  wf_network net = true ->
  size state = input_size_ net ->
  size target = output_size_ net ->
  exists prediction w1 w1' net',
    predict net state = Value prediction
    /\ train net state target = Value net'
    /\ at_ (weights_ net) 1 = Value w1
    /\ at_ (weights_ net') 1 = Value w1'
    /\ size w1' = size w1
    /\ forall i w w',
         at_ w1 i = Value w -> at_ w1' i = Value w' ->
         exists p t,
           at_ prediction (i mod output_size_ net) = Value p
           /\ at_ target (i mod output_size_ net) = Value t
           /\ w' = (w - learning_rate_ net
                        * (2.0 * (p - t) / double_of_size (output_size_ net)))%Q
           /\ ((p == t)%Q -> (w' == w)%Q).
Proof.
  intros Hwf Hin Htg.
  destruct (wf_network_inv net Hwf) as (w0 & w1 & Hw & Hih & Hho & Hsum & Hw0 & Hw1 & Hb).
  destruct (train_total net state target Hwf Hin Htg) as (net' & Htrain & _ & _).
  destruct (forward_total net state Hwf Hin) as (prediction & Hfwd & Hp).
  pose proof Htrain as Hrun. unfold train in Hrun. rewrite Hfwd in Hrun.
  cbn [mbind result_bind mret result_ret] in Hrun.
  match type of Hrun with
  | context [foldM ?f ?a ?l] => destruct (foldM f a l) as [loss| |]; [|done..]
  end.
  cbn [mbind result_bind mret result_ret] in Hrun. unfold backward in Hrun. rewrite Hfwd in Hrun.
  cbn [mbind result_bind mret result_ret] in Hrun.
  match type of Hrun with
  | context [mapM ?f ?l] =>
      destruct (mapM f l) as [output_gradients| |] eqn:Hgrads; [|done..]
  end.
  cbn [mbind result_bind mret result_ret] in Hrun. rewrite Hw in Hrun.
  change (at_ [w0; w1] 1) with (Value w1) in Hrun. cbn [mbind result_bind mret result_ret] in Hrun.
  match type of Hrun with
  | context [mapM ?f ?l] => destruct (mapM f l) as [w1'| |] eqn:Hw1'; [|done..]
  end.
  cbn [mbind result_bind mret result_ret] in Hrun. injection Hrun as <-.
  exists prediction, w1, w1'. eexists.
  split; [exact Hfwd|]. split; [exact Htrain|]. rewrite Hw.
  split; [reflexivity|]. split; [reflexivity|].
  split.
  { apply mapM_Forall2, Forall2_length in Hw1'. rewrite length_range in Hw1'.
    unfold size in *. lia. }
  intros i w w' Hi Hi'.
  apply at_lookup in Hi' as Hlook.
  pose proof (mapM_range_lookup _ _ _ _ _ Hw1' Hlook) as Hf. cbn beta in Hf.
  rewrite N2Nat.id, Hi in Hf. cbn [mbind result_bind mret result_ret] in Hf.
  destruct (output_size_ net =? 0)%N; [done|]. cbn [mbind result_bind mret result_ret] in Hf.
  destruct (at_ output_gradients (i `mod` output_size_ net)%N) as [g| |] eqn:Hg;
    [|done..].
  cbn [mbind result_bind mret result_ret] in Hf. injection Hf as <-.
  apply at_lookup in Hg.
  pose proof (mapM_range_lookup _ _ _ _ _ Hgrads Hg) as Hgrad. cbn beta in Hgrad.
  rewrite N2Nat.id in Hgrad.
  destruct (at_ prediction (i `mod` output_size_ net)%N) as [p| |]; [|done..].
  cbn [mbind result_bind mret result_ret] in Hgrad.
  destruct (at_ target (i `mod` output_size_ net)%N) as [t| |]; [|done..].
  cbn [mbind result_bind mret result_ret] in Hgrad. injection Hgrad as <-.
  exists p, t. split; [done|]. split; [done|]. split; [done|].
  intros Hpt. rewrite Hpt. unfold Qdiv. ring.
Qed.

Lemma train_update_witness :
  let net := newQNetwork 4 64 2 0.01 (q_dist fixture_entropy)
               (q_dist2 fixture_entropy) in
  let state := features fixture_state in
  let target := [0.5; 0.25]%Q in
  exists prediction w1 w1' net',
    predict net state = Value prediction
    /\ train net state target = Value net'
    /\ at_ (weights_ net) 1 = Value w1
    /\ at_ (weights_ net') 1 = Value w1'
    /\ size w1' = size w1
    /\ forall i w w',
         at_ w1 i = Value w -> at_ w1' i = Value w' ->
         exists p t,
           at_ prediction (i mod output_size_ net) = Value p
           /\ at_ target (i mod output_size_ net) = Value t
           /\ w' = (w - learning_rate_ net
                        * (2.0 * (p - t) / double_of_size (output_size_ net)))%Q
           /\ ((p == t)%Q -> (w' == w)%Q).
Proof.
  intros net state target. apply (train_update net state target).
  - vm_compute. reflexivity.
  - vm_compute. reflexivity.
  - vm_compute. reflexivity.
Defined.

(** * Shutting the core down *)

Lemma shutdown_eq (e : ReinforcementLearningEngine) :
  shutdown e
  = Returns (set_target_network_ None (set_q_network_ None (set_replay_buffer_ [] e)))
      tt.
Proof. unfold shutdown. step_M. reflexivity. Qed.

Lemma initialize_without_networks (e : ReinforcementLearningEngine) :
  q_network_ e = None -> initialize e = Returns e false.
Proof.
  intros Hq. unfold initialize. step_M. rewrite Hq.
  rewrite bool_decide_eq_false_2 by (by intros [? ?]). reflexivity.
Qed.

(** X23: [EVACPPCore::shutdown] is final for the whole core.  It cannot
    fail, whatever the state of the core; it leaves the loop flag
    cleared, both networks null, the replay buffer empty, no policy, no
    violation and enforcement off.  An [initialize] after it returns
    false, because the networks are gone and are not made again, and it
    does so only after it has installed the three core policies and
    switched enforcement back on. *)
Theorem core_shutdown_is_final (core : EVACPPCore.t) :
  exists core' core'',
    EVACPPCore.shutdown core = (core', Value tt)
    /\ EVACPPCore.running_ core' = false
    /\ q_network_ (EVACPPCore.rl_engine_ core') = None
    /\ target_network_ (EVACPPCore.rl_engine_ core') = None
    /\ replay_buffer_ (EVACPPCore.rl_engine_ core') = []
    /\ CPPPolicyEngine.getActivePolicyIds (EVACPPCore.policy_engine_ core') = []
    /\ CPPPolicyEngine.getViolationCount (EVACPPCore.policy_engine_ core') = 0%N
    /\ CPPPolicyEngine.isEnforcementActive (EVACPPCore.policy_engine_ core') = false
    /\ EVACPPCore.initialize core' = (core'', Value false)
    /\ EVACPPCore.rl_engine_ core'' = EVACPPCore.rl_engine_ core'
    /\ CPPPolicyEngine.getActivePolicyCount (EVACPPCore.policy_engine_ core'') = 3%N
    /\ CPPPolicyEngine.isEnforcementActive (EVACPPCore.policy_engine_ core'') = true.
Proof.
  destruct core as [pe e running].
  set (e' := set_target_network_ None (set_q_network_ None (set_replay_buffer_ [] e))).
  set (pe'' := (CPPPolicyEngine.initialize (CPPPolicyEngine.shutdown pe)).1).
  exists (EVACPPCore.mkCore (CPPPolicyEngine.shutdown pe) e' false),
         (EVACPPCore.mkCore pe'' e' false).
  assert (q_network_ e' = None) as Hq by (by destruct e).
  split.
  { unfold EVACPPCore.shutdown, EVACPPCore.run.
    cbn [EVACPPCore.set_running_ EVACPPCore.rl_engine_ EVACPPCore.policy_engine_
         EVACPPCore.running_].
    rewrite shutdown_eq. reflexivity. }
  split; [reflexivity|]. split; [exact Hq|]. split; [by destruct e|].
  split; [by destruct e|]. split; [reflexivity|]. split; [reflexivity|].
  split; [reflexivity|]. split.
  { unfold EVACPPCore.initialize, EVACPPCore.run, CPPPolicyEngine.initialize.
    cbn [EVACPPCore.set_policy_engine_ EVACPPCore.rl_engine_
         EVACPPCore.policy_engine_ EVACPPCore.running_ negb].
    rewrite (initialize_without_networks e' Hq). reflexivity. }
  split; [reflexivity|]. split; [|reflexivity].
  vm_compute. reflexivity.
Qed.

Lemma emergencyStop_eq (e : ReinforcementLearningEngine) :
  emergencyStop e = Returns (set_epsilon_ 1 (set_replay_buffer_ [] e)) tt.
Proof. unfold emergencyStop. step_M. reflexivity. Qed.

(** X24: [EVACPPCore::emergencyStop] at any point of the program of
    [main.cpp].  After [initialize] and any number of cycles it cannot
    fail; it clears the loop flag, empties the replay buffer and leaves
    the exploration rate at 1.0 and the networks as they are; of the
    three core policies only the critical one, cpp_safety_001, is still
    active, enforcement is on, and the violations recorded by the
    cycles are kept. *)
Theorem emergencyStop_after_cycles (rd : Entropy)
    (envs : list EVACPPCore.Environment) :
  Forall (fun env => forall l, EVACPPCore.visit env l ≡ₚ l) envs ->
  exists core0 cycle_count core core',
    EVACPPCore.initialize (EVACPPCore.new rd) = (core0, Value true)
    /\ EVACPPCore.start envs core0 = Some (cycle_count, core)
    /\ EVACPPCore.emergencyStop core = (core', Value tt)
    /\ EVACPPCore.running_ core' = false
    /\ replay_buffer_ (EVACPPCore.rl_engine_ core') = []
    /\ epsilon_ (EVACPPCore.rl_engine_ core') = 1%Q
    /\ q_network_ (EVACPPCore.rl_engine_ core')
       = q_network_ (EVACPPCore.rl_engine_ core0)
    /\ target_network_ (EVACPPCore.rl_engine_ core')
       = target_network_ (EVACPPCore.rl_engine_ core0)
    /\ CPPPolicyEngine.getActivePolicyIds (EVACPPCore.policy_engine_ core')
       = ["cpp_safety_001"]
    /\ CPPPolicyEngine.isEnforcementActive (EVACPPCore.policy_engine_ core') = true
    /\ CPPPolicyEngine.violations_ (EVACPPCore.policy_engine_ core')
       = CPPPolicyEngine.violations_ (EVACPPCore.policy_engine_ core).
Proof.
  intros Hvisit.
  set (e0 := newReinforcementLearningEngine 10 4 128 0.001 rd).
  set (core0 := EVACPPCore.mkCore (CPPPolicyEngine.initialize CPPPolicyEngine.new).1
                  e0 false).
  set (q := newQNetwork 10 128 4 0.001 (q_dist rd) (q_dist2 rd)).
  assert (cycling q (EVACPPCore.set_running_ true core0)) as Hcyc.
  { unfold cycling. cbn [EVACPPCore.rl_engine_ EVACPPCore.set_running_ core0].
    repeat split; done. }
  destruct (start_loop_cycling q envs 0 _ Hvisit Hcyc)
    as (core & new & Hrun & Hcyc' & Htn & _ & _ & _ & _ & _ & Hpol & _);
    [done..|].
  destruct Hcyc' as (Hq & _).
  destruct core as [pe e running].
  cbn [EVACPPCore.rl_engine_ EVACPPCore.policy_engine_] in *.
  exists core0. eexists _, _, _.
  split.
  { unfold EVACPPCore.initialize, EVACPPCore.new, EVACPPCore.run,
      CPPPolicyEngine.initialize.
    cbn [EVACPPCore.policy_engine_ EVACPPCore.rl_engine_ EVACPPCore.set_policy_engine_
         EVACPPCore.running_ negb].
    by rewrite initialize_new. }
  split; [exact Hrun|]. split.
  { unfold EVACPPCore.emergencyStop, EVACPPCore.run.
    cbn [EVACPPCore.set_running_ EVACPPCore.rl_engine_ EVACPPCore.policy_engine_
         EVACPPCore.running_].
    rewrite emergencyStop_eq. reflexivity. }
  cbn [EVACPPCore.set_policy_engine_ EVACPPCore.set_rl_engine_ EVACPPCore.rl_engine_
       EVACPPCore.policy_engine_ EVACPPCore.running_].
  split; [reflexivity|]. split; [by destruct e|]. split; [by destruct e|].
  split; [transitivity (q_network_ e); [by destruct e|exact Hq]|].
  split; [transitivity (target_network_ e); [by destruct e|exact Htn]|].
  split; [|done].
  unfold CPPPolicyEngine.getActivePolicyIds, CPPPolicyEngine.emergencyLockdown.
  cbn [CPPPolicyEngine.policies_ EVACPPCore.policy_engine_ EVACPPCore.set_running_].
  rewrite Hpol. vm_compute. reflexivity.
Qed.

Lemma emergencyStop_after_cycles_witness :
  let envs := replicate 40 (EVACPPCore.mkEnvironment id 0 0 0) in
  exists core0 cycle_count core core',
    EVACPPCore.initialize (EVACPPCore.new fixture_entropy) = (core0, Value true)
    /\ EVACPPCore.start envs core0 = Some (cycle_count, core)
    /\ EVACPPCore.emergencyStop core = (core', Value tt)
    /\ EVACPPCore.running_ core' = false
    /\ replay_buffer_ (EVACPPCore.rl_engine_ core') = []
    /\ epsilon_ (EVACPPCore.rl_engine_ core') = 1%Q
    /\ q_network_ (EVACPPCore.rl_engine_ core')
       = q_network_ (EVACPPCore.rl_engine_ core0)
    /\ target_network_ (EVACPPCore.rl_engine_ core')
       = target_network_ (EVACPPCore.rl_engine_ core0)
    /\ CPPPolicyEngine.getActivePolicyIds (EVACPPCore.policy_engine_ core')
       = ["cpp_safety_001"]
    /\ CPPPolicyEngine.isEnforcementActive (EVACPPCore.policy_engine_ core') = true
    /\ CPPPolicyEngine.violations_ (EVACPPCore.policy_engine_ core')
       = CPPPolicyEngine.violations_ (EVACPPCore.policy_engine_ core).
Proof.
  intros envs. apply (emergencyStop_after_cycles fixture_entropy envs).
  apply Forall_replicate. intros l. reflexivity.
Defined.

(** * learn after emergencyStop, whatever the calls in between *)

Lemma bookkeeping_stored (e : ReinforcementLearningEngine) :
  batch_size_ (bookkeeping e) = batch_size_ e
  /\ replay_buffer_ (bookkeeping e) = replay_buffer_ e.
Proof.
  destruct e as [q tn buf cap bs eps dec emin gam lr uf ssu ts te rng].
  unfold bookkeeping, sync_counter, decay_epsilon. cbn zeta. unfold_setters.
  destruct (uf <=? add_sz ssu 1)%N; unfold_setters;
    by destruct (Qltb emin eps).
Qed.

(** A call adds a transition to the replay buffer only when it is a
    call of [storeExperience], and then one; no call changes the batch
    size. *)
Lemma call_stored_at_most (c : Call) (e e' : ReinforcementLearningEngine) :
  engine_after (call c e) = Some e' ->
  stored_at_most (if is_storeExperience c then 1 else 0) e e'.
Proof.
  unfold stored_at_most.
  destruct c as [|s|s a r s' d now| | | | | | | | | | | ];
    cbn [call is_storeExperience].
  - (* initialize *)
    unfold initialize. step_M.
    destruct (negb _ || negb _); step_M; cbn; intros [= <-]; [split; [done|lia]|].
    destruct e. unfold_setters. split; [done|]. unfold size. cbn [length]. lia.
  - (* getAction *)
    unfold ignore. rewrite M_bind_eq.
    destruct (getAction s e) as [e1 x|e1 x|] eqn:Hga; cbn; try done; intros [= <-];
      (assert (rng_only (step_counted e) e1) as Heq
         by (apply (getAction_rng_only s); by rewrite Hga));
      unfold rng_only in Heq; rewrite Heq; destruct e; unfold step_counted;
      unfold_setters; (split; [done|lia]).
  - (* storeExperience *)
    rewrite storeExperience_eq. cbn zeta.
    destruct (buffer_capacity_ e <=? size (replay_buffer_ e))%N.
    + destruct (replay_buffer_ e) as [|x rest] eqn:Hb; [done|].
      cbn. intros [= <-]. destruct e. cbn in Hb. subst. unfold_setters.
      split; [done|]. rewrite size_app. unfold size. cbn [length]. lia.
    + cbn. intros [= <-]. destruct e. unfold_setters.
      split; [done|]. rewrite size_app. unfold size. cbn [length]. lia.
  - (* learn *)
    rewrite learn_eq.
    destruct (size (replay_buffer_ e) <? batch_size_ e)%N;
      [intros [= <-]; split; [done|lia]|].
    pose proof (trainOnBatch_stays e) as Hs.
    destruct (trainOnBatch e) as [e1 []|e1 x|]; cbn in *; intros [= <-].
    + destruct (bookkeeping_stored e1) as [-> ->]. rewrite Hs. destruct e.
      unfold_setters. split; [done|lia].
    + rewrite Hs. destruct e. unfold_setters. split; [done|lia].
  - (* startEpisode *)
    unfold startEpisode. step_M. cbn. intros [= <-]. destruct e. unfold_setters.
    split; [done|lia].
  - (* endEpisode *)
    cbn. intros [= <-]. split; [done|lia].
  - (* setExplorationRate *)
    unfold setExplorationRate. step_M. cbn. intros [= <-]. destruct e.
    unfold_setters. split; [done|lia].
  - (* getAverageReward *)
    unfold getAverageReward. step_M.
    destruct (replay_buffer_ e) eqn:Hb; step_M; cbn; intros [= <-]; rewrite ?Hb;
      (split; [done|lia]).
  - cbn. intros [= <-]. split; [done|lia].
  - cbn. intros [= <-]. split; [done|lia].
  - cbn. intros [= <-]. split; [done|lia].
  - (* emergencyStop *)
    unfold emergencyStop. step_M. cbn. intros [= <-]. destruct e. unfold_setters.
    split; [done|]. unfold size. cbn [length]. lia.
  - (* resetLearning *)
    unfold resetLearning. step_M. cbn. intros [= <-]. destruct e. unfold_setters.
    split; [done|]. unfold size. cbn [length]. lia.
  - (* shutdown *)
    unfold shutdown. step_M. cbn. intros [= <-]. destruct e. unfold_setters.
    split; [done|]. unfold size. cbn [length]. lia.
Qed.

Lemma calls_stored_at_most (cs : list Call) (e e' : ReinforcementLearningEngine) :
  engine_after_calls cs e = Some e' ->
  stored_at_most (count is_storeExperience cs) e e'.
Proof.
  revert e. induction cs as [|c cs IH]; intros e; cbn [engine_after_calls].
  - intros [= <-]. split; [done|]. change (count is_storeExperience []) with 0%N. lia.
  - destruct (engine_after (call c e)) as [e1|] eqn:Hc; [|done]. intros Hrest.
    destruct (call_stored_at_most c e e1 Hc) as [Hb1 Hs1].
    destruct (IH e1 Hrest) as [Hb Hs]. rewrite count_cons.
    split; [congruence|]. destruct (is_storeExperience c); lia.
Qed.

(** C1, as the code has it: the engine has no stopped state, and
    nothing but the number of stored transitions holds [learn] back.
    [emergencyStop] returns with the replay buffer empty and the
    exploration rate 1.0.  After it, along any sequence of public calls
    whatever, each returning or throwing, in which fewer transitions
    are stored than the batch size, a call of [learn] returns and
    leaves the engine exactly as it was: no training, no count towards
    the target synchronisation, no decay of the exploration rate. *)
Theorem learn_after_emergencyStop (e e1 : ReinforcementLearningEngine)
    (cs : list Call) :
  (count is_storeExperience cs < batch_size_ e)%N ->
  engine_after_calls (CallEmergencyStop :: cs) e = Some e1 ->
  (exists e0,
     emergencyStop e = Returns e0 tt
     /\ replay_buffer_ e0 = [] /\ epsilon_ e0 = 1%Q
     /\ engine_after_calls cs e0 = Some e1)
  /\ learn e1 = Returns e1 tt.
Proof.
  intros Hfew. cbn [engine_after_calls call].
  rewrite emergencyStop_eq. cbn [engine_after]. intros Hrun.
  split.
  - eexists. split; [reflexivity|]. split; [by destruct e|]. split; [by destruct e|].
    exact Hrun.
  - destruct (calls_stored_at_most cs _ e1 Hrun) as [Hb Hs].
    apply learn_noop. rewrite Hb.
    assert (batch_size_ (set_epsilon_ 1 (set_replay_buffer_ [] e)) = batch_size_ e)
      as -> by (by destruct e).
    assert (size (replay_buffer_ (set_epsilon_ 1 (set_replay_buffer_ [] e))) = 0%N)
      as Hempty by (by destruct e).
    lia.
Qed.

Lemma learn_after_emergencyStop_witness :
  let cs := [store_call fixture_experience; CallLearn;
             CallGetAction fixture_state; CallSetExplorationRate 0.5;
             CallStartEpisode; store_call fixture_experience;
             CallGetAction (newState [] "no features"); CallLearn;
             CallEndEpisode 1; CallResetLearning;
             store_call fixture_experience; CallLearn] in
  exists e1,
    engine_after_calls (CallEmergencyStop :: cs) fixture_full = Some e1
    /\ (exists e0,
          emergencyStop fixture_full = Returns e0 tt
          /\ replay_buffer_ e0 = [] /\ epsilon_ e0 = 1%Q
          /\ engine_after_calls cs e0 = Some e1)
    /\ learn e1 = Returns e1 tt.
Proof.
  intros cs. eexists. split; [vm_compute; reflexivity|].
  apply (learn_after_emergencyStop fixture_full _ cs).
  - vm_compute. reflexivity.
  - vm_compute. reflexivity.
Defined.

(** * What a learn cycle trains toward *)

(** One pass of the loop on a ready engine: a [train_step] of the live
    network on the sampled transition. *)
Lemma trainOnBatch_body_step (e : ReinforcementLearningEngine) (idx : N)
    (q tn : QNetwork) :
  ready e = true ->
  (idx < size (replay_buffer_ e))%N ->
  q_network_ e = Some q ->
  target_network_ e = Some tn ->
  exists x q',
    at_ (replay_buffer_ e) idx = Value x
    /\ train_step (gamma_ e) tn x q q'
    /\ wf_network q' = true /\ frozen q' = frozen q
    /\ trainOnBatch_body idx e = Returns (set_q_network_ (Some q') e) tt.
Proof.
  intros Hr Hidx Hq Htn.
  destruct (ready_inv e Hr) as (q0 & tn0 & Hq0 & Htn0 & Hwfq & Hwftn & Hall & Hsz).
  rewrite Hq in Hq0. injection Hq0 as <-. rewrite Htn in Htn0. injection Htn0 as <-.
  destruct (at_Value (replay_buffer_ e) idx Hidx) as [x Hx].
  assert (trainable q tn x = true) as Hx'.
  { apply at_lookup in Hx. eapply Forall_lookup_1 in Hall; done. }
  unfold trainable in Hx'.
  apply andb_prop in Hx' as [Hx' Hp]. apply andb_prop in Hx' as [Hx' Hout].
  apply andb_prop in Hx' as [Hin Hin'].
  apply N.eqb_eq in Hin, Hin'.
  destruct (forward_total q (features (state x)) Hwfq Hin) as (cur & Hcur & Hcursz).
  destruct (forward_total tn (features (next_state x)) Hwftn Hin')
    as (next & Hnext & Hnextsz).
  destruct (parameters (action x)) as [|p0 rest] eqn:Hparams; [done|].
  destruct (size_of_double p0) as [a| |] eqn:Ha; [|done..].
  assert (done x = false -> next <> []) as Hne.
  { intros Hd ->. rewrite Hd in Hout. cbn in Hout.
    apply negb_true_iff, N.eqb_neq in Hout. unfold size in Hnextsz. cbn in Hnextsz.
    lia. }
  destruct (trainOnBatch_body_target e idx x q tn cur next p0 a)
    as (target_q & target & Htq & Hlen & Hother & Hat & Hbody); try done.
  { by rewrite Hparams. }
  destruct (train_total q (features (state x)) target Hwfq Hin)
    as (q' & Htrain & Hwf' & Hfr').
  { unfold size in *. by rewrite Hlen. }
  rewrite Htrain in Hbody.
  exists x, q'. split; [done|]. split; [|done].
  exists cur, next, target. split; [done|]. split; [done|]. split; [|done].
  exists p0, a, target_q. rewrite Hparams. done.
Qed.

Lemma train_loop_steps (tn : QNetwork) (idxs : list N) :
  forall (e : ReinforcementLearningEngine) (q : QNetwork),
  ready e = true ->
  Forall (fun idx => (idx < size (replay_buffer_ e))%N) idxs ->
  q_network_ e = Some q ->
  target_network_ e = Some tn ->
  exists q',
    batch_trained (gamma_ e) tn (replay_buffer_ e) idxs q q'
    /\ foldM (fun _ idx => trainOnBatch_body idx) tt idxs e
       = Returns (set_q_network_ (Some q') e) tt.
Proof.
  induction idxs as [|idx idxs IH]; intros e q Hr Hall Hq Htn.
  - exists q. split; [constructor|]. cbn [foldM].
    destruct e as [q0 tn0 buf cap bs eps dec emin gam lr uf ssu ts te rng].
    cbn in Hq. by subst.
  - apply Forall_cons in Hall as [Hidx Hall]. cbn [foldM]. step_M.
    destruct (trainOnBatch_body_step e idx q tn Hr Hidx Hq Htn)
      as (x & q1 & Hx & Hstep & Hwf1 & Hfr1 & ->).
    step_M.
    set (e1 := set_q_network_ (Some q1) e).
    assert (trained e e1) as Ht.
    { exists q, q1, (rng_ e). split; [done|]. split; [done|]. split; [done|].
      subst e1. by destruct e. }
    assert (replay_buffer_ e1 = replay_buffer_ e) as Hbuf by (by destruct e).
    assert (gamma_ e1 = gamma_ e) as Hgam by (by destruct e).
    destruct (IH e1 q1) as (q' & Hrest & ->).
    { exact (ready_trained _ _ Hr Ht). }
    { by rewrite Hbuf. }
    { by destruct e. }
    { by destruct e. }
    rewrite Hbuf, Hgam in Hrest.
    exists q'. split; [by econstructor|]. subst e1. by destruct e.
Qed.



(** * The range of the exploration rate *)

(** The comparison of binary64 values that are not NaN is total. *)
Lemma SFcompare_antisym (x y : spec_float) :
  SFcompare y x = option_map CompOpp (SFcompare x y).
Proof.
  destruct x as [sx|sx| |sx mx ex], y as [sy|sy| |sy my ey]; try reflexivity;
    try (by destruct sx); try (by destruct sy); try (by destruct sx, sy).
  cbn. rewrite (Z.compare_antisym ex ey).
  destruct sx, sy; try reflexivity;
    destruct (ex ?= ey)%Z; cbn; try reflexivity;
    repeat apply f_equal; exact (eq_sym (Pos.compare_cont_antisym mx my Eq)).
Qed.

Lemma SFltb_false_SFleb (x y : spec_float) :
  x <> S754_nan -> y <> S754_nan -> SFltb x y = false -> SFleb y x = true.
Proof.
  intros Hx Hy. unfold SFltb, SFleb. rewrite (SFcompare_antisym x y).
  destruct (SFcompare x y) as [[| |]|] eqn:Hc; cbn; try done.
  destruct x, y; done.
Qed.

(** [std::clamp] with bounds 0.0 and 1.0 takes every binary64 value
    that is not a NaN, the infinities as well, into [0, 1]. *)
Lemma setExplorationRate_binary64_range (v : spec_float) :
  v <> S754_nan ->
  in_unit_interval_binary64 (setExplorationRate_binary64 v) = true.
Proof.
  intros Hv. unfold setExplorationRate_binary64, clamp_binary64,
    in_unit_interval_binary64.
  destruct (SFltb v zero_binary64) eqn:Hlo; [reflexivity|].
  destruct (SFltb one_binary64 v) eqn:Hhi; [reflexivity|].
  apply andb_true_intro. split.
  - by apply SFltb_false_SFleb.
  - by apply SFltb_false_SFleb.
Qed.

(** C10, as the code has it: in every reachable engine the exploration
    rate lies in [0, 1], as long as no call of [setExplorationRate] is
    passed a NaN.  [setExplorationRate] stores its argument clamped
    into [0, 1]: the argument itself when it is in the interval, 0 for
    a negative one, 1 for one above 1; on binary64 every argument that
    is not a NaN, an infinity as well, is taken into [0, 1].  [learn]
    leaves the rate as it is or multiplies it by the decay factor
    0.995, and [emergencyStop] and [resetLearning] set it to 1.0. *)
Theorem epsilon_in_unit_interval (e : ReinforcementLearningEngine) (x : Q)
    (v : spec_float) :
  reachable e ->
  v <> S754_nan ->
  (0 <= epsilon_ e <= 1)%Q
  /\ (exists e', setExplorationRate x e = Returns e' tt
                 /\ (0 <= epsilon_ e' <= 1)%Q
                 /\ ((0 <= x <= 1)%Q -> epsilon_ e' = x)
                 /\ ((x < 0)%Q -> epsilon_ e' = 0%Q)
                 /\ ((1 < x)%Q -> epsilon_ e' = 1%Q))
  /\ (forall e', engine_after (learn e) = Some e' ->
        (0 <= epsilon_ e' <= 1)%Q
        /\ (epsilon_ e' = epsilon_ e
            \/ epsilon_ e' = (epsilon_ e * 0.995)%Q))
  /\ (exists e', emergencyStop e = Returns e' tt /\ epsilon_ e' = 1%Q)
  /\ (exists e', resetLearning e = Returns e' tt /\ epsilon_ e' = 1%Q)
  /\ in_unit_interval_binary64 (setExplorationRate_binary64 v) = true.
Proof.
  intros Hreach Hv. pose proof (reachable_invariant e Hreach) as Hinv.
  destruct Hinv as (Hc & _ & Heps). split; [done|].
  split; [|split; [|split; [|split]]].
  - eexists. split; [reflexivity|].
    destruct e as [q tn buf cap bs eps dec emin gam lr uf ssu ts te rng].
    unfold_setters.
    split; [apply clamp_range; lra|]. unfold clamp.
    destruct (Qltb x 0) eqn:H0; [apply Qltb_lt in H0|apply Qltb_ge in H0];
      (destruct (Qltb 1 x) eqn:H1; [apply Qltb_lt in H1|apply Qltb_ge in H1]);
      repeat split; intros; try done; lra.
  - intros e' He'.
    split.
    { eapply (call_invariant CallLearn) in He'; [apply He'|].
      by apply reachable_invariant. }
    revert He'. rewrite learn_eq.
    destruct (size (replay_buffer_ e) <? batch_size_ e)%N; [intros [= <-]; by left|].
    pose proof (trainOnBatch_stays e) as Hs.
    destruct (trainOnBatch e) as [e1 []|e1 x0|]; cbn in *; intros [= <-].
    + assert (epsilon_ e1 = epsilon_ e /\ epsilon_decay_ e1 = 0.995%Q) as [E D].
      { rewrite Hs. destruct Hc as (_ & _ & D & _). by destruct e. }
      rewrite bookkeeping_epsilon, E, D. destruct (Qltb _ _); [by right|by left].
    + left. rewrite Hs. by destruct e.
  - eexists. split; [reflexivity|]. by destruct e.
  - eexists. split; [reflexivity|]. by destruct e.
  - by apply setExplorationRate_binary64_range.
Qed.

Lemma epsilon_in_unit_interval_witness :
  (0 <= epsilon_ fixture_full <= 1)%Q
  /\ (exists e', setExplorationRate (-3) fixture_full = Returns e' tt
                 /\ (0 <= epsilon_ e' <= 1)%Q
                 /\ ((0 <= -3 <= 1)%Q -> epsilon_ e' = (-3)%Q)
                 /\ ((-3 < 0)%Q -> epsilon_ e' = 0%Q)
                 /\ ((1 < -3)%Q -> epsilon_ e' = 1%Q))
  /\ (forall e', engine_after (learn fixture_full) = Some e' ->
        (0 <= epsilon_ e' <= 1)%Q
        /\ (epsilon_ e' = epsilon_ fixture_full
            \/ epsilon_ e' = (epsilon_ fixture_full * 0.995)%Q))
  /\ (exists e', emergencyStop fixture_full = Returns e' tt /\ epsilon_ e' = 1%Q)
  /\ (exists e', resetLearning fixture_full = Returns e' tt /\ epsilon_ e' = 1%Q)
  /\ in_unit_interval_binary64 (setExplorationRate_binary64 (S754_infinity false))
     = true.
Proof.
  apply (epsilon_in_unit_interval fixture_full (-3) (S754_infinity false)).
  - apply fixture_full_reachable.
  - discriminate.
Defined.

(** C10, as the specification states it, fails: [setExplorationRate]
    does not clamp a NaN.  [std::clamp] only compares, every comparison
    with a NaN is false, and the NaN is what is stored in [epsilon_]:
    the exploration rate is then not in [0, 1]. *)
Lemma setExplorationRate_nan :
  setExplorationRate_binary64 S754_nan = S754_nan
  /\ in_unit_interval_binary64 (setExplorationRate_binary64 S754_nan) = false.
Proof. split; reflexivity. Qed.
